(** * The autoscaling control loop: [StandardAutoscaler]

    A shallow embedding of
    [python/ray/autoscaler/_private/autoscaler.py] and the properties of
    its reconciler tick.

    - Python dictionaries whose iteration order is observable
      ([self.updaters]) are association lists with the insertion-order
      semantics of [dict]; the others are [gmap]s.
    - Times ([time.time()], the entries of [last_used_time_by_ip]) are
      integers, in seconds.
    - A method of the class is a computation in the monad [M]: it reads and
      writes the autoscaler object, and ends by returning, by raising a
      Python exception, or never ([Diverge]: a [while] loop that does not
      end).  What was written before an exception stays written.
    - The node provider, the load metrics and the key-value sink are the
      objects the autoscaler holds references to; they are part of the
      state.  Every provider call is logged, and the provider can fail a
      call with an exception of its choice. *)

From Stdlib Require Import ZArith QArith Qminmax Lqa.
From stdpp Require Import gmap strings list fin_maps pretty sorting.

Open Scope Z_scope.

(** ** Exceptions and outcomes *)

Inductive Exn : Type :=
  | KeyError (key : string)
  | ValueError (msg : string)
  | IndexError
  | MaxRetryError              (* urllib3.exceptions.MaxRetryError *)
  | OtherException (msg : string).

Inductive res (A : Type) : Type :=
  | Ok (a : A)
  | Raise (e : Exn)
  | Diverge.
Arguments Ok {A} a.
Arguments Raise {A} e.
Arguments Diverge {A}.

#[global] Instance Exn_eq_dec : EqDecision Exn.
Proof. solve_decision. Defined.

Definition isinstance_MaxRetryError (e : Exn) : bool :=
  match e with MaxRetryError => true | _ => false end.

(** ** Python dictionaries with observable order *)

Module PyDict.
Section pydict.
Context {K V : Type} `{EqDecision K}.

Fixpoint get (d : list (K * V)) (k : K) : option V :=
  match d with
  | [] => None
  | (k', v) :: d' => if decide (k' = k) then Some v else get d' k
  end.

Definition contains (d : list (K * V)) (k : K) : bool :=
  match get d k with Some _ => true | None => false end.

(** [d[k] = v]: replaces the value in place, or appends a new entry. *)
Fixpoint set (k : K) (v : V) (d : list (K * V)) : list (K * V) :=
  match d with
  | [] => [(k, v)]
  | (k', v') :: d' =>
      if decide (k' = k) then (k', v) :: d' else (k', v') :: set k v d'
  end.

(** [del d[k]], for a key that is present. *)
Fixpoint del (k : K) (d : list (K * V)) : list (K * V) :=
  match d with
  | [] => []
  | (k', v') :: d' =>
      if decide (k' = k) then d' else (k', v') :: del k d'
  end.

Definition keys (d : list (K * V)) : list K := d.*1.
End pydict.
End PyDict.

(** ** Data model *)

Abbreviation NodeID := string (only parsing).
Abbreviation NodeType := string (only parsing).
Abbreviation IP := string (only parsing).
Abbreviation Tags := (gmap string string) (only parsing).
Abbreviation ResourceDict := (gmap string Z) (only parsing).
Abbreviation Commands := (list string) (only parsing).
Abbreviation Dict := (gmap string string) (only parsing).

(** Modelled from the spec: the constants of [ray.autoscaler.tags], which
    the source imports; the tag names are those of the data model. *)
Definition TAG_RAY_NODE_KIND : string := "RAY_NODE_KIND".
Definition TAG_RAY_NODE_STATUS : string := "RAY_NODE_STATUS".
Definition TAG_RAY_USER_NODE_TYPE : string := "RAY_USER_NODE_TYPE".
Definition TAG_RAY_LAUNCH_CONFIG : string := "RAY_LAUNCH_CONFIG".
Definition TAG_RAY_RUNTIME_CONFIG : string := "RAY_RUNTIME_CONFIG".
Definition TAG_RAY_FILE_MOUNTS_CONTENTS : string := "RAY_FILE_MOUNTS_CONTENTS".
Definition STATUS_UP_TO_DATE : string := "up_to_date".
Definition NODE_KIND_WORKER : string := "worker".
Definition NODE_KIND_UNMANAGED : string := "unmanaged".

(** An entry of [available_node_types].  A field is [None] when the key is
    absent from the YAML mapping. *)
Record NodeTypeConfig : Type := {
  nt_resources : option ResourceDict;
  nt_node_config : option Dict;
  nt_min_workers : option Z;
  nt_max_workers : option Z;
  nt_worker_setup_commands : option Commands;
  nt_initialization_commands : option Commands;
  nt_docker : option Dict;
}.

(** The cluster config as loaded from YAML: [self.config]. *)
Record Config : Type := {
  c_provider : option Dict;
  c_cluster_name : option string;
  c_auth : option Dict;
  c_max_workers : option Z;
  c_idle_timeout_minutes : option Z;
  c_worker_nodes : option Dict;
  c_available_node_types : option (gmap string NodeTypeConfig);
  c_file_mounts : option Dict;
  c_cluster_synced_files : option (list string);
  c_initialization_commands : option Commands;
  c_worker_setup_commands : option Commands;
  c_worker_start_ray_commands : option Commands;
  c_docker : option Dict;
  c_restart_only : option bool;
  c_no_restart : option bool;
  c_file_mounts_sync_continuously : option bool;
  c_upscaling_speed : option Q;
  c_autoscaling_mode : option string;
  c_target_utilization_fraction : option Q;
  c_rsync_exclude : option (list string);
  c_rsync_filter : option (list string);
}.

(** ** The node provider *)

Inductive ProviderCall : Type :=
  | Call_non_terminated_nodes (tag_filters : Tags)
  | Call_node_tags (node_id : NodeID)
  | Call_internal_ip (node_id : NodeID)
  | Call_terminate_nodes (node_ids : list NodeID).

(** Modelled from the spec: the node provider driver, of which the source
    holds only the calls.  It lists the non-terminated nodes in a fixed
    order, knows the tags and the internal IP of every node, and forgets the
    nodes it is asked to terminate.  [p_calls] is the log of the calls made
    so far (most recent first); call number [i] raises [e] when
    [p_faults !! i = Some e]. *)
Record Provider : Type := {
  p_nodes : list NodeID;
  p_tags : NodeID -> Tags;
  p_ip : NodeID -> IP;
  p_calls : list ProviderCall;
  p_faults : gmap nat Exn;
}.

(** ** Load metrics *)

(** Modelled from the spec: the load-metrics aggregator, of which the source
    reads [last_used_time_by_ip] and [last_heartbeat_time_by_ip] and calls
    [prune_active_ips], [mark_active] and the getters. *)
Record LoadMetrics : Type := {
  local_ip : IP;
  last_used_time_by_ip : gmap IP Z;
  last_heartbeat_time_by_ip : gmap IP Z;
  lm_marked_active : list IP;  (* arguments of [mark_active], latest first *)
  lm_resource_demand_vector : list ResourceDict;
  lm_resource_utilization : gmap IP ResourceDict;
  lm_pending_placement_groups : list (list ResourceDict);
  lm_static_node_resources_by_ip : gmap IP ResourceDict;
}.

(** ** Updater handles *)

(** A [NodeUpdaterThread]: the arguments it was constructed with, and the
    two status fields the reconciler reads.  The status is written by the
    updater thread itself. *)
Record NodeUpdater : Type := {
  u_node_id : NodeID;
  u_provider_config : Dict;
  u_auth_config : Dict;
  u_cluster_name : string;
  u_file_mounts : Dict;
  u_initialization_commands : Commands;
  u_setup_commands : Commands;
  u_ray_start_commands : Commands;
  u_runtime_hash : string;
  u_file_mounts_contents_hash : option string;
  u_is_head_node : bool;
  u_cluster_synced_files : list string;
  u_rsync_options : option (list string) * option (list string);
  u_use_internal_ip : bool;
  u_docker_config : option Dict;
  u_node_resources : ResourceDict;
  u_alive : bool;
  u_exitcode : Z;
}.

Definition is_alive (u : NodeUpdater) : bool := u_alive u.
Definition exitcode (u : NodeUpdater) : Z := u_exitcode u.

(** [updater.start()]: the thread runs. *)
Definition start (u : NodeUpdater) : NodeUpdater :=
  {| u_node_id := u_node_id u; u_provider_config := u_provider_config u;
     u_auth_config := u_auth_config u; u_cluster_name := u_cluster_name u;
     u_file_mounts := u_file_mounts u;
     u_initialization_commands := u_initialization_commands u;
     u_setup_commands := u_setup_commands u;
     u_ray_start_commands := u_ray_start_commands u;
     u_runtime_hash := u_runtime_hash u;
     u_file_mounts_contents_hash := u_file_mounts_contents_hash u;
     u_is_head_node := u_is_head_node u;
     u_cluster_synced_files := u_cluster_synced_files u;
     u_rsync_options := u_rsync_options u;
     u_use_internal_ip := u_use_internal_ip u;
     u_docker_config := u_docker_config u;
     u_node_resources := u_node_resources u;
     u_alive := true; u_exitcode := u_exitcode u |}.

(** Tuple returned by [should_update]; all fields [None] means no update. *)
Record UpdateInstructions : Type := {
  ui_node_id : option NodeID;
  ui_init_commands : option Commands;
  ui_start_ray_commands : option Commands;
  ui_docker_config : option Dict;
}.

Definition no_update : UpdateInstructions :=
  {| ui_node_id := None; ui_init_commands := None;
     ui_start_ray_commands := None; ui_docker_config := None |}.

(** An item of the launch queue: [(config, count, node_type)]. *)
Record LaunchRequest : Type := {
  lr_config : Config;
  lr_count : Z;
  lr_node_type : option NodeType;
}.

(** What [ResourceDemandScheduler] was last configured with. *)
Record SchedulerConfig : Type := {
  sc_node_types : gmap string NodeTypeConfig;
  sc_max_workers : Z;
  sc_upscaling_speed : Q;
}.

(** ** The autoscaler object

    The attributes of [StandardAutoscaler] keep their names.  [config_file]
    is what reading and parsing the file at [config_path] gives at the next
    [reset], an exception or a config; [kv] is the internal key-value store
    behind [_internal_kv_put]. *)
Record StandardAutoscaler : Type := {
  (* written by [reset] *)
  config : Config;
  runtime_hash : string;
  file_mounts_contents_hash : option string;
  available_node_types : gmap string NodeTypeConfig;
  resource_demand_scheduler : SchedulerConfig;
  (* the objects the autoscaler holds *)
  provider : Provider;
  load_metrics : LoadMetrics;
  (* constructor arguments *)
  head_node_ip : IP;
  max_failures : Z;
  max_launch_batch : Z;
  update_interval_s : Z;
  (* mutable state of the reconciler *)
  updaters : list (NodeID * NodeUpdater);
  num_failed_updates : gmap NodeID Z;
  num_successful_updates : gmap NodeID Z;
  num_failures : Z;
  last_update_time : Z;
  launch_queue : list LaunchRequest;
  pending_launches : gmap (option NodeType) Z;
  resource_demand_vector : list ResourceDict;
  (* the YAML file at [config_path]; the debug KV sink *)
  config_file : Exn + Config;
  kv_initialized : bool;
  kv : gmap string string;
}.

(** Attribute assignments. *)
Definition set_config_and_hashes
    (v_config : Config)
    (v_runtime_hash : string)
    (v_file_mounts_contents_hash : option string)
    (s : StandardAutoscaler)
  : StandardAutoscaler :=
  {| config := v_config; runtime_hash := v_runtime_hash;
     file_mounts_contents_hash := v_file_mounts_contents_hash;
     available_node_types := available_node_types s;
     resource_demand_scheduler := resource_demand_scheduler s;
     provider := provider s; load_metrics := load_metrics s;
     head_node_ip := head_node_ip s; max_failures := max_failures s;
     max_launch_batch := max_launch_batch s;
     update_interval_s := update_interval_s s; updaters := updaters s;
     num_failed_updates := num_failed_updates s;
     num_successful_updates := num_successful_updates s;
     num_failures := num_failures s; last_update_time := last_update_time s;
     launch_queue := launch_queue s; pending_launches := pending_launches s;
     resource_demand_vector := resource_demand_vector s;
     config_file := config_file s; kv_initialized := kv_initialized s;
     kv := kv s |}.

Definition set_available_node_types
    (v_available_node_types : gmap string NodeTypeConfig)
    (s : StandardAutoscaler)
  : StandardAutoscaler :=
  {| config := config s; runtime_hash := runtime_hash s;
     file_mounts_contents_hash := file_mounts_contents_hash s;
     available_node_types := v_available_node_types;
     resource_demand_scheduler := resource_demand_scheduler s;
     provider := provider s; load_metrics := load_metrics s;
     head_node_ip := head_node_ip s; max_failures := max_failures s;
     max_launch_batch := max_launch_batch s;
     update_interval_s := update_interval_s s; updaters := updaters s;
     num_failed_updates := num_failed_updates s;
     num_successful_updates := num_successful_updates s;
     num_failures := num_failures s; last_update_time := last_update_time s;
     launch_queue := launch_queue s; pending_launches := pending_launches s;
     resource_demand_vector := resource_demand_vector s;
     config_file := config_file s; kv_initialized := kv_initialized s;
     kv := kv s |}.

Definition set_resource_demand_scheduler
    (v_resource_demand_scheduler : SchedulerConfig)
    (s : StandardAutoscaler)
  : StandardAutoscaler :=
  {| config := config s; runtime_hash := runtime_hash s;
     file_mounts_contents_hash := file_mounts_contents_hash s;
     available_node_types := available_node_types s;
     resource_demand_scheduler := v_resource_demand_scheduler;
     provider := provider s; load_metrics := load_metrics s;
     head_node_ip := head_node_ip s; max_failures := max_failures s;
     max_launch_batch := max_launch_batch s;
     update_interval_s := update_interval_s s; updaters := updaters s;
     num_failed_updates := num_failed_updates s;
     num_successful_updates := num_successful_updates s;
     num_failures := num_failures s; last_update_time := last_update_time s;
     launch_queue := launch_queue s; pending_launches := pending_launches s;
     resource_demand_vector := resource_demand_vector s;
     config_file := config_file s; kv_initialized := kv_initialized s;
     kv := kv s |}.

Definition set_provider
    (v_provider : Provider)
    (s : StandardAutoscaler)
  : StandardAutoscaler :=
  {| config := config s; runtime_hash := runtime_hash s;
     file_mounts_contents_hash := file_mounts_contents_hash s;
     available_node_types := available_node_types s;
     resource_demand_scheduler := resource_demand_scheduler s;
     provider := v_provider; load_metrics := load_metrics s;
     head_node_ip := head_node_ip s; max_failures := max_failures s;
     max_launch_batch := max_launch_batch s;
     update_interval_s := update_interval_s s; updaters := updaters s;
     num_failed_updates := num_failed_updates s;
     num_successful_updates := num_successful_updates s;
     num_failures := num_failures s; last_update_time := last_update_time s;
     launch_queue := launch_queue s; pending_launches := pending_launches s;
     resource_demand_vector := resource_demand_vector s;
     config_file := config_file s; kv_initialized := kv_initialized s;
     kv := kv s |}.

Definition set_load_metrics
    (v_load_metrics : LoadMetrics)
    (s : StandardAutoscaler)
  : StandardAutoscaler :=
  {| config := config s; runtime_hash := runtime_hash s;
     file_mounts_contents_hash := file_mounts_contents_hash s;
     available_node_types := available_node_types s;
     resource_demand_scheduler := resource_demand_scheduler s;
     provider := provider s; load_metrics := v_load_metrics;
     head_node_ip := head_node_ip s; max_failures := max_failures s;
     max_launch_batch := max_launch_batch s;
     update_interval_s := update_interval_s s; updaters := updaters s;
     num_failed_updates := num_failed_updates s;
     num_successful_updates := num_successful_updates s;
     num_failures := num_failures s; last_update_time := last_update_time s;
     launch_queue := launch_queue s; pending_launches := pending_launches s;
     resource_demand_vector := resource_demand_vector s;
     config_file := config_file s; kv_initialized := kv_initialized s;
     kv := kv s |}.

Definition set_updaters
    (v_updaters : list (NodeID * NodeUpdater))
    (s : StandardAutoscaler)
  : StandardAutoscaler :=
  {| config := config s; runtime_hash := runtime_hash s;
     file_mounts_contents_hash := file_mounts_contents_hash s;
     available_node_types := available_node_types s;
     resource_demand_scheduler := resource_demand_scheduler s;
     provider := provider s; load_metrics := load_metrics s;
     head_node_ip := head_node_ip s; max_failures := max_failures s;
     max_launch_batch := max_launch_batch s;
     update_interval_s := update_interval_s s; updaters := v_updaters;
     num_failed_updates := num_failed_updates s;
     num_successful_updates := num_successful_updates s;
     num_failures := num_failures s; last_update_time := last_update_time s;
     launch_queue := launch_queue s; pending_launches := pending_launches s;
     resource_demand_vector := resource_demand_vector s;
     config_file := config_file s; kv_initialized := kv_initialized s;
     kv := kv s |}.

Definition set_num_failed_updates
    (v_num_failed_updates : gmap NodeID Z)
    (s : StandardAutoscaler)
  : StandardAutoscaler :=
  {| config := config s; runtime_hash := runtime_hash s;
     file_mounts_contents_hash := file_mounts_contents_hash s;
     available_node_types := available_node_types s;
     resource_demand_scheduler := resource_demand_scheduler s;
     provider := provider s; load_metrics := load_metrics s;
     head_node_ip := head_node_ip s; max_failures := max_failures s;
     max_launch_batch := max_launch_batch s;
     update_interval_s := update_interval_s s; updaters := updaters s;
     num_failed_updates := v_num_failed_updates;
     num_successful_updates := num_successful_updates s;
     num_failures := num_failures s; last_update_time := last_update_time s;
     launch_queue := launch_queue s; pending_launches := pending_launches s;
     resource_demand_vector := resource_demand_vector s;
     config_file := config_file s; kv_initialized := kv_initialized s;
     kv := kv s |}.

Definition set_num_successful_updates
    (v_num_successful_updates : gmap NodeID Z)
    (s : StandardAutoscaler)
  : StandardAutoscaler :=
  {| config := config s; runtime_hash := runtime_hash s;
     file_mounts_contents_hash := file_mounts_contents_hash s;
     available_node_types := available_node_types s;
     resource_demand_scheduler := resource_demand_scheduler s;
     provider := provider s; load_metrics := load_metrics s;
     head_node_ip := head_node_ip s; max_failures := max_failures s;
     max_launch_batch := max_launch_batch s;
     update_interval_s := update_interval_s s; updaters := updaters s;
     num_failed_updates := num_failed_updates s;
     num_successful_updates := v_num_successful_updates;
     num_failures := num_failures s; last_update_time := last_update_time s;
     launch_queue := launch_queue s; pending_launches := pending_launches s;
     resource_demand_vector := resource_demand_vector s;
     config_file := config_file s; kv_initialized := kv_initialized s;
     kv := kv s |}.

Definition set_num_failures
    (v_num_failures : Z)
    (s : StandardAutoscaler)
  : StandardAutoscaler :=
  {| config := config s; runtime_hash := runtime_hash s;
     file_mounts_contents_hash := file_mounts_contents_hash s;
     available_node_types := available_node_types s;
     resource_demand_scheduler := resource_demand_scheduler s;
     provider := provider s; load_metrics := load_metrics s;
     head_node_ip := head_node_ip s; max_failures := max_failures s;
     max_launch_batch := max_launch_batch s;
     update_interval_s := update_interval_s s; updaters := updaters s;
     num_failed_updates := num_failed_updates s;
     num_successful_updates := num_successful_updates s;
     num_failures := v_num_failures; last_update_time := last_update_time s;
     launch_queue := launch_queue s; pending_launches := pending_launches s;
     resource_demand_vector := resource_demand_vector s;
     config_file := config_file s; kv_initialized := kv_initialized s;
     kv := kv s |}.

Definition set_last_update_time
    (v_last_update_time : Z)
    (s : StandardAutoscaler)
  : StandardAutoscaler :=
  {| config := config s; runtime_hash := runtime_hash s;
     file_mounts_contents_hash := file_mounts_contents_hash s;
     available_node_types := available_node_types s;
     resource_demand_scheduler := resource_demand_scheduler s;
     provider := provider s; load_metrics := load_metrics s;
     head_node_ip := head_node_ip s; max_failures := max_failures s;
     max_launch_batch := max_launch_batch s;
     update_interval_s := update_interval_s s; updaters := updaters s;
     num_failed_updates := num_failed_updates s;
     num_successful_updates := num_successful_updates s;
     num_failures := num_failures s; last_update_time := v_last_update_time;
     launch_queue := launch_queue s; pending_launches := pending_launches s;
     resource_demand_vector := resource_demand_vector s;
     config_file := config_file s; kv_initialized := kv_initialized s;
     kv := kv s |}.

Definition set_launch_queue
    (v_launch_queue : list LaunchRequest)
    (s : StandardAutoscaler)
  : StandardAutoscaler :=
  {| config := config s; runtime_hash := runtime_hash s;
     file_mounts_contents_hash := file_mounts_contents_hash s;
     available_node_types := available_node_types s;
     resource_demand_scheduler := resource_demand_scheduler s;
     provider := provider s; load_metrics := load_metrics s;
     head_node_ip := head_node_ip s; max_failures := max_failures s;
     max_launch_batch := max_launch_batch s;
     update_interval_s := update_interval_s s; updaters := updaters s;
     num_failed_updates := num_failed_updates s;
     num_successful_updates := num_successful_updates s;
     num_failures := num_failures s; last_update_time := last_update_time s;
     launch_queue := v_launch_queue; pending_launches := pending_launches s;
     resource_demand_vector := resource_demand_vector s;
     config_file := config_file s; kv_initialized := kv_initialized s;
     kv := kv s |}.

Definition set_pending_launches
    (v_pending_launches : gmap (option NodeType) Z)
    (s : StandardAutoscaler)
  : StandardAutoscaler :=
  {| config := config s; runtime_hash := runtime_hash s;
     file_mounts_contents_hash := file_mounts_contents_hash s;
     available_node_types := available_node_types s;
     resource_demand_scheduler := resource_demand_scheduler s;
     provider := provider s; load_metrics := load_metrics s;
     head_node_ip := head_node_ip s; max_failures := max_failures s;
     max_launch_batch := max_launch_batch s;
     update_interval_s := update_interval_s s; updaters := updaters s;
     num_failed_updates := num_failed_updates s;
     num_successful_updates := num_successful_updates s;
     num_failures := num_failures s; last_update_time := last_update_time s;
     launch_queue := launch_queue s; pending_launches := v_pending_launches;
     resource_demand_vector := resource_demand_vector s;
     config_file := config_file s; kv_initialized := kv_initialized s;
     kv := kv s |}.

Definition set_resource_demand_vector
    (v_resource_demand_vector : list ResourceDict)
    (s : StandardAutoscaler)
  : StandardAutoscaler :=
  {| config := config s; runtime_hash := runtime_hash s;
     file_mounts_contents_hash := file_mounts_contents_hash s;
     available_node_types := available_node_types s;
     resource_demand_scheduler := resource_demand_scheduler s;
     provider := provider s; load_metrics := load_metrics s;
     head_node_ip := head_node_ip s; max_failures := max_failures s;
     max_launch_batch := max_launch_batch s;
     update_interval_s := update_interval_s s; updaters := updaters s;
     num_failed_updates := num_failed_updates s;
     num_successful_updates := num_successful_updates s;
     num_failures := num_failures s; last_update_time := last_update_time s;
     launch_queue := launch_queue s; pending_launches := pending_launches s;
     resource_demand_vector := v_resource_demand_vector;
     config_file := config_file s; kv_initialized := kv_initialized s;
     kv := kv s |}.

Definition set_kv
    (v_kv : gmap string string)
    (s : StandardAutoscaler)
  : StandardAutoscaler :=
  {| config := config s; runtime_hash := runtime_hash s;
     file_mounts_contents_hash := file_mounts_contents_hash s;
     available_node_types := available_node_types s;
     resource_demand_scheduler := resource_demand_scheduler s;
     provider := provider s; load_metrics := load_metrics s;
     head_node_ip := head_node_ip s; max_failures := max_failures s;
     max_launch_batch := max_launch_batch s;
     update_interval_s := update_interval_s s; updaters := updaters s;
     num_failed_updates := num_failed_updates s;
     num_successful_updates := num_successful_updates s;
     num_failures := num_failures s; last_update_time := last_update_time s;
     launch_queue := launch_queue s; pending_launches := pending_launches s;
     resource_demand_vector := resource_demand_vector s;
     config_file := config_file s; kv_initialized := kv_initialized s;
     kv := v_kv |}.

(** ** Collaborators

    Functions and constants the source imports from other modules of the
    package and only calls; the control loop is verified for every
    implementation of them. *)
Class Collaborators : Type := {
  (* ray.autoscaler._private.util *)
  hash_launch_conf : Dict -> Dict -> string;
  hash_runtime_conf :
    Dict -> list string -> list Commands -> bool -> string * option string;
  with_head_node_ip : Commands -> IP -> Commands;
  (* ray.autoscaler._private.resource_demand_scheduler *)
  get_bin_pack_residual :
    list ResourceDict -> list ResourceDict ->
    list ResourceDict * list ResourceDict;
  get_nodes_to_launch :
    SchedulerConfig -> list NodeID -> gmap (option NodeType) Z ->
    list ResourceDict -> gmap IP ResourceDict -> list (list ResourceDict) ->
    gmap IP ResourceDict -> list ResourceDict -> list (NodeType * Z);
  debug_string :
    SchedulerConfig -> list NodeID -> gmap (option NodeType) Z ->
    gmap IP ResourceDict -> string;
  (* load_metrics.info_string() *)
  lm_info_string : LoadMetrics -> string;
  (* ray.autoscaler._private.constants *)
  AUTOSCALER_HEARTBEAT_TIMEOUT_S : Z;
}.

(** Modelled from the spec: the two well-known keys of the debug KV sink,
    which the source imports. *)
Definition DEBUG_AUTOSCALING_STATUS : string := "DEBUG_AUTOSCALING_STATUS".
Definition DEBUG_AUTOSCALING_ERROR : string := "DEBUG_AUTOSCALING_ERROR".

(** ** The monad of methods *)

Definition M (A : Type) : Type :=
  StandardAutoscaler -> res A * StandardAutoscaler.

Definition ret {A} (a : A) : M A := fun s => (Ok a, s).

Definition bind {A B} (m : M A) (k : A -> M B) : M B :=
  fun s =>
    match m s with
    | (Ok a, s') => k a s'
    | (Raise e, s') => (Raise e, s')
    | (Diverge, s') => (Diverge, s')
    end.

Definition raise {A} (e : Exn) : M A := fun s => (Raise e, s).
Definition diverge {A} : M A := fun s => (Diverge, s).

(** [self]: the current object. *)
Definition self : M StandardAutoscaler := fun s => (Ok s, s).

(** An attribute assignment. *)
Definition assign (f : StandardAutoscaler -> StandardAutoscaler) : M unit :=
  fun s => (Ok tt, f s).

Declare Scope method_scope.
Delimit Scope method_scope with method.
Notation "x <- m ;; k" := (bind m (fun x => k))
  (at level 100, m at next level, right associativity) : method_scope.
Notation "m ;; k" := (bind m (fun _ => k))
  (at level 100, right associativity) : method_scope.
Open Scope method_scope.

(** [d[key]] on a mapping loaded from YAML: [KeyError] when absent. *)
Definition getitem {A} (key : string) (o : option A) : M A :=
  match o with
  | Some a => ret a
  | None => raise (KeyError key)
  end.

(** Truthiness of the values the source tests. *)
Definition truthy_str (o : option string) : bool :=
  match o with Some s => negb (String.eqb s "") | None => false end.
Definition truthy_bool (o : option bool) : bool :=
  match o with Some b => b | None => false end.
Definition nonempty {A} (l : list A) : bool :=
  match l with [] => false | _ => true end.

(** ** Provider calls *)

Definition log_call (c : ProviderCall) (p : Provider) : Provider :=
  {| p_nodes := p_nodes p; p_tags := p_tags p; p_ip := p_ip p;
     p_calls := c :: p_calls p; p_faults := p_faults p |}.

Definition forget_nodes (ids : list NodeID) (p : Provider) : Provider :=
  {| p_nodes := filter (fun n => n ∉ ids) (p_nodes p);
     p_tags := p_tags p; p_ip := p_ip p;
     p_calls := p_calls p; p_faults := p_faults p |}.

(** A call that reads the provider: logged, then answered or failed. *)
Definition provider_read {A} (c : ProviderCall) (f : Provider -> A) : M A :=
  fun s =>
    let p := provider s in
    match p_faults p !! length (p_calls p) with
    | Some e => (Raise e, set_provider (log_call c p) s)
    | None => (Ok (f p), set_provider (log_call c p) s)
    end.

Definition matches_filters (tag_filters : Tags) (tags : Tags) : bool :=
  forallb (fun kv => bool_decide (tags !! kv.1 = Some kv.2))
          (map_to_list tag_filters).

Definition non_terminated_nodes (tag_filters : Tags) : M (list NodeID) :=
  provider_read (Call_non_terminated_nodes tag_filters)
    (fun p => filter (fun n => matches_filters tag_filters (p_tags p n))
                     (p_nodes p)).

Definition node_tags (node_id : NodeID) : M Tags :=
  provider_read (Call_node_tags node_id) (fun p => p_tags p node_id).

Definition internal_ip (node_id : NodeID) : M IP :=
  provider_read (Call_internal_ip node_id) (fun p => p_ip p node_id).

Definition terminate_nodes (node_ids : list NodeID) : M unit :=
  fun s =>
    let p := provider s in
    match p_faults p !! length (p_calls p) with
    | Some e =>
        (Raise e,
         set_provider (log_call (Call_terminate_nodes node_ids) p) s)
    | None =>
        (Ok tt,
         set_provider
           (forget_nodes node_ids
              (log_call (Call_terminate_nodes node_ids) p)) s)
    end.

(** ** Load metrics calls *)

Definition set_lm_maps (used heartbeat : gmap IP Z)
    (static : gmap IP ResourceDict) (marked : list IP) (lm : LoadMetrics)
  : LoadMetrics :=
  {| local_ip := local_ip lm;
     last_used_time_by_ip := used;
     last_heartbeat_time_by_ip := heartbeat;
     lm_marked_active := marked;
     lm_resource_demand_vector := lm_resource_demand_vector lm;
     lm_resource_utilization := lm_resource_utilization lm;
     lm_pending_placement_groups := lm_pending_placement_groups lm;
     lm_static_node_resources_by_ip := static |}.

Definition keep_ips {V} (active_ips : list IP) (m : gmap IP V) : gmap IP V :=
  filter (fun kv => kv.1 ∈ active_ips) m.

(** Modelled from the spec: [prune_active_ips] prunes what the load metrics
    hold per IP to the IPs it is given. *)
Definition prune_active_ips (active_ips : list IP) : M unit :=
  assign (fun s =>
    let lm := load_metrics s in
    set_load_metrics
      (set_lm_maps (keep_ips active_ips (last_used_time_by_ip lm))
                   (keep_ips active_ips (last_heartbeat_time_by_ip lm))
                   (keep_ips active_ips (lm_static_node_resources_by_ip lm))
                   (lm_marked_active lm) lm) s).

(** Modelled from the spec: [mark_active ip] marks the IP active, which
    gives it a fresh heartbeat so that recovery does not fire on it. *)
Definition mark_active (now : Z) (ip : IP) : M unit :=
  assign (fun s =>
    let lm := load_metrics s in
    set_load_metrics
      (set_lm_maps (last_used_time_by_ip lm)
                   (<[ip := now]> (last_heartbeat_time_by_ip lm))
                   (lm_static_node_resources_by_ip lm)
                   (ip :: lm_marked_active lm) lm) s).

(** [self.load_metrics.last_heartbeat_time_by_ip[key] = now]. *)
Definition set_last_heartbeat (key : IP) (now : Z) : M unit :=
  assign (fun s =>
    let lm := load_metrics s in
    set_load_metrics
      (set_lm_maps (last_used_time_by_ip lm)
                   (<[key := now]> (last_heartbeat_time_by_ip lm))
                   (lm_static_node_resources_by_ip lm)
                   (lm_marked_active lm) lm) s).

(** ** The debug key-value sink *)

Definition _internal_kv_put (key value : string) : M unit :=
  assign (fun s => set_kv (<[key := value]> (kv s)) s).

(** ** Code without effects: the exception monad *)

Definition res_bind {A B} (r : res A) (k : A -> res B) : res B :=
  match r with
  | Ok a => k a
  | Raise e => Raise e
  | Diverge => Diverge
  end.

Declare Scope res_scope.
Delimit Scope res_scope with res.
Notation "x <- m ;; k" := (res_bind m (fun x => k))
  (at level 100, m at next level, right associativity) : res_scope.

Definition item {A} (key : string) (o : option A) : res A :=
  match o with
  | Some a => Ok a
  | None => Raise (KeyError key)
  end.

Definition lift {A} (r : res A) : M A := fun s => (r, s).

Definition newline : string := String (Ascii.ascii_of_nat 10) EmptyString.

(** [str(e)]. *)
Definition str (e : Exn) : string :=
  match e with
  | KeyError k => "'" +:+ k +:+ "'"
  | ValueError m => m
  | IndexError => "list index out of range"
  | MaxRetryError => "Max retries exceeded"
  | OtherException m => m
  end.

(** [min(d.values())]. *)
Definition min_values (d : gmap IP Z) : option Z :=
  match (map_to_list d).*2 with
  | [] => None
  | v :: vs => Some (foldr Z.min v vs)
  end.

(** [sorted(nodes, key=..., reverse=True)] on the nodes paired with their
    keys: a stable sort, which keeps nodes of equal key in their order. *)
Fixpoint insert_by_key (x : Z * NodeID) (l : list (Z * NodeID))
  : list (Z * NodeID) :=
  match l with
  | [] => [x]
  | y :: l' => if y.1 <=? x.1 then x :: y :: l' else y :: insert_by_key x l'
  end.

Definition sorted_reverse (keyed : list (Z * NodeID)) : list NodeID :=
  (foldr insert_by_key [] keyed).*2.

(** [nodes.pop()]: the list without its last item, and the item. *)
Fixpoint pop {A} (l : list A) : option (list A * A) :=
  match l with
  | [] => None
  | [x] => Some ([], x)
  | x :: l' =>
      match pop l' with
      | Some (init, last) => Some (x :: init, last)
      | None => None
      end
  end.

(** The loop of step 3:
    [while (len(nodes) - len(nodes_to_terminate)) > max_workers and nodes].
    It pops one node per round, so [length nodes] rounds of fuel are
    enough; [None] is the loop out of fuel. *)
Fixpoint terminate_unneeded (fuel : nat) (max_workers : Z)
    (nodes nodes_to_terminate : list NodeID)
  : option (list NodeID * list NodeID) :=
  if (Z.of_nat (length nodes) - Z.of_nat (length nodes_to_terminate)
        >? max_workers) && nonempty nodes
  then
    match fuel with
    | O => None
    | S fuel' =>
        match pop nodes with
        | Some (nodes', to_terminate) =>
            terminate_unneeded fuel' max_workers nodes'
              (nodes_to_terminate ++ [to_terminate])
        | None => None
        end
    end
  else Some (nodes, nodes_to_terminate).

(** The loop of [launch_new_node]:
    [while count > 0: put((config, min(count, max_launch_batch), node_type));
     count -= max_launch_batch]. *)
Fixpoint launch_requests (fuel : nat) (cfg : Config) (max_launch_batch : Z)
    (node_type : option NodeType) (count : Z) : option (list LaunchRequest) :=
  if count >? 0 then
    match fuel with
    | O => None
    | S fuel' =>
        match launch_requests fuel' cfg max_launch_batch node_type
                (count - max_launch_batch) with
        | Some reqs =>
            Some ({| lr_config := cfg;
                     lr_count := Z.min count max_launch_batch;
                     lr_node_type := node_type |} :: reqs)
        | None => None
        end
    end
  else Some [].

(** The precedence of [reset] for the upscaling speed.  The numbers of
    the config are rationals and the arithmetic is exact, where the source
    computes in floating point. *)
Definition truthy_Q (o : option Q) : bool :=
  match o with Some q => negb (Qeq_bool q 0) | None => false end.

Definition upscaling_speed_of (cfg : Config) : Q :=
  let upscaling_speed := c_upscaling_speed cfg in
  let aggressive :=
    bool_decide (c_autoscaling_mode cfg = Some "aggressive") in
  let target_utilization_fraction := c_target_utilization_fraction cfg in
  if truthy_Q upscaling_speed then default 0%Q upscaling_speed
  else if aggressive then 99999%Q
  else if truthy_Q target_utilization_fraction then
    (1 / Qmax (default 0 target_utilization_fraction) (1 # 1000) - 1)%Q
  else 1%Q.

(** [NodeUpdaterThread(...)]: a handle that has not run yet.  Its exit code
    is 0 only once the update has succeeded. *)
Definition NodeUpdaterThread (node_id : NodeID)
    (provider_config auth_config : Dict) (cluster_name : string)
    (file_mounts : Dict)
    (initialization_commands setup_commands ray_start_commands : Commands)
    (runtime_hash : string) (file_mounts_contents_hash : option string)
    (is_head_node : bool) (cluster_synced_files : list string)
    (rsync_options : option (list string) * option (list string))
    (use_internal_ip : bool) (docker_config : option Dict)
    (node_resources : ResourceDict) : NodeUpdater :=
  {| u_node_id := node_id; u_provider_config := provider_config;
     u_auth_config := auth_config; u_cluster_name := cluster_name;
     u_file_mounts := file_mounts;
     u_initialization_commands := initialization_commands;
     u_setup_commands := setup_commands;
     u_ray_start_commands := ray_start_commands;
     u_runtime_hash := runtime_hash;
     u_file_mounts_contents_hash := file_mounts_contents_hash;
     u_is_head_node := is_head_node;
     u_cluster_synced_files := cluster_synced_files;
     u_rsync_options := rsync_options;
     u_use_internal_ip := use_internal_ip;
     u_docker_config := docker_config;
     u_node_resources := node_resources;
     u_alive := false; u_exitcode := -1 |}.

(** ** The methods of [StandardAutoscaler] *)

Section methods.
Context `{Collaborators}.

Definition workers : M (list NodeID) :=
  non_terminated_nodes {[TAG_RAY_NODE_KIND := NODE_KIND_WORKER]}.

Definition unmanaged_workers : M (list NodeID) :=
  non_terminated_nodes {[TAG_RAY_NODE_KIND := NODE_KIND_UNMANAGED]}.

Definition all_workers : M (list NodeID) :=
  w <- workers ;;
  u <- unmanaged_workers ;;
  ret (w ++ u).

(** *** Node-tag predicates *)

(** [calculated_launch_hash] of [launch_config_ok], for a node with the
    given tags. *)
Definition calculated_launch_hash (cfg : Config) (node_tags : Tags)
  : res string :=
  (let node_type := node_tags !! TAG_RAY_USER_NODE_TYPE in
   launch_config <- item "worker_nodes" (c_worker_nodes cfg) ;;
   launch_config <-
     (if truthy_str node_type then
        let node_type := default ""%string node_type in
        types <- item "available_node_types" (c_available_node_types cfg) ;;
        node_type_config <- item node_type (types !! node_type) ;;
        node_config <- item "node_config" (nt_node_config node_type_config) ;;
        (* launch_config.update(node_config) *)
        Ok (node_config ∪ launch_config)
      else Ok launch_config) ;;
   auth <- item "auth" (c_auth cfg) ;;
   Ok (hash_launch_conf launch_config auth))%res.

Definition launch_config_ok (node_id : NodeID) : M bool :=
  node_tags <- node_tags node_id ;;
  let tag_launch_conf := node_tags !! TAG_RAY_LAUNCH_CONFIG in
  s <- self ;;
  calculated_launch_hash <-
    lift (calculated_launch_hash (config s) node_tags) ;;
  if bool_decide (Some calculated_launch_hash ≠ tag_launch_conf)
  then ret false
  else ret true.

Definition files_up_to_date (node_id : NodeID) : M bool :=
  node_tags <- node_tags node_id ;;
  let applied_config_hash := node_tags !! TAG_RAY_RUNTIME_CONFIG in
  let applied_file_mounts_contents_hash :=
    node_tags !! TAG_RAY_FILE_MOUNTS_CONTENTS in
  s <- self ;;
  if bool_decide (applied_config_hash ≠ Some (runtime_hash s))
     || (bool_decide (file_mounts_contents_hash s ≠ None)
         && bool_decide (file_mounts_contents_hash s
                         ≠ applied_file_mounts_contents_hash))
  then ret false
  else ret true.

Definition can_update (node_id : NodeID) : M bool :=
  s <- self ;;
  if PyDict.contains (updaters s) node_id then ret false else
  ok <- launch_config_ok node_id ;;
  if negb ok then ret false else
  s <- self ;;
  if bool_decide (default 0 (num_failed_updates s !! node_id) > 0)
  then ret false
  else ret true.

(** [fields_key] names one field of the config and the field of the same
    name of a node type; the two projections stand for that name. *)
Definition _get_node_type_specific_fields {A} (node_id : NodeID)
    (fields_key : string) (of_config : Config -> option A)
    (of_node_type : NodeTypeConfig -> option A) : M A :=
  s <- self ;;
  fields <- getitem fields_key (of_config (config s)) ;;
  node_tags <- node_tags node_id ;;
  match node_tags !! TAG_RAY_USER_NODE_TYPE with
  | Some node_type =>
      s <- self ;;
      match available_node_types s !! node_type with
      | None =>
          raise (ValueError ("Unknown node type tag: " +:+ node_type +:+ "."))
      | Some node_specific_config =>
          match of_node_type node_specific_config with
          | Some node_fields => ret node_fields
          | None => ret fields
          end
      end
  | None => ret fields
  end.

Definition _get_node_specific_docker_config (node_id : NodeID) : M Dict :=
  s <- self ;;
  match c_docker (config s) with
  | None => ret ∅
  | Some docker_config =>
      node_specific_docker <-
        _get_node_type_specific_fields node_id "docker" c_docker nt_docker ;;
      (* docker_config.update(node_specific_docker) *)
      ret (node_specific_docker ∪ docker_config)
  end.

Definition _node_resources (node_id : NodeID) : M ResourceDict :=
  tags <- node_tags node_id ;;
  let node_type := tags !! TAG_RAY_USER_NODE_TYPE in
  s <- self ;;
  if bool_decide (available_node_types s ≠ ∅) then
    (* self.available_node_types.get(node_type, {}).get("resources", {}) *)
    match node_type with
    | Some node_type =>
        match available_node_types s !! node_type with
        | Some node_type_config =>
            ret (default ∅ (nt_resources node_type_config))
        | None => ret ∅
        end
    | None => ret ∅
    end
  else ret ∅.

(** *** The should-update decision *)

Definition should_update (node_id : NodeID) : M UpdateInstructions :=
  ok <- can_update node_id ;;
  if negb ok then ret no_update else
  tags <- node_tags node_id ;;
  let status := tags !! TAG_RAY_NODE_STATUS in
  up_to_date <-
    (if bool_decide (status = Some STATUS_UP_TO_DATE)
     then files_up_to_date node_id else ret false) ;;
  if up_to_date then ret no_update else
  s <- self ;;
  let successful_updated :=
    bool_decide (default 0 (num_successful_updates s !! node_id) > 0) in
  commands <-
    (if successful_updated && truthy_bool (c_restart_only (config s)) then
       ray_commands <- getitem "worker_start_ray_commands"
                         (c_worker_start_ray_commands (config s)) ;;
       ret ([], ray_commands)
     else if successful_updated && truthy_bool (c_no_restart (config s)) then
       init_commands <- _get_node_type_specific_fields node_id
                          "worker_setup_commands" c_worker_setup_commands
                          nt_worker_setup_commands ;;
       ret (init_commands, [])
     else
       init_commands <- _get_node_type_specific_fields node_id
                          "worker_setup_commands" c_worker_setup_commands
                          nt_worker_setup_commands ;;
       s <- self ;;
       ray_commands <- getitem "worker_start_ray_commands"
                         (c_worker_start_ray_commands (config s)) ;;
       ret (init_commands, ray_commands)) ;;
  let '(init_commands, ray_commands) := commands in
  docker_config <- _get_node_specific_docker_config node_id ;;
  ret {| ui_node_id := Some node_id;
         ui_init_commands := Some init_commands;
         ui_start_ray_commands := Some ray_commands;
         ui_docker_config := Some docker_config |}.

(** *** Starting updaters *)

(** Iterating over a value that may be [None], as [with_head_node_ip]
    does with the commands it is given. *)
Definition iter_commands (cmds : option Commands) : M Commands :=
  match cmds with
  | Some l => ret l
  | None => raise (OtherException "'NoneType' object is not iterable")
  end.

(** [self.updaters[node_id] = updater]. *)
Definition register_updater (node_id : NodeID) (updater : NodeUpdater)
  : M unit :=
  assign (fun s => set_updaters (PyDict.set node_id updater (updaters s)) s).

Definition spawn_updater (node_id : NodeID)
    (init_commands ray_start_commands : option Commands)
    (node_resources : ResourceDict) (docker_config : option Dict) : M unit :=
  s <- self ;;
  provider_config <- getitem "provider" (c_provider (config s)) ;;
  auth_config <- getitem "auth" (c_auth (config s)) ;;
  cluster_name <- getitem "cluster_name" (c_cluster_name (config s)) ;;
  file_mounts <- getitem "file_mounts" (c_file_mounts (config s)) ;;
  initialization_commands <-
    _get_node_type_specific_fields node_id "initialization_commands"
      c_initialization_commands nt_initialization_commands ;;
  init_commands <- iter_commands init_commands ;;
  ray_start_commands <- iter_commands ray_start_commands ;;
  s <- self ;;
  cluster_synced_files <-
    getitem "cluster_synced_files" (c_cluster_synced_files (config s)) ;;
  let updater :=
    NodeUpdaterThread node_id provider_config auth_config cluster_name
      file_mounts
      (with_head_node_ip initialization_commands (head_node_ip s))
      (with_head_node_ip init_commands (head_node_ip s))
      (with_head_node_ip ray_start_commands (head_node_ip s))
      (runtime_hash s) (file_mounts_contents_hash s) false
      cluster_synced_files
      (c_rsync_exclude (config s), c_rsync_filter (config s))
      true docker_config node_resources in
  register_updater node_id (start updater).

(** *** Recovery *)

Definition recover_if_needed (node_id : NodeID) (now : Z) : M unit :=
  ok <- can_update node_id ;;
  if negb ok then ret tt else
  key <- internal_ip node_id ;;
  s <- self ;;
  (if bool_decide (last_heartbeat_time_by_ip (load_metrics s) !! key = None)
   then set_last_heartbeat key now else ret tt) ;;
  s <- self ;;
  last_heartbeat_time <-
    getitem key (last_heartbeat_time_by_ip (load_metrics s) !! key) ;;
  let delta := now - last_heartbeat_time in
  if delta <? AUTOSCALER_HEARTBEAT_TIMEOUT_S then ret tt else
  provider_config <- getitem "provider" (c_provider (config s)) ;;
  auth_config <- getitem "auth" (c_auth (config s)) ;;
  cluster_name <- getitem "cluster_name" (c_cluster_name (config s)) ;;
  ray_start_commands <- getitem "worker_start_ray_commands"
                          (c_worker_start_ray_commands (config s)) ;;
  node_resources <- _node_resources node_id ;;
  let updater :=
    NodeUpdaterThread node_id provider_config auth_config cluster_name
      ∅ [] []
      (with_head_node_ip ray_start_commands (head_node_ip s))
      (runtime_hash s) (file_mounts_contents_hash s) false
      [] (None, None)
      true (c_docker (config s)) node_resources in
  register_updater node_id (start updater).

(** *** Launching *)

Definition launch_new_node (count : Z) (node_type : option NodeType)
  : M unit :=
  (* self.pending_launches.inc(node_type, count) *)
  assign (fun s =>
    set_pending_launches
      (<[node_type := default 0 (pending_launches s !! node_type) + count]>
         (pending_launches s)) s) ;;
  s <- self ;;
  match launch_requests (Z.to_nat count) (config s) (max_launch_batch s)
          node_type count with
  | Some requests =>
      assign (fun s => set_launch_queue (launch_queue s ++ requests) s)
  | None => diverge
  end.

(** *** Status *)

Definition info_string (nodes : list NodeID) : M string :=
  s <- self ;;
  let suffix :=
    ((if nonempty (updaters s)
      then " (" +:+ pretty (length (updaters s)) +:+ " updating)" else "")
     +:+
     (if bool_decide (num_failed_updates s ≠ ∅)
      then " (" +:+ pretty (size (num_failed_updates s))
             +:+ " failed to update)" else ""))%string in
  ret (pretty (length nodes) +:+ " nodes" +:+ suffix).

Definition log_info_string (nodes : list NodeID) : M unit :=
  info <- info_string nodes ;;
  s <- self ;;
  let tmp :=
    ("Cluster status: " +:+ info +:+ newline
     +:+ lm_info_string (load_metrics s) +:+ newline
     +:+ debug_string (resource_demand_scheduler s) nodes
           (pending_launches s)
           (lm_resource_utilization (load_metrics s)))%string in
  if kv_initialized s
  then _internal_kv_put DEBUG_AUTOSCALING_STATUS tmp
  else ret tt.

(** *** Loops *)

(** [for x in l: body(x)]. *)
Fixpoint for_each {A} (l : list A) (body : A -> M unit) : M unit :=
  match l with
  | [] => ret tt
  | x :: l' => body x ;; for_each l' body
  end.

(** [[f(x) for x in l]]. *)
Fixpoint for_list {A B} (l : list A) (f : A -> M B) : M (list B) :=
  match l with
  | [] => ret []
  | x :: l' => y <- f x ;; ys <- for_list l' f ;; ret (y :: ys)
  end.

(** [for x in l: ...], the loop body updating the local variables [b]. *)
Fixpoint for_fold {A B} (l : list A) (b : B) (body : B -> A -> M B) : M B :=
  match l with
  | [] => ret b
  | x :: l' => b' <- body b x ;; for_fold l' b' body
  end.

(** [l[i]]. *)
Definition index {A} (l : list A) (i : nat) : M A :=
  match l !! i with
  | Some a => ret a
  | None => raise IndexError
  end.

(** *** Ordering and protection of the workers *)

Definition _sort_based_on_last_used (nodes : list NodeID)
    (last_used : gmap IP Z) : M (list NodeID) :=
  let updated_last_used := last_used in
  least_recently_used <-
    match min_values last_used with
    | Some m => ret m
    | None => raise (ValueError "min() arg is an empty sequence")
    end ;;
  updated_last_used <-
    for_fold nodes updated_last_used (fun updated_last_used node_id =>
      node_ip <- internal_ip node_id ;;
      if bool_decide (updated_last_used !! node_ip = None)
      then ret (<[node_ip := least_recently_used - 1]> updated_last_used)
      else ret updated_last_used) ;;
  let last_time_used (node_id : NodeID) : M Z :=
    node_ip <- internal_ip node_id ;;
    getitem node_ip (updated_last_used !! node_ip) in
  keys <- for_list nodes last_time_used ;;
  ret (sorted_reverse (zip keys nodes)).

(** The body of the first loop of [_get_nodes_allowed_to_terminate], "Get
    max resources on all the non terminated nodes"; [acc] is
    [(max_node_resources, resource_demand_vector_node_ids)]. *)
Definition collect_max_node_resources
    (acc : list ResourceDict * list NodeID) (node_id : NodeID)
  : M (list ResourceDict * list NodeID) :=
  let '(max_node_resources, resource_demand_vector_node_ids) := acc in
  tags <- node_tags node_id ;;
  match tags !! TAG_RAY_USER_NODE_TYPE with
  | Some node_type =>
      s <- self ;;
      node_type_config <-
        getitem node_type (available_node_types s !! node_type) ;;
      resources <- getitem "resources" (nt_resources node_type_config) ;;
      ret (max_node_resources ++ [resources],
           resource_demand_vector_node_ids ++ [node_id])
  | None => ret acc
  end.

(** The body of its second loop, over
    [enumerate(resource_demand_vector_node_ids)]. *)
Definition decide_allowed_to_terminate
    (unfulfilled_resource_requests used_resource_requests
       max_node_resources : list ResourceDict)
    (nodes_allowed_to_terminate : gmap NodeID bool) (entry : nat * NodeID)
  : M (gmap NodeID bool) :=
  let '(i, node_id) := entry in
  if nonempty unfulfilled_resource_requests then
    ret (<[node_id := false]> nodes_allowed_to_terminate)
  else
    used <- index used_resource_requests i ;;
    max <- index max_node_resources i ;;
    if bool_decide (used ≠ max)
    then ret (<[node_id := false]> nodes_allowed_to_terminate)
    else ret (<[node_id := true]> nodes_allowed_to_terminate).

Definition _get_nodes_allowed_to_terminate (sorted_node_ids : list NodeID)
  : M (gmap NodeID bool) :=
  typed <- for_fold sorted_node_ids ([], []) collect_max_node_resources ;;
  let '(max_node_resources, resource_demand_vector_node_ids) := typed in
  s <- self ;;
  (* Since it is sorted based on last used, we "keep" nodes that are
     most recently used when we binpack. *)
  let '(unfulfilled_resource_requests, used_resource_requests) :=
    get_bin_pack_residual max_node_resources (resource_demand_vector s) in
  for_fold
    (zip (seq 0 (length resource_demand_vector_node_ids))
         resource_demand_vector_node_ids)
    (∅ : gmap NodeID bool)
    (decide_allowed_to_terminate unfulfilled_resource_requests
       used_resource_requests max_node_resources).

(** [node_type_counts] is updated by reference in the source; here the
    updated counters are returned with the answer. *)
Definition _keep_min_worker_of_node_type (node_id : NodeID)
    (node_type_counts : gmap NodeType Z) : M (bool * gmap NodeType Z) :=
  tags <- node_tags node_id ;;
  match tags !! TAG_RAY_USER_NODE_TYPE with
  | Some node_type =>
      let node_type_counts :=
        <[node_type := default 0 (node_type_counts !! node_type) + 1]>
          node_type_counts in
      s <- self ;;
      node_type_config <-
        getitem node_type (available_node_types s !! node_type) ;;
      let min_workers := default 0 (nt_min_workers node_type_config) in
      let max_workers := default 0 (nt_max_workers node_type_config) in
      if default 0 (node_type_counts !! node_type)
           <=? Z.min min_workers max_workers
      then ret (true, node_type_counts)
      else ret (false, node_type_counts)
  | None => ret (false, node_type_counts)
  end.

(** *** The steps of the tick *)

(** Step 2, the walk [for node_id in sorted_node_ids] over the workers,
    most recently used first; it returns [nodes_to_terminate]. *)
Fixpoint terminate_idle_or_outdated (sorted_node_ids : list NodeID)
    (last_used : gmap IP Z) (horizon : Z)
    (nodes_allowed_to_terminate : gmap NodeID bool)
    (node_type_counts : gmap NodeType Z) (nodes_to_terminate : list NodeID)
  : M (list NodeID) :=
  match sorted_node_ids with
  | [] => ret nodes_to_terminate
  | node_id :: rest =>
      kept <- _keep_min_worker_of_node_type node_id node_type_counts ;;
      let '(keep_min, node_type_counts) := kept in
      skip <-
        (if keep_min
            || negb (default true (nodes_allowed_to_terminate !! node_id))
         then launch_config_ok node_id
         else ret false) ;;
      if skip then
        terminate_idle_or_outdated rest last_used horizon
          nodes_allowed_to_terminate node_type_counts nodes_to_terminate
      else
        node_ip <- internal_ip node_id ;;
        if match last_used !! node_ip with
           | Some t => t <? horizon
           | None => false
           end
        then
          terminate_idle_or_outdated rest last_used horizon
            nodes_allowed_to_terminate node_type_counts
            (nodes_to_terminate ++ [node_id])
        else
          ok <- launch_config_ok node_id ;;
          if negb ok then
            terminate_idle_or_outdated rest last_used horizon
              nodes_allowed_to_terminate node_type_counts
              (nodes_to_terminate ++ [node_id])
          else
            terminate_idle_or_outdated rest last_used horizon
              nodes_allowed_to_terminate node_type_counts nodes_to_terminate
  end.

(** Step 3, "Terminate nodes if there are too many"; it returns what the
    loop leaves of [nodes], and [nodes_to_terminate]. *)
Definition terminate_too_many (nodes : list NodeID)
  : M (list NodeID * list NodeID) :=
  s <- self ;;
  max_workers <- getitem "max_workers" (c_max_workers (config s)) ;;
  match terminate_unneeded (length nodes) max_workers nodes [] with
  | Some r => ret r
  | None => diverge
  end.

(** Step 5, "Process any completed updates". *)
Definition process_completed_updates (now : Z) (nodes : list NodeID)
  : M (list NodeID) :=
  s <- self ;;
  let completed :=
    (filter (fun entry => negb (is_alive entry.2)) (updaters s)).*1 in
  match last completed with
  | Some last_node_id =>
      for_each completed (fun node_id =>
        s <- self ;;
        updater <- getitem node_id (PyDict.get (updaters s) node_id) ;;
        (if bool_decide (exitcode updater = 0) then
           assign (fun s =>
             set_num_successful_updates
               (<[node_id :=
                    default 0 (num_successful_updates s !! node_id) + 1]>
                  (num_successful_updates s)) s)
         else
           assign (fun s =>
             set_num_failed_updates
               (<[node_id :=
                    default 0 (num_failed_updates s !! node_id) + 1]>
                  (num_failed_updates s)) s)) ;;
        assign (fun s => set_updaters (PyDict.del node_id (updaters s)) s)) ;;
      (* after the loop, [node_id] is the last item of [completed] *)
      ip <- internal_ip last_node_id ;;
      mark_active now ip ;;
      nodes <- workers ;;
      log_info_string nodes ;;
      ret nodes
  | None => ret nodes
  end.

(** The arguments of a thread that is to run [spawn_updater]. *)
Record SpawnArgs : Type := {
  sa_node_id : NodeID;
  sa_commands : option Commands;
  sa_ray_start : option Commands;
  sa_resources : ResourceDict;
  sa_docker_config : option Dict;
}.

(** A thread that runs [m] and is joined: an exception ends the thread and
    does not reach the tick. *)
Definition run_thread (m : M unit) : M unit :=
  fun s =>
    match m s with
    | (Ok _, s') => (Ok tt, s')
    | (Raise _, s') => (Ok tt, s')
    | (Diverge, s') => (Diverge, s')
    end.

(** Step 6, "Update nodes with out-of-date files": every [should_update]
    is evaluated before any thread starts; the threads are run here in the
    order of [T]. *)
Definition update_out_of_date_nodes (nodes : list NodeID) : M unit :=
  T <- for_fold nodes [] (fun T node_id =>
         instructions <- should_update node_id ;;
         match ui_node_id instructions with
         | Some node_id =>
             resources <- _node_resources node_id ;;
             ret (T ++
                  [ {| sa_node_id := node_id;
                       sa_commands := ui_init_commands instructions;
                       sa_ray_start := ui_start_ray_commands instructions;
                       sa_resources := resources;
                       sa_docker_config := ui_docker_config instructions |} ])
         | None => ret T
         end) ;;
  for_each T (fun t =>
    run_thread (spawn_updater (sa_node_id t) (sa_commands t)
                  (sa_ray_start t) (sa_resources t) (sa_docker_config t))).

(** *** The tick body *)

(** [_update] from [nodes = self.workers()] on: what runs once the
    throttle has let the tick through. *)
Definition reconcile (now : Z) : M unit :=
  nodes <- workers ;;
  active <- all_workers ;;
  active_ips <- for_list active internal_ip ;;
  prune_active_ips active_ips ;;
  log_info_string nodes ;;
  (* Terminate any idle or out of date nodes *)
  s <- self ;;
  let last_used := last_used_time_by_ip (load_metrics s) in
  idle_timeout_minutes <-
    getitem "idle_timeout_minutes" (c_idle_timeout_minutes (config s)) ;;
  let horizon := now - 60 * idle_timeout_minutes in
  sorted_node_ids <- _sort_based_on_last_used nodes last_used ;;
  s <- self ;;
  nodes_allowed_to_terminate <-
    (if nonempty (resource_demand_vector s)
     then _get_nodes_allowed_to_terminate sorted_node_ids
     else ret ∅) ;;
  nodes_to_terminate <-
    terminate_idle_or_outdated sorted_node_ids last_used horizon
      nodes_allowed_to_terminate ∅ [] ;;
  nodes <-
    (if nonempty nodes_to_terminate then
       terminate_nodes nodes_to_terminate ;;
       nodes <- workers ;;
       log_info_string nodes ;;
       ret nodes
     else ret nodes) ;;
  (* Terminate nodes if there are too many *)
  popped <- terminate_too_many nodes ;;
  let '(nodes, nodes_to_terminate) := popped in
  nodes <-
    (if nonempty nodes_to_terminate then
       terminate_nodes nodes_to_terminate ;;
       nodes <- workers ;;
       log_info_string nodes ;;
       ret nodes
     else ret nodes) ;;
  all_nodes <- non_terminated_nodes ∅ ;;
  s <- self ;;
  let to_launch :=
    get_nodes_to_launch (resource_demand_scheduler s) all_nodes
      (pending_launches s)
      (lm_resource_demand_vector (load_metrics s))
      (lm_resource_utilization (load_metrics s))
      (lm_pending_placement_groups (load_metrics s))
      (lm_static_node_resources_by_ip (load_metrics s))
      (resource_demand_vector s) in
  for_each to_launch (fun entry : NodeType * Z =>
    launch_new_node entry.2 (Some entry.1)) ;;
  nodes <- workers ;;
  (* Process any completed updates *)
  nodes <- process_completed_updates now nodes ;;
  (* Update nodes with out-of-date files *)
  update_out_of_date_nodes nodes ;;
  (* Attempt to recover unhealthy nodes *)
  for_each nodes (fun node_id => recover_if_needed node_id now).

Definition _update (now : Z) : M unit :=
  s <- self ;;
  (* Throttle autoscaling updates to this interval to avoid exceeding
     rate limits on API calls. *)
  if now - last_update_time s <? update_interval_s s then ret tt else
  assign (set_last_update_time now) ;;
  reconcile now.

(** *** The config refresher *)

(** The body of the [try] of [reset].  [validate_config] only logs; the
    provider exists from the constructor on and is not rebuilt; resetting
    the scheduler's config and constructing the scheduler give it the same
    config. *)
Definition reset_body (sync_continuously : bool) : M unit :=
  s <- self ;;
  new_config <-
    match config_file s with
    | inl e => raise e
    | inr new_config => ret new_config
    end ;;
  file_mounts <- getitem "file_mounts" (c_file_mounts new_config) ;;
  cluster_synced_files <-
    getitem "cluster_synced_files" (c_cluster_synced_files new_config) ;;
  worker_setup_commands <-
    getitem "worker_setup_commands" (c_worker_setup_commands new_config) ;;
  worker_start_ray_commands <-
    getitem "worker_start_ray_commands"
      (c_worker_start_ray_commands new_config) ;;
  let hashes :=
    hash_runtime_conf file_mounts cluster_synced_files
      [worker_setup_commands; worker_start_ray_commands]
      sync_continuously in
  assign (set_config_and_hashes new_config hashes.1 hashes.2) ;;
  node_types <-
    getitem "available_node_types" (c_available_node_types new_config) ;;
  assign (set_available_node_types node_types) ;;
  let upscaling_speed := upscaling_speed_of new_config in
  max_workers <- getitem "max_workers" (c_max_workers new_config) ;;
  assign (set_resource_demand_scheduler
            {| sc_node_types := node_types;
               sc_max_workers := max_workers;
               sc_upscaling_speed := upscaling_speed |}).

Definition reset (errors_fatal : bool) : M unit :=
  fun s =>
    let sync_continuously :=
      truthy_bool (c_file_mounts_sync_continuously (config s)) in
    match reset_body sync_continuously s with
    | (Raise e, s') => if errors_fatal then (Raise e, s') else (Ok tt, s')
    | outcome => outcome
    end.

(** *** The public control API *)

(** The [except Exception as e] clause of [update]. *)
Definition on_tick_exception (e : Exn) : M unit :=
  s <- self ;;
  (if kv_initialized s
   then _internal_kv_put DEBUG_AUTOSCALING_ERROR (str e)
   else ret tt) ;;
  s <- self ;;
  provider_config <- getitem "provider" (c_provider (config s)) ;;
  provider_type <- getitem "type" (provider_config !! "type"%string) ;;
  let is_k8s_connection_error :=
    bool_decide (provider_type = "kubernetes"%string)
    && isinstance_MaxRetryError e in
  (if negb is_k8s_connection_error
   then assign (fun s => set_num_failures (num_failures s + 1) s)
   else ret tt) ;;
  s <- self ;;
  if num_failures s >? max_failures s then raise e else ret tt.

(** The [try] block of [update]. *)
Definition tick (now : Z) : M unit :=
  reset false ;;
  _update now.

Definition update (now : Z) : M unit :=
  fun s =>
    match tick now s with
    | (Raise e, s') => on_tick_exception e s'
    | outcome => outcome
    end.

Definition request_resources (resources : list ResourceDict) : M unit :=
  assign (set_resource_demand_vector resources).

Definition kill_workers : M unit :=
  nodes <- workers ;;
  if nonempty nodes then terminate_nodes nodes else ret tt.

End methods.

(** ** The constructor

    What [__init__] takes from outside the module: the provider factory of
    [ray.autoscaler._private.providers], which can refuse a provider
    config, and [os.path]. *)
Class Environment : Type := {
  _get_node_provider : Dict -> string -> res Provider;
  expanduser : string -> string;         (* os.path.expanduser *)
  path_exists : string -> bool;          (* os.path.exists *)
}.

(** [math.ceil(a / float(b))] for [b] other than 0, the integers being of
    a size that a float holds exactly. *)
Definition ceil_div (a b : Z) : Z := - ((- a) / b).

(** [config["file_mounts"] = file_mounts]. *)
Definition set_file_mounts (file_mounts : Dict) (cfg : Config) : Config :=
  {| c_provider := c_provider cfg;
     c_cluster_name := c_cluster_name cfg;
     c_auth := c_auth cfg;
     c_max_workers := c_max_workers cfg;
     c_idle_timeout_minutes := c_idle_timeout_minutes cfg;
     c_worker_nodes := c_worker_nodes cfg;
     c_available_node_types := c_available_node_types cfg;
     c_file_mounts := Some file_mounts;
     c_cluster_synced_files := c_cluster_synced_files cfg;
     c_initialization_commands := c_initialization_commands cfg;
     c_worker_setup_commands := c_worker_setup_commands cfg;
     c_worker_start_ray_commands := c_worker_start_ray_commands cfg;
     c_docker := c_docker cfg;
     c_restart_only := c_restart_only cfg;
     c_no_restart := c_no_restart cfg;
     c_file_mounts_sync_continuously := c_file_mounts_sync_continuously cfg;
     c_upscaling_speed := c_upscaling_speed cfg;
     c_autoscaling_mode := c_autoscaling_mode cfg;
     c_target_utilization_fraction := c_target_utilization_fraction cfg;
     c_rsync_exclude := c_rsync_exclude cfg;
     c_rsync_filter := c_rsync_filter cfg |}.

Section constructor.
Context `{Collaborators} `{Environment}.

(** [StandardAutoscaler(config_path, load_metrics, ...)].  [config_file] is
    what reading the file at [config_path] gives; [kv_initialized] and
    [kv] are the state of the internal key-value store.  The result is
    the object and the number of [NodeLauncher] threads started.  The
    [reset] of the constructor runs on an object that has no [config], no
    provider and no scheduler yet, with [errors_fatal=True]. *)
Definition __init__ (config_file : Exn + Config) (load_metrics : LoadMetrics)
    (max_launch_batch max_concurrent_launches max_failures
       update_interval_s : Z)
    (kv_initialized : bool) (kv : gmap string string)
  : res (StandardAutoscaler * nat) :=
  ((* self.reset(errors_fatal=True) *)
   let sync_continuously := false in
   new_config <-
     match config_file with
     | inl e => Raise e
     | inr new_config => Ok new_config
     end ;;
   file_mounts <- item "file_mounts" (c_file_mounts new_config) ;;
   cluster_synced_files <-
     item "cluster_synced_files" (c_cluster_synced_files new_config) ;;
   worker_setup_commands <-
     item "worker_setup_commands" (c_worker_setup_commands new_config) ;;
   worker_start_ray_commands <-
     item "worker_start_ray_commands"
       (c_worker_start_ray_commands new_config) ;;
   let hashes :=
     hash_runtime_conf file_mounts cluster_synced_files
       [worker_setup_commands; worker_start_ray_commands]
       sync_continuously in
   provider_config <- item "provider" (c_provider new_config) ;;
   cluster_name <- item "cluster_name" (c_cluster_name new_config) ;;
   provider <- _get_node_provider provider_config cluster_name ;;
   node_types <-
     item "available_node_types" (c_available_node_types new_config) ;;
   let upscaling_speed := upscaling_speed_of new_config in
   max_workers <- item "max_workers" (c_max_workers new_config) ;;
   (* Node launchers *)
   max_batches <-
     (if bool_decide (max_launch_batch = 0)
      then Raise (OtherException "float division by zero")
      else Ok (ceil_div max_concurrent_launches max_launch_batch)) ;;
   let node_launchers := Z.to_nat max_batches in
   (* Expand local file_mounts to allow ~ in the paths. *)
   let file_mounts := expanduser <$> file_mounts in
   if forallb path_exists (map_to_list file_mounts).*2 then
     Ok ({| config := set_file_mounts file_mounts new_config;
            runtime_hash := hashes.1;
            file_mounts_contents_hash := hashes.2;
            available_node_types := node_types;
            resource_demand_scheduler :=
              {| sc_node_types := node_types;
                 sc_max_workers := max_workers;
                 sc_upscaling_speed := upscaling_speed |};
            provider := provider;
            load_metrics := load_metrics;
            head_node_ip := local_ip load_metrics;
            max_failures := max_failures;
            max_launch_batch := max_launch_batch;
            update_interval_s := update_interval_s;
            updaters := [];
            num_failed_updates := ∅;
            num_successful_updates := ∅;
            num_failures := 0;
            last_update_time := 0;
            launch_queue := [];
            pending_launches := ∅;
            resource_demand_vector := [];
            config_file := config_file;
            kv_initialized := kv_initialized;
            kv := kv |},
         node_launchers)
   else Raise (OtherException "") (* AssertionError *))%res.

(** The [reset] of the constructor goes through for the config [cfg] of
    the file: the keys it subscripts are there, [file_mounts] being [fm],
    and the provider factory returns a provider. *)
Definition first_reset_ok (cfg : Config) (fm : Dict) : Prop :=
  c_file_mounts cfg = Some fm
  /\ is_Some (c_cluster_synced_files cfg)
  /\ is_Some (c_worker_setup_commands cfg)
  /\ is_Some (c_worker_start_ray_commands cfg)
  /\ (exists provider_config cluster_name p,
        c_provider cfg = Some provider_config
        /\ c_cluster_name cfg = Some cluster_name
        /\ _get_node_provider provider_config cluster_name = Ok p)
  /\ is_Some (c_available_node_types cfg)
  /\ is_Some (c_max_workers cfg).

End constructor.

(** ** A concrete cluster

    An implementation of the collaborators and a small cluster of type-[A]
    workers, on which the methods run. *)

Module Cluster.

Definition fits (node request : ResourceDict) : bool :=
  forallb (fun kv => kv.2 <=? default 0 (node !! kv.1))%Z (map_to_list request).

Definition take (node request : ResourceDict) : ResourceDict :=
  foldr (fun kv node => <[kv.1 := default 0 (node !! kv.1) - kv.2]> node)
        node (map_to_list request).

Fixpoint place (nodes : list ResourceDict) (request : ResourceDict)
  : option (list ResourceDict) :=
  match nodes with
  | [] => None
  | node :: nodes' =>
      if fits node request then Some (take node request :: nodes')
      else cons node <$> place nodes' request
  end.

(** First fit, in the order of the nodes. *)
Fixpoint first_fit (nodes requests : list ResourceDict)
  : list ResourceDict * list ResourceDict :=
  match requests with
  | [] => ([], nodes)
  | request :: requests' =>
      match place nodes request with
      | Some nodes' => first_fit nodes' requests'
      | None =>
          let '(unfulfilled, nodes') := first_fit nodes requests' in
          (request :: unfulfilled, nodes')
      end
  end.

Definition digest (d : Dict) : string :=
  foldr (fun kv acc => kv.1 +:+ "=" +:+ kv.2 +:+ ";" +:+ acc)%string
        ""%string (map_to_list d).

#[global] Instance collaborators : Collaborators := {|
  hash_launch_conf launch_config auth :=
    (digest launch_config +:+ "|" +:+ digest auth)%string;
  hash_runtime_conf file_mounts synced commands sync_continuously :=
    (String.concat ";" (concat commands),
     if sync_continuously then Some (digest file_mounts) else None);
  with_head_node_ip cmds head_ip :=
    (fun cmd => "export RAY_HEAD_IP=" +:+ head_ip +:+ "; " +:+ cmd)%string
      <$> cmds;
  get_bin_pack_residual := first_fit;
  get_nodes_to_launch _ _ _ _ _ _ _ _ := [];
  debug_string _ _ _ _ := ""%string;
  lm_info_string _ := ""%string;
  AUTOSCALER_HEARTBEAT_TIMEOUT_S := 30;
|}.

Definition type_A (min_workers max_workers : option Z) : NodeTypeConfig :=
  {| nt_resources := Some {[ "CPU"%string := 8 ]};
     nt_node_config := Some {[ "InstanceType"%string := "m5.2xlarge"%string ]};
     nt_min_workers := min_workers;
     nt_max_workers := max_workers;
     nt_worker_setup_commands := None;
     nt_initialization_commands := None;
     nt_docker := None |}.

Definition cluster_config (max_workers idle_timeout_minutes : Z)
    (provider_type : string) (A : NodeTypeConfig) : Config :=
  {| c_provider := Some {[ "type"%string := provider_type ]};
     c_cluster_name := Some "default"%string;
     c_auth := Some {[ "ssh_user"%string := "ubuntu"%string ]};
     c_max_workers := Some max_workers;
     c_idle_timeout_minutes := Some idle_timeout_minutes;
     c_worker_nodes := Some {[ "ImageId"%string := "ami-1"%string ]};
     c_available_node_types := Some {[ "A"%string := A ]};
     c_file_mounts := Some ∅;
     c_cluster_synced_files := Some [];
     c_initialization_commands := Some [];
     c_worker_setup_commands := Some ["pip install ray"%string];
     c_worker_start_ray_commands := Some ["ray start"%string];
     c_docker := None;
     c_restart_only := None;
     c_no_restart := None;
     c_file_mounts_sync_continuously := None;
     c_upscaling_speed := None;
     c_autoscaling_mode := None;
     c_target_utilization_fraction := None;
     c_rsync_exclude := None;
     c_rsync_filter := None |}.

(** The launch hash of a type-[A] worker under [cfg]. *)
Definition launch_hash_A (cfg : Config) : string :=
  match calculated_launch_hash cfg
          {[ TAG_RAY_USER_NODE_TYPE := "A"%string ]} with
  | Ok h => h
  | _ => ""%string
  end.

Definition worker_tags (launch_hash runtime_hash : string) : Tags :=
  {[ TAG_RAY_NODE_KIND := NODE_KIND_WORKER;
     TAG_RAY_USER_NODE_TYPE := "A"%string;
     TAG_RAY_NODE_STATUS := STATUS_UP_TO_DATE;
     TAG_RAY_LAUNCH_CONFIG := launch_hash;
     TAG_RAY_RUNTIME_CONFIG := runtime_hash ]}.

(** A provider that knows the given nodes, each with its tags and IP. *)
Definition provider_of (nodes : list (NodeID * (Tags * IP)))
    (faults : gmap nat Exn) : Provider :=
  {| p_nodes := nodes.*1;
     p_tags n := default ∅ (fst <$> PyDict.get nodes n);
     p_ip n := default ""%string (snd <$> PyDict.get nodes n);
     p_calls := [];
     p_faults := faults |}.

Definition no_faults : gmap nat Exn := ∅.

Definition metrics (last_used heartbeat : gmap IP Z) : LoadMetrics :=
  {| local_ip := "10.0.0.0"%string;
     last_used_time_by_ip := last_used;
     last_heartbeat_time_by_ip := heartbeat;
     lm_marked_active := [];
     lm_resource_demand_vector := [];
     lm_resource_utilization := ∅;
     lm_pending_placement_groups := [];
     lm_static_node_resources_by_ip := ∅ |}.

(** The autoscaler as its constructor leaves it, for the given config,
    provider and load metrics. *)
Definition autoscaler (cfg : Config) (p : Provider) (lm : LoadMetrics)
  : StandardAutoscaler :=
  {| config := cfg;
     runtime_hash := "pip install ray;ray start";
     file_mounts_contents_hash := None;
     available_node_types := default ∅ (c_available_node_types cfg);
     resource_demand_scheduler :=
       {| sc_node_types := default ∅ (c_available_node_types cfg);
          sc_max_workers := default 0 (c_max_workers cfg);
          sc_upscaling_speed := 1 |};
     provider := p;
     load_metrics := lm;
     head_node_ip := local_ip lm;
     max_failures := 5;
     max_launch_batch := 5;
     update_interval_s := 5;
     updaters := [];
     num_failed_updates := ∅;
     num_successful_updates := ∅;
     num_failures := 0;
     last_update_time := 0;
     launch_queue := [];
     pending_launches := ∅;
     resource_demand_vector := [];
     config_file := inr cfg;
     kv_initialized := true;
     kv := ∅ |}.

Definition runtime_hash_0 : string := "pip install ray;ray start".

(** Type [A] with [min_workers = 2] and [max_workers = 5]; at most 5
    workers, idle after 5 minutes. *)
Definition config_min2 : Config :=
  cluster_config 5 5 "aws" (type_A (Some 2) (Some 5)).

(** Two recently used workers of type [A], no more than [min_workers];
    [n1] was launched from an older launch config. *)
Definition outdated_cluster : StandardAutoscaler :=
  autoscaler config_min2
    (provider_of
       [("n1"%string, (worker_tags "old" runtime_hash_0, "10.0.0.1"%string));
        ("n2"%string,
         (worker_tags (launch_hash_A config_min2) runtime_hash_0,
          "10.0.0.2"%string))]
       no_faults)
    (metrics {[ "10.0.0.1"%string := 1000; "10.0.0.2"%string := 990 ]} ∅).

(** Type [A] with [min_workers = 2] and no [max_workers]. *)
Definition config_no_max : Config :=
  cluster_config 5 5 "aws" (type_A (Some 2) None).

(** One worker of type [A], last used at time 100. *)
Definition idle_cluster : StandardAutoscaler :=
  autoscaler config_no_max
    (provider_of
       [("n1"%string,
         (worker_tags (launch_hash_A config_no_max) runtime_hash_0,
          "10.0.0.1"%string))]
       no_faults)
    (metrics {[ "10.0.0.1"%string := 100 ]} ∅).

(** A cluster for which the load metrics have seen no heartbeat yet:
    [last_used_time_by_ip] is empty. *)
Definition fresh_cluster : StandardAutoscaler :=
  autoscaler config_min2
    (provider_of
       [("n1"%string,
         (worker_tags (launch_hash_A config_min2) runtime_hash_0,
          "10.0.0.1"%string))]
       no_faults)
    (metrics ∅ ∅).

(** A Kubernetes cluster whose API server fails the first call of the
    tick. *)
Definition k8s_config : Config :=
  cluster_config 5 5 "kubernetes" (type_A (Some 2) (Some 5)).

Definition k8s_cluster_api_down : StandardAutoscaler :=
  autoscaler k8s_config
    (provider_of
       [("n1"%string,
         (worker_tags (launch_hash_A k8s_config) runtime_hash_0,
          "10.0.0.1"%string))]
       {[ 0%nat := MaxRetryError ]})
    (metrics {[ "10.0.0.1"%string := 1000 ]} ∅).

(** What the updater thread leaves in its handle when it ends. *)
Definition finished (code : Z) (u : NodeUpdater) : NodeUpdater :=
  {| u_node_id := u_node_id u; u_provider_config := u_provider_config u;
     u_auth_config := u_auth_config u; u_cluster_name := u_cluster_name u;
     u_file_mounts := u_file_mounts u;
     u_initialization_commands := u_initialization_commands u;
     u_setup_commands := u_setup_commands u;
     u_ray_start_commands := u_ray_start_commands u;
     u_runtime_hash := u_runtime_hash u;
     u_file_mounts_contents_hash := u_file_mounts_contents_hash u;
     u_is_head_node := u_is_head_node u;
     u_cluster_synced_files := u_cluster_synced_files u;
     u_rsync_options := u_rsync_options u;
     u_use_internal_ip := u_use_internal_ip u;
     u_docker_config := u_docker_config u;
     u_node_resources := u_node_resources u;
     u_alive := false; u_exitcode := code |}.

Definition updater_of (node_id : NodeID) : NodeUpdater :=
  start (NodeUpdaterThread node_id ∅ ∅ "default" ∅ []
           ["pip install ray"%string] ["ray start"%string] runtime_hash_0
           None false [] (None, None) true None ∅).

(** Two workers whose updaters have both ended with exit code 0 since the
    last tick. *)
Definition two_finished_updates : StandardAutoscaler :=
  set_updaters
    [("n1"%string, finished 0 (updater_of "n1"));
     ("n2"%string, finished 0 (updater_of "n2"))]
    (autoscaler config_min2
       (provider_of
          [("n1"%string,
            (worker_tags (launch_hash_A config_min2) runtime_hash_0,
             "10.0.0.1"%string));
           ("n2"%string,
            (worker_tags (launch_hash_A config_min2) runtime_hash_0,
             "10.0.0.2"%string))]
          no_faults)
       (metrics {[ "10.0.0.1"%string := 1000; "10.0.0.2"%string := 1100 ]}
          ∅)).

(** Scenario 2: five idle workers of type [A] ([min_workers = 2],
    [max_workers = 5], idle timeout 5 minutes), last used more than 10
    minutes before time 1200. *)
Definition scenario_2 : StandardAutoscaler :=
  autoscaler config_min2
    (provider_of
       ((fun i : string =>
           (("n" +:+ i)%string,
            (worker_tags (launch_hash_A config_min2) runtime_hash_0,
             ("10.0.0." +:+ i)%string)))
          <$> ["1"; "2"; "3"; "4"; "5"]%string)
       no_faults)
    (metrics
       (list_to_map
          [("10.0.0.1"%string, 400); ("10.0.0.2"%string, 500);
           ("10.0.0.3"%string, 300); ("10.0.0.4"%string, 450);
           ("10.0.0.5"%string, 100)])
       ∅).

(** A cluster limited to one worker that has two, both in use; [n2] is
    the more recently used. *)
Definition config_max1 : Config :=
  cluster_config 1 5 "aws" (type_A (Some 0) (Some 5)).

Definition over_capacity : StandardAutoscaler :=
  autoscaler config_max1
    (provider_of
       [("n1"%string,
         (worker_tags (launch_hash_A config_max1) runtime_hash_0,
          "10.0.0.1"%string));
        ("n2"%string,
         (worker_tags (launch_hash_A config_max1) runtime_hash_0,
          "10.0.0.2"%string))]
       no_faults)
    (metrics {[ "10.0.0.1"%string := 1000; "10.0.0.2"%string := 1100 ]} ∅).

(** Scenario 4: a worker launched from the current launch config whose
    [RAY_RUNTIME_CONFIG] tag is not the current runtime hash. *)
Definition stale_runtime : StandardAutoscaler :=
  autoscaler config_min2
    (provider_of
       [("n1"%string,
         (worker_tags (launch_hash_A config_min2) "old runtime",
          "10.0.0.1"%string))]
       no_faults)
    (metrics {[ "10.0.0.1"%string := 1000 ]} ∅).

(** Type [A] with setup commands of its own, and scenario 4 for it. *)
Definition type_A_with_setup : NodeTypeConfig :=
  {| nt_resources := Some {[ "CPU"%string := 8 ]};
     nt_node_config := Some {[ "InstanceType"%string := "m5.2xlarge"%string ]};
     nt_min_workers := Some 2;
     nt_max_workers := Some 5;
     nt_worker_setup_commands := Some ["pip install ray[A]"%string];
     nt_initialization_commands := None;
     nt_docker := None |}.

Definition config_type_setup : Config :=
  cluster_config 5 5 "aws" type_A_with_setup.

Definition stale_runtime_typed_setup : StandardAutoscaler :=
  autoscaler config_type_setup
    (provider_of
       [("n1"%string,
         (worker_tags (launch_hash_A config_type_setup) "old runtime",
          "10.0.0.1"%string))]
       no_faults)
    (metrics {[ "10.0.0.1"%string := 1000 ]} ∅).

(** Scenario 6 in small: two workers of type [A] (8 CPUs each), [n2] the
    more recently used, and a request for 4 CPUs. *)
Definition requested_cluster : StandardAutoscaler :=
  set_resource_demand_vector [ {[ "CPU"%string := 4 ]} ]
    (autoscaler config_max1
       (provider_of
          [("n1"%string,
            (worker_tags (launch_hash_A config_max1) runtime_hash_0,
             "10.0.0.1"%string));
           ("n2"%string,
            (worker_tags (launch_hash_A config_max1) runtime_hash_0,
             "10.0.0.2"%string))]
          no_faults)
       (metrics {[ "10.0.0.1"%string := 1000; "10.0.0.2"%string := 1100 ]}
          ∅)).

(** Four workers of type [A]; the load metrics have not heard of [n2] and
    [n4] yet. *)
Definition joining_cluster : StandardAutoscaler :=
  autoscaler config_min2
    (provider_of
       ((fun i : string =>
           (("n" +:+ i)%string,
            (worker_tags (launch_hash_A config_min2) runtime_hash_0,
             ("10.0.0." +:+ i)%string)))
          <$> ["1"; "2"; "3"; "4"]%string)
       no_faults)
    (metrics {[ "10.0.0.1"%string := 900; "10.0.0.3"%string := 1000 ]} ∅).

(** The autoscaler [s], had it been constructed with the given
    [max_launch_batch]. *)
Definition with_max_launch_batch (v_max_launch_batch : Z)
    (s : StandardAutoscaler) : StandardAutoscaler :=
  {| config := config s; runtime_hash := runtime_hash s;
     file_mounts_contents_hash := file_mounts_contents_hash s;
     available_node_types := available_node_types s;
     resource_demand_scheduler := resource_demand_scheduler s;
     provider := provider s; load_metrics := load_metrics s;
     head_node_ip := head_node_ip s; max_failures := max_failures s;
     max_launch_batch := v_max_launch_batch;
     update_interval_s := update_interval_s s;
     updaters := updaters s; num_failed_updates := num_failed_updates s;
     num_successful_updates := num_successful_updates s;
     num_failures := num_failures s; last_update_time := last_update_time s;
     launch_queue := launch_queue s; pending_launches := pending_launches s;
     resource_demand_vector := resource_demand_vector s;
     config_file := config_file s; kv_initialized := kv_initialized s;
     kv := kv s |}.

(** The autoscaler [s] with the file at [config_path] changed: [file] is
    what the next [reset] reads. *)
Definition with_config_file (file : Exn + Config) (s : StandardAutoscaler)
  : StandardAutoscaler :=
  {| config := config s; runtime_hash := runtime_hash s;
     file_mounts_contents_hash := file_mounts_contents_hash s;
     available_node_types := available_node_types s;
     resource_demand_scheduler := resource_demand_scheduler s;
     provider := provider s; load_metrics := load_metrics s;
     head_node_ip := head_node_ip s; max_failures := max_failures s;
     max_launch_batch := max_launch_batch s;
     update_interval_s := update_interval_s s;
     updaters := updaters s; num_failed_updates := num_failed_updates s;
     num_successful_updates := num_successful_updates s;
     num_failures := num_failures s; last_update_time := last_update_time s;
     launch_queue := launch_queue s; pending_launches := pending_launches s;
     resource_demand_vector := resource_demand_vector s;
     config_file := file; kv_initialized := kv_initialized s;
     kv := kv s |}.

(** The config [cfg] edited: with the given [available_node_types] entry
    (or none), [file_mounts_sync_continuously] and legacy autoscaling
    settings. *)
Definition edited_config (node_types : option (gmap string NodeTypeConfig))
    (sync_continuously : option bool) (upscaling_speed : option Q)
    (autoscaling_mode : option string)
    (target_utilization_fraction : option Q) (cfg : Config) : Config :=
  {| c_provider := c_provider cfg;
     c_cluster_name := c_cluster_name cfg;
     c_auth := c_auth cfg;
     c_max_workers := c_max_workers cfg;
     c_idle_timeout_minutes := c_idle_timeout_minutes cfg;
     c_worker_nodes := c_worker_nodes cfg;
     c_available_node_types := node_types;
     c_file_mounts := c_file_mounts cfg;
     c_cluster_synced_files := c_cluster_synced_files cfg;
     c_initialization_commands := c_initialization_commands cfg;
     c_worker_setup_commands := c_worker_setup_commands cfg;
     c_worker_start_ray_commands := c_worker_start_ray_commands cfg;
     c_docker := c_docker cfg;
     c_restart_only := c_restart_only cfg;
     c_no_restart := c_no_restart cfg;
     c_file_mounts_sync_continuously := sync_continuously;
     c_upscaling_speed := upscaling_speed;
     c_autoscaling_mode := autoscaling_mode;
     c_target_utilization_fraction := target_utilization_fraction;
     c_rsync_exclude := c_rsync_exclude cfg;
     c_rsync_filter := c_rsync_filter cfg |}.

(** The config file has been removed under a running autoscaler. *)
Definition config_file_removed : StandardAutoscaler :=
  with_config_file (inl (OtherException "No such file or directory"))
    over_capacity.

(** The config file has lost its [available_node_types]. *)
Definition node_types_removed : StandardAutoscaler :=
  with_config_file
    (inr (edited_config None None None None None config_max1))
    over_capacity.

(** The config file now asks for [file_mounts_sync_continuously]. *)
Definition sync_turned_on : StandardAutoscaler :=
  with_config_file
    (inr (edited_config (c_available_node_types config_max1) (Some true)
            None None None config_max1))
    over_capacity.

(** Scenario 5: a healthy worker whose last heartbeat dates from time
    1000. *)
Definition silent_cluster : StandardAutoscaler :=
  autoscaler config_min2
    (provider_of
       [("n1"%string,
         (worker_tags (launch_hash_A config_min2) runtime_hash_0,
          "10.0.0.1"%string))]
       no_faults)
    (metrics {[ "10.0.0.1"%string := 1000 ]}
       {[ "10.0.0.1"%string := 1000 ]}).

(** A worker tagged with a node type the config does not have. *)
Definition stray_worker : StandardAutoscaler :=
  autoscaler config_min2
    (provider_of
       [("n1"%string,
         ({[ TAG_RAY_NODE_KIND := NODE_KIND_WORKER;
             TAG_RAY_USER_NODE_TYPE := "B"%string ]},
          "10.0.0.1"%string))]
       no_faults)
    (metrics {[ "10.0.0.1"%string := 1000 ]} ∅).

(** A head node whose user is [ubuntu], and on which every path exists
    but [/home/ubuntu/missing]; a provider factory that knows the [aws]
    and [kubernetes] provider types. *)
#[global] Instance environment : Environment := {|
  _get_node_provider provider_config cluster_name :=
    match provider_config !! "type"%string with
    | None => Raise (KeyError "type")
    | Some ty =>
        if bool_decide (ty = "aws"%string \/ ty = "kubernetes"%string)
        then Ok (provider_of [] no_faults)
        else Raise (OtherException ("Unsupported node provider: " +:+ ty))
    end;
  expanduser path :=
    if String.prefix "~/" path
    then ("/home/ubuntu"
          +:+ String.substring 1 (Nat.pred (String.length path)) path)%string
    else path;
  path_exists path := negb (String.eqb path "/home/ubuntu/missing");
|}.

(** [config_min2] with a file mount given relative to the home directory. *)
Definition config_with_mounts : Config :=
  set_file_mounts {[ "/remote/app"%string := "~/app"%string ]}
    config_min2.

(** The autoscaler the constructor returns for that config, with batches
    of 4 and 10 concurrent launches. *)
Definition constructed : StandardAutoscaler :=
  match
    __init__ (inr config_with_mounts) (metrics ∅ ∅) 4 10 5 5 true ∅
  with
  | Ok (s, _) => s
  | _ => fresh_cluster
  end.

End Cluster.

(** * Vocabulary of the properties *)

(** [inv P m]: whatever the outcome of [m], the state it leaves satisfies
    [P] if the state it started from did.  As every state a method goes
    through is the state left by a part of it, an invariant of all the
    parts holds at every point of the run. *)
Definition inv {A} (P : StandardAutoscaler -> Prop) (m : M A) : Prop :=
  forall s, P s -> P (m s).2.

(** The state without the log of the provider calls: what a method that
    only reads the provider leaves unchanged. *)
Definition erase (s : StandardAutoscaler) : StandardAutoscaler :=
  set_provider
    {| p_nodes := p_nodes (provider s); p_tags := p_tags (provider s);
       p_ip := p_ip (provider s); p_calls := [];
       p_faults := p_faults (provider s) |} s.

(** The provider answers every call. *)
Definition answering (s : StandardAutoscaler) : Prop :=
  p_faults (provider s) = ∅.

(** The node lists the provider was asked to terminate, latest first. *)
Definition terminated (p : Provider) : list (list NodeID) :=
  omap (fun c => match c with
                 | Call_terminate_nodes ids => Some ids
                 | _ => None
                 end) (p_calls p).

Definition provider_type (cfg : Config) : option string :=
  match c_provider cfg with
  | Some provider_config => provider_config !! "type"%string
  | None => None
  end.

(** [m] returns or raises: it has no loop that fails to end. *)
Definition never_diverges {A} (m : M A) : Prop :=
  forall s, (m s).1 <> Diverge.

(** [selected], in the order it was selected, is taken from the tail of
    [ordering], last item first. *)
Definition taken_from_tail_of (selected ordering : list NodeID) : Prop :=
  rev selected `suffix_of` ordering.

(** The declared capacity of the node type of a node. *)
Definition declared_resources (s : StandardAutoscaler) (n : NodeID)
  : option ResourceDict :=
  match p_tags (provider s) n !! TAG_RAY_USER_NODE_TYPE with
  | Some node_type =>
      match available_node_types s !! node_type with
      | Some node_type_config => nt_resources node_type_config
      | None => None
      end
  | None => None
  end.

(** The nodes that carry a node type tag, in the order of [nodes]. *)
Definition typed_nodes (s : StandardAutoscaler) (nodes : list NodeID)
  : list NodeID :=
  filter (fun n => is_Some (p_tags (provider s) n !! TAG_RAY_USER_NODE_TYPE))
         nodes.

(** The key [_sort_based_on_last_used] sorts node [n] by, [least] being the
    least of the last-used times: the last-used time of its IP, or
    [least - 1] when the load metrics do not know the IP. *)
Definition last_time_used (s : StandardAutoscaler) (last_used : gmap IP Z)
    (least : Z) (n : NodeID) : Z :=
  default (least - 1) (last_used !! p_ip (provider s) n).

(** The load metrics have a last-used time for the IP of [n]. *)
Definition connected (s : StandardAutoscaler) (last_used : gmap IP Z)
    (n : NodeID) : Prop :=
  is_Some (last_used !! p_ip (provider s) n).

(** The number of nodes a list of launch requests asks for. *)
Definition requested_count (requests : list LaunchRequest) : Z :=
  foldr Z.add 0 (lr_count <$> requests).

(** The counter [counts[n]] after the reap of the updaters [d], of which
    those that have ended with an exit code that satisfies [counted] are
    counted. *)
Definition reaped_count (d : list (NodeID * NodeUpdater))
    (counted : Z -> bool) (counts : gmap NodeID Z) (n : NodeID) : option Z :=
  match PyDict.get d n with
  | Some u =>
      if negb (is_alive u) && counted (exitcode u)
      then Some (default 0 (counts !! n) + 1)
      else counts !! n
  | None => counts !! n
  end.


(** The nodes of kind [worker] the provider lists. *)
Definition worker_nodes (p : Provider) : list NodeID :=
  filter (fun n => p_tags p n !! TAG_RAY_NODE_KIND = Some NODE_KIND_WORKER)
         (p_nodes p).

(** The four keys of the config that [reset] hashes into the runtime
    hash, when all are present. *)
Definition hashed_fields (cfg : Config)
  : res (Dict * list string * Commands * Commands) :=
  (file_mounts <- item "file_mounts" (c_file_mounts cfg) ;;
   cluster_synced_files <-
     item "cluster_synced_files" (c_cluster_synced_files cfg) ;;
   worker_setup_commands <-
     item "worker_setup_commands" (c_worker_setup_commands cfg) ;;
   worker_start_ray_commands <-
     item "worker_start_ray_commands" (c_worker_start_ray_commands cfg) ;;
   Ok (file_mounts, cluster_synced_files, worker_setup_commands,
       worker_start_ray_commands))%res.

(** The nodes of [nodes] that carry the node type [t]. *)
Definition nodes_of_type (s : StandardAutoscaler) (t : NodeType)
    (nodes : list NodeID) : list NodeID :=
  filter (fun n => p_tags (provider s) n !! TAG_RAY_USER_NODE_TYPE = Some t)
         nodes.

(** [ends P m]: started in a state that satisfies [P], the method [m]
    returns or raises, and the state it leaves satisfies [P]. *)
Definition ends {A} (P : StandardAutoscaler -> Prop) (m : M A) : Prop :=
  forall s, P s -> (m s).1 <> Diverge /\ P (m s).2.

(** The launch batches have a positive size. *)
Definition batched (s : StandardAutoscaler) : Prop := 1 <= max_launch_batch s.

(** Node [n] is of kind [worker] for the provider [p]. *)
Definition is_worker (p : Provider) (n : NodeID) : Prop :=
  p_tags p n !! TAG_RAY_NODE_KIND = Some NODE_KIND_WORKER.

#[global] Instance is_worker_dec p n : Decision (is_worker p n).
Proof. unfold is_worker. apply _. Defined.

(** Since the state [s0] only workers have been terminated: the tags are
    those of [s0], the node lists the provider has been asked to terminate
    since then hold workers only, and the provider lists the nodes of
    another kind as it did. *)
Definition only_workers_terminated (s0 s : StandardAutoscaler) : Prop :=
  p_tags (provider s) = p_tags (provider s0)
  /\ (exists since,
        terminated (provider s) = since ++ terminated (provider s0)
        /\ Forall (Forall (is_worker (provider s0))) since)
  /\ filter (fun n => ~ is_worker (provider s0) n) (p_nodes (provider s))
     = filter (fun n => ~ is_worker (provider s0) n) (p_nodes (provider s0)).

Section vocabulary.
Context `{Collaborators}.

(** Whether the [RAY_LAUNCH_CONFIG] tag of a node with tags [tags] is the
    launch hash computed from [cfg]: the answer of [launch_config_ok]. *)
Definition launch_hash_matches (cfg : Config) (tags : Tags) : res bool :=
  (h <- calculated_launch_hash cfg tags ;;
   Ok (bool_decide (Some h = tags !! TAG_RAY_LAUNCH_CONFIG)))%res.

(** Whether the runtime config applied to a node with tags [tags] is the
    current one: the answer of [files_up_to_date]. *)
Definition files_match (s : StandardAutoscaler) (tags : Tags) : bool :=
  negb (bool_decide (tags !! TAG_RAY_RUNTIME_CONFIG ≠ Some (runtime_hash s))
        || (bool_decide (file_mounts_contents_hash s ≠ None)
            && bool_decide (file_mounts_contents_hash s
                            ≠ tags !! TAG_RAY_FILE_MOUNTS_CONTENTS))).

(** The field [fields_key] for a node with tags [tags]: that of the node
    type when the node has a type and the type has the field, that of the
    config otherwise. *)
Definition node_type_fields {A} (s : StandardAutoscaler) (tags : Tags)
    (fields_key : string) (of_config : Config -> option A)
    (of_node_type : NodeTypeConfig -> option A) : res A :=
  match of_config (config s) with
  | None => Raise (KeyError fields_key)
  | Some fields =>
      match tags !! TAG_RAY_USER_NODE_TYPE with
      | Some node_type =>
          match available_node_types s !! node_type with
          | None =>
              Raise (ValueError
                       ("Unknown node type tag: " +:+ node_type +:+ "."))
          | Some node_specific_config =>
              Ok (default fields (of_node_type node_specific_config))
          end
      | None => Ok fields
      end
  end.

(** The docker config for a node with tags [tags]: [config.docker] merged
    with the override of the node type. *)
Definition docker_config_of (s : StandardAutoscaler) (tags : Tags)
  : res Dict :=
  match c_docker (config s) with
  | None => Ok ∅
  | Some docker_config =>
      (node_specific_docker <-
         node_type_fields s tags "docker" c_docker nt_docker ;;
       Ok (node_specific_docker ∪ docker_config))%res
  end.

(** The matrix of the should-update decision: the setup commands and the
    start commands of an update of node [n], which has tags [tags]. *)
Definition update_commands (s : StandardAutoscaler) (tags : Tags)
    (n : NodeID) : res (Commands * Commands) :=
  let prior :=
    bool_decide (default 0 (num_successful_updates s !! n) > 0) in
  let setup :=
    node_type_fields s tags "worker_setup_commands"
      c_worker_setup_commands nt_worker_setup_commands in
  let start :=
    item "worker_start_ray_commands"
      (c_worker_start_ray_commands (config s)) in
  (if prior && truthy_bool (c_restart_only (config s)) then
     start <- start ;; Ok ([], start)
   else if prior && truthy_bool (c_no_restart (config s)) then
     setup <- setup ;; Ok (setup, [])
   else
     setup <- setup ;; start <- start ;; Ok (setup, start))%res.

(** What the walk of step 2 needs to know of a worker: the node type of
    its tag, if it has one, and its launch hash. *)
Definition known_worker (s : StandardAutoscaler) (n : NodeID) : bool :=
  match p_tags (provider s) n !! TAG_RAY_USER_NODE_TYPE with
  | Some node_type =>
      bool_decide (is_Some (available_node_types s !! node_type))
  | None => true
  end
  && match launch_hash_matches (config s) (p_tags (provider s) n) with
     | Ok _ => true
     | _ => false
     end.

(** The autoscaler after a [reset] that has read the config [cfg], all of
    whose keys are present; [sync_continuously] is the flag the runtime
    hash is computed with. *)
Definition reloaded (cfg : Config) (sync_continuously : bool)
    (s : StandardAutoscaler) : StandardAutoscaler :=
  let hashes :=
    hash_runtime_conf (default ∅ (c_file_mounts cfg))
      (default [] (c_cluster_synced_files cfg))
      [default [] (c_worker_setup_commands cfg);
       default [] (c_worker_start_ray_commands cfg)]
      sync_continuously in
  set_resource_demand_scheduler
    {| sc_node_types := default ∅ (c_available_node_types cfg);
       sc_max_workers := default 0 (c_max_workers cfg);
       sc_upscaling_speed := upscaling_speed_of cfg |}
    (set_available_node_types (default ∅ (c_available_node_types cfg))
       (set_config_and_hashes cfg hashes.1 hashes.2 s)).

(** The updater [recover_if_needed] starts on node [n]: it only restarts
    Ray, with no file mounts and no setup commands. *)
Definition recovery_updater (s : StandardAutoscaler) (n : NodeID)
    (provider_config auth_config : Dict) (cluster_name : string)
    (ray_start_commands : Commands) : NodeUpdater :=
  start
    (NodeUpdaterThread n provider_config auth_config cluster_name ∅ [] []
       (with_head_node_ip ray_start_commands (head_node_ip s))
       (runtime_hash s) (file_mounts_contents_hash s) false [] (None, None)
       true (c_docker (config s)) (default ∅ (declared_resources s n))).

(** Why step 2 selects a worker: it has been idle since before [horizon],
    or its launch config is not the current one. *)
Definition idle_or_outdated (s : StandardAutoscaler) (horizon : Z)
    (n : NodeID) : Prop :=
  (exists t,
     last_used_time_by_ip (load_metrics s) !! p_ip (provider s) n = Some t
     /\ t < horizon)
  \/ launch_hash_matches (config s) (p_tags (provider s) n) = Ok false.

End vocabulary.

(** * Properties *)

(** ** Running methods *)

Lemma bind_eq {A B} (m : M A) (k : A -> M B) s r s1 :
  m s = (r, s1) ->
  bind m k s =
    match r with
    | Ok a => k a s1
    | Raise e => (Raise e, s1)
    | Diverge => (Diverge, s1)
    end.
Proof. intros Hm. unfold bind. rewrite Hm. by destruct r. Qed.

Lemma bind_ok_inv {A B} (m : M A) (k : A -> M B) s b s' :
  bind m k s = (Ok b, s') ->
  exists a s1, m s = (Ok a, s1) /\ k a s1 = (Ok b, s').
Proof.
  unfold bind. destruct (m s) as [[a|e|] s1]; intros Hk; try discriminate.
  by exists a, s1.
Qed.

(** Runs the first part of a [bind] and names its outcome. *)
Ltac step_bind H :=
  lazymatch goal with
  | |- context [@bind ?A ?B ?m ?k ?s] =>
      let r := fresh "r" in
      let s1 := fresh "s" in
      destruct (m s) as [r s1] eqn:H;
      rewrite (@bind_eq A B m k s r s1 H)
  end.

Lemma getitem_ok_inv {A} key (o : option A) s a s' :
  getitem key o s = (Ok a, s') -> o = Some a /\ s' = s.
Proof. destruct o; cbn; intros [=]; by subst. Qed.

(** ** Invariants of methods *)

Section inv_monad.
Context (P : StandardAutoscaler -> Prop).

Lemma inv_ret {A} (a : A) : inv P (ret a).
Proof. by intros s. Qed.

Lemma inv_raise {A} e : inv P (@raise A e).
Proof. by intros s. Qed.

Lemma inv_diverge {A} : inv P (@diverge A).
Proof. by intros s. Qed.

Lemma inv_self : inv P self.
Proof. by intros s. Qed.

Lemma inv_lift {A} (r : res A) : inv P (lift r).
Proof. by intros s. Qed.

Lemma inv_getitem {A} key (o : option A) : inv P (getitem key o).
Proof. destruct o; by intros s. Qed.

Lemma inv_index {A} (l : list A) i : inv P (index l i).
Proof. unfold index. destruct (l !! i); by intros s. Qed.

Lemma inv_iter_commands o : inv P (iter_commands o).
Proof. destruct o; by intros s. Qed.

Lemma inv_bind {A B} (m : M A) (k : A -> M B) :
  inv P m -> (forall a, inv P (k a)) -> inv P (bind m k).
Proof.
  intros Hm Hk s Hs. unfold bind. specialize (Hm s Hs).
  destruct (m s) as [[a|e|] s1]; cbn in *; try done. by apply Hk.
Qed.

Lemma inv_assign f : (forall s, P s -> P (f s)) -> inv P (assign f).
Proof. intros Hf s Hs. by apply Hf. Qed.

Lemma inv_run_thread m : inv P m -> inv P (run_thread m).
Proof.
  intros Hm s Hs. unfold run_thread. specialize (Hm s Hs).
  by destruct (m s) as [[a|e|] s1].
Qed.

Lemma inv_for_each {A} (l : list A) body :
  (forall x, inv P (body x)) -> inv P (for_each l body).
Proof.
  intros Hb. induction l as [|x l IH]; cbn; [apply inv_ret|].
  apply inv_bind; auto.
Qed.

Lemma inv_for_list {A B} (l : list A) (f : A -> M B) :
  (forall x, inv P (f x)) -> inv P (for_list l f).
Proof.
  intros Hf. induction l as [|x l IH]; cbn; [apply inv_ret|].
  apply inv_bind; [auto|]. intros y. apply inv_bind; [auto|].
  intros ys. apply inv_ret.
Qed.

Lemma inv_for_fold {A B} (l : list A) (b : B) body :
  (forall b x, inv P (body b x)) -> inv P (for_fold l b body).
Proof.
  intros Hb. revert b. induction l as [|x l IH]; intros b; cbn;
    [apply inv_ret|].
  apply inv_bind; auto.
Qed.

End inv_monad.

(** One step of an invariance proof: through the control flow. *)
Ltac inv_step :=
  lazymatch goal with
  | |- inv _ (bind _ _) => apply inv_bind; [|intros ?]
  | |- inv _ (ret _) => apply inv_ret
  | |- inv _ (raise _) => apply inv_raise
  | |- inv _ diverge => apply inv_diverge
  | |- inv _ self => apply inv_self
  | |- inv _ (lift _) => apply inv_lift
  | |- inv _ (getitem _ _) => apply inv_getitem
  | |- inv _ (index _ _) => apply inv_index
  | |- inv _ (iter_commands _) => apply inv_iter_commands
  | |- inv _ (run_thread _) => apply inv_run_thread
  | |- inv _ (for_each _ _) => apply inv_for_each; intros ?
  | |- inv _ (for_list _ _) => apply inv_for_list; intros ?
  | |- inv _ (for_fold _ _ _) => apply inv_for_fold; intros ? ?
  | |- inv _ (assign _) => apply inv_assign; intros ? ?
  | |- inv _ (match ?x with _ => _ end) => destruct x
  end.

Create HintDb frame discriminated.

Ltac inv_auto := repeat first [ solve [auto with frame] | inv_step ].

(** The state changes of the methods, one hypothesis for each: an
    invariant of the changes a method makes is an invariant of the
    method. *)
Section inv_methods.
Context `{Collaborators} (P : StandardAutoscaler -> Prop).

Hypothesis P_call : forall c s,
  P s -> P (set_provider (log_call c (provider s)) s).
Hypothesis P_terminate : forall ids s,
  P s ->
  P (set_provider
       (forget_nodes ids (log_call (Call_terminate_nodes ids) (provider s))) s).
Hypothesis P_load_metrics : forall lm s, P s -> P (set_load_metrics lm s).
Hypothesis P_kv : forall k s, P s -> P (set_kv k s).
Hypothesis P_register : forall n u s,
  P s -> P (set_updaters (PyDict.set n u (updaters s)) s).
Hypothesis P_del : forall n s,
  P s -> P (set_updaters (PyDict.del n (updaters s)) s).
Hypothesis P_num_successful_updates : forall m s,
  P s -> P (set_num_successful_updates m s).
Hypothesis P_num_failed_updates : forall m s,
  P s -> P (set_num_failed_updates m s).
Hypothesis P_pending_launches : forall m s,
  P s -> P (set_pending_launches m s).
Hypothesis P_launch_queue : forall q s, P s -> P (set_launch_queue q s).
Hypothesis P_last_update_time : forall t s,
  P s -> P (set_last_update_time t s).
Hypothesis P_config : forall c h1 h2 s,
  P s -> P (set_config_and_hashes c h1 h2 s).
Hypothesis P_available_node_types : forall t s,
  P s -> P (set_available_node_types t s).
Hypothesis P_resource_demand_scheduler : forall c s,
  P s -> P (set_resource_demand_scheduler c s).
Hypothesis P_num_failures : forall n s, P s -> P (set_num_failures n s).

Lemma inv_provider_read {A} c (f : Provider -> A) :
  inv P (provider_read c f).
Proof.
  intros s Hs. unfold provider_read.
  destruct (p_faults _ !! _); cbn; by apply P_call.
Qed.

Lemma inv_terminate_nodes ids : inv P (terminate_nodes ids).
Proof.
  intros s Hs. unfold terminate_nodes.
  destruct (p_faults _ !! _); cbn; [by apply P_call | by apply P_terminate].
Qed.

Lemma inv_node_tags n : inv P (node_tags n).
Proof. apply inv_provider_read. Qed.

Lemma inv_internal_ip n : inv P (internal_ip n).
Proof. apply inv_provider_read. Qed.

Lemma inv_non_terminated_nodes f : inv P (non_terminated_nodes f).
Proof. apply inv_provider_read. Qed.

Hint Resolve inv_node_tags inv_internal_ip inv_non_terminated_nodes
  inv_terminate_nodes : frame.

Lemma inv_workers : inv P workers.
Proof. apply inv_non_terminated_nodes. Qed.

Lemma inv_all_workers : inv P all_workers.
Proof. unfold all_workers, workers, unmanaged_workers. inv_auto. Qed.

Lemma inv_launch_config_ok n : inv P (launch_config_ok n).
Proof. unfold launch_config_ok. inv_auto. Qed.

Lemma inv_files_up_to_date n : inv P (files_up_to_date n).
Proof. unfold files_up_to_date. inv_auto. Qed.

Hint Resolve inv_workers inv_all_workers inv_launch_config_ok
  inv_files_up_to_date : frame.

Lemma inv_can_update n : inv P (can_update n).
Proof. unfold can_update. inv_auto. Qed.

Lemma inv__get_node_type_specific_fields {A} n key
    (f : Config -> option A) g :
  inv P (_get_node_type_specific_fields n key f g).
Proof. unfold _get_node_type_specific_fields. inv_auto. Qed.

Hint Resolve inv_can_update inv__get_node_type_specific_fields : frame.

Lemma inv__get_node_specific_docker_config n :
  inv P (_get_node_specific_docker_config n).
Proof. unfold _get_node_specific_docker_config. inv_auto. Qed.

Lemma inv__node_resources n : inv P (_node_resources n).
Proof. unfold _node_resources. inv_auto. Qed.

Hint Resolve inv__get_node_specific_docker_config inv__node_resources : frame.

Lemma inv_should_update n : inv P (should_update n).
Proof. unfold should_update. inv_auto. Qed.

Lemma inv_register_updater n u : inv P (register_updater n u).
Proof. unfold register_updater. inv_auto. Qed.

Hint Resolve inv_should_update inv_register_updater : frame.

Lemma inv_spawn_updater n c r res d : inv P (spawn_updater n c r res d).
Proof. unfold spawn_updater. inv_auto. Qed.

Lemma inv_recover_if_needed n now : inv P (recover_if_needed n now).
Proof.
  unfold recover_if_needed, set_last_heartbeat. inv_auto.
Qed.

Lemma inv_launch_new_node count ty : inv P (launch_new_node count ty).
Proof.
  unfold launch_new_node. inv_auto.
Qed.

Lemma inv_log_info_string nodes : inv P (log_info_string nodes).
Proof.
  unfold log_info_string, info_string, _internal_kv_put. inv_auto.
Qed.

Hint Resolve inv_spawn_updater inv_recover_if_needed inv_launch_new_node
  inv_log_info_string : frame.

Lemma inv__sort_based_on_last_used nodes last_used :
  inv P (_sort_based_on_last_used nodes last_used).
Proof. unfold _sort_based_on_last_used. inv_auto. Qed.

Lemma inv__get_nodes_allowed_to_terminate sorted :
  inv P (_get_nodes_allowed_to_terminate sorted).
Proof.
  unfold _get_nodes_allowed_to_terminate, collect_max_node_resources,
    decide_allowed_to_terminate.
  inv_auto.
Qed.

Lemma inv__keep_min_worker_of_node_type n counts :
  inv P (_keep_min_worker_of_node_type n counts).
Proof. unfold _keep_min_worker_of_node_type. inv_auto. Qed.

Hint Resolve inv__sort_based_on_last_used
  inv__get_nodes_allowed_to_terminate
  inv__keep_min_worker_of_node_type : frame.

Lemma inv_terminate_idle_or_outdated sorted last_used horizon allowed
    counts acc :
  inv P (terminate_idle_or_outdated sorted last_used horizon allowed
           counts acc).
Proof.
  revert counts acc. induction sorted as [|n rest IH]; intros counts acc;
    cbn [terminate_idle_or_outdated]; inv_auto.
Qed.

Lemma inv_terminate_too_many nodes : inv P (terminate_too_many nodes).
Proof. unfold terminate_too_many. inv_auto. Qed.

Lemma inv_process_completed_updates now nodes :
  inv P (process_completed_updates now nodes).
Proof.
  unfold process_completed_updates, mark_active. inv_auto.
Qed.

Lemma inv_update_out_of_date_nodes nodes :
  inv P (update_out_of_date_nodes nodes).
Proof. unfold update_out_of_date_nodes. inv_auto. Qed.

Hint Resolve inv_terminate_idle_or_outdated inv_terminate_too_many
  inv_process_completed_updates inv_update_out_of_date_nodes : frame.

Lemma inv_reconcile now : inv P (reconcile now).
Proof.
  unfold reconcile, prune_active_ips. inv_auto.
Qed.

Lemma inv__update now : inv P (_update now).
Proof.
  pose proof (inv_reconcile now). unfold _update. inv_auto.
Qed.

Lemma inv_reset_body sync : inv P (reset_body sync).
Proof.
  unfold reset_body. inv_auto.
Qed.

Lemma inv_reset errors_fatal : inv P (reset errors_fatal).
Proof.
  intros s Hs. unfold reset.
  pose proof (inv_reset_body
                (truthy_bool (c_file_mounts_sync_continuously (config s)))
                s Hs) as Hb.
  destruct (reset_body _ s) as [[[]|e|] s1]; cbn in *; try done.
  by destruct errors_fatal.
Qed.

Lemma inv_on_tick_exception e : inv P (on_tick_exception e).
Proof.
  unfold on_tick_exception, _internal_kv_put. inv_auto.
Qed.

Lemma inv_tick now : inv P (tick now).
Proof. apply inv_bind; [apply inv_reset|]. intros _. apply inv__update. Qed.

Lemma inv_update now : inv P (update now).
Proof.
  intros s Hs. unfold update.
  pose proof (inv_tick now s Hs) as Ht.
  destruct (tick now s) as [[[]|e|] s1]; cbn in *; try done.
  by apply inv_on_tick_exception.
Qed.

End inv_methods.

(** ** What the provider calls leave unchanged *)

Lemma erase_call e0 c s :
  erase s = e0 -> erase (set_provider (log_call c (provider s)) s) = e0.
Proof. by intros <-. Qed.

Lemma erase_config s s' : erase s' = erase s -> config s' = config s.
Proof. intros He. by apply (f_equal config) in He. Qed.

Lemma erase_available_node_types s s' :
  erase s' = erase s -> available_node_types s' = available_node_types s.
Proof. intros He. by apply (f_equal available_node_types) in He. Qed.

Lemma erase_p_tags s s' :
  erase s' = erase s -> p_tags (provider s') = p_tags (provider s).
Proof. intros He. by apply (f_equal (fun x => p_tags (provider x))) in He. Qed.

Lemma erase_p_ip s s' :
  erase s' = erase s -> p_ip (provider s') = p_ip (provider s).
Proof. intros He. by apply (f_equal (fun x => p_ip (provider x))) in He. Qed.

Lemma erase_updaters s s' : erase s' = erase s -> updaters s' = updaters s.
Proof. intros He. by apply (f_equal updaters) in He. Qed.

Lemma erase_answering s s' : erase s' = erase s -> answering s -> answering s'.
Proof.
  intros He. unfold answering.
  apply (f_equal (fun x => p_faults (provider x))) in He. cbn in He.
  by rewrite He.
Qed.

Lemma erase_fields s s' :
  erase s' = erase s ->
  config s' = config s
  /\ available_node_types s' = available_node_types s
  /\ runtime_hash s' = runtime_hash s
  /\ file_mounts_contents_hash s' = file_mounts_contents_hash s
  /\ num_successful_updates s' = num_successful_updates s
  /\ p_tags (provider s') = p_tags (provider s).
Proof.
  intros He. repeat split;
    [ by apply (f_equal config) in He
    | by apply (f_equal available_node_types) in He
    | by apply (f_equal runtime_hash) in He
    | by apply (f_equal file_mounts_contents_hash) in He
    | by apply (f_equal num_successful_updates) in He
    | by apply (f_equal (fun x => p_tags (provider x))) in He ].
Qed.

Lemma provider_read_ok_inv {A} c (f : Provider -> A) s a s' :
  provider_read c f s = (Ok a, s') ->
  a = f (provider s) /\ erase s' = erase s.
Proof.
  unfold provider_read. destruct (p_faults _ !! _); intros [= <- <-]. done.
Qed.

Lemma provider_read_answering {A} c (f : Provider -> A) s :
  answering s ->
  provider_read c f s
  = (Ok (f (provider s)), set_provider (log_call c (provider s)) s).
Proof.
  unfold answering, provider_read. intros ->. by rewrite lookup_empty.
Qed.

Section read_only.
Context `{Collaborators}.

Lemma launch_config_ok_erase n s :
  erase (launch_config_ok n s).2 = erase s.
Proof.
  by apply (inv_launch_config_ok (fun x => erase x = erase s)
              (erase_call (erase s))).
Qed.

Lemma launch_config_ok_ok_inv n s b s' :
  launch_config_ok n s = (Ok b, s') ->
  launch_hash_matches (config s) (p_tags (provider s) n) = Ok b
  /\ erase s' = erase s.
Proof.
  intros Hr. split; [|by rewrite <-(launch_config_ok_erase n s), Hr].
  unfold launch_config_ok in Hr.
  apply bind_ok_inv in Hr as (tags & s1 & Htags & Hr).
  apply provider_read_ok_inv in Htags as [-> He].
  apply bind_ok_inv in Hr as (? & ? & [= <- <-] & Hr).
  apply bind_ok_inv in Hr as (h & ? & [= Hh <-] & Hr).
  unfold launch_hash_matches.
  rewrite <-(erase_config _ _ He), Hh. cbn.
  rewrite bool_decide_not in Hr.
  by destruct (bool_decide (Some h = _)); injection Hr as <- _.
Qed.

Lemma launch_config_ok_answering n s :
  answering s ->
  launch_config_ok n s
  = (launch_hash_matches (config s) (p_tags (provider s) n),
     set_provider (log_call (Call_node_tags n) (provider s)) s).
Proof.
  intros Ha. unfold launch_config_ok, node_tags.
  rewrite (bind_eq _ _ _ _ _ (provider_read_answering _ _ s Ha)).
  rewrite (bind_eq self _ _ _ _ eq_refl).
  unfold launch_hash_matches, bind, lift. cbn.
  destruct (calculated_launch_hash _ _) as [h|e|]; cbn; [|done..].
  rewrite bool_decide_not. by destruct (bool_decide _).
Qed.

Lemma _keep_min_worker_of_node_type_answering n counts s :
  answering s ->
  match p_tags (provider s) n !! TAG_RAY_USER_NODE_TYPE with
  | Some t => is_Some (available_node_types s !! t)
  | None => True
  end ->
  exists kept,
    _keep_min_worker_of_node_type n counts s
    = (Ok kept, set_provider (log_call (Call_node_tags n) (provider s)) s).
Proof.
  intros Ha Ht. unfold _keep_min_worker_of_node_type, node_tags.
  rewrite (bind_eq _ _ _ _ _ (provider_read_answering _ _ s Ha)).
  destruct (p_tags (provider s) n !! TAG_RAY_USER_NODE_TYPE) as [t|];
    [|by eexists].
  destruct Ht as [nt Hnt].
  rewrite (bind_eq self _ _ _ _ eq_refl).
  cbn [available_node_types set_provider]. rewrite Hnt.
  cbn [getitem]. rewrite (bind_eq (ret nt) _ _ _ _ eq_refl).
  destruct (_ <=? _); by eexists.
Qed.

Lemma internal_ip_ok_inv n s ip s' :
  internal_ip n s = (Ok ip, s') ->
  ip = p_ip (provider s) n /\ erase s' = erase s.
Proof. apply provider_read_ok_inv. Qed.

Lemma _keep_min_worker_of_node_type_ok_inv n counts s b counts' s' :
  _keep_min_worker_of_node_type n counts s = (Ok (b, counts'), s') ->
  erase s' = erase s /\
  match p_tags (provider s) n !! TAG_RAY_USER_NODE_TYPE with
  | Some t =>
      exists nt,
        available_node_types s !! t = Some nt
        /\ counts' = <[t := default 0 (counts !! t) + 1]> counts
        /\ b = (default 0 (counts !! t) + 1
                <=? Z.min (default 0 (nt_min_workers nt))
                          (default 0 (nt_max_workers nt)))
  | None => b = false /\ counts' = counts
  end.
Proof.
  intros Hr. split.
  { pose proof (inv__keep_min_worker_of_node_type
                  (fun x => erase x = erase s) (erase_call (erase s))
                  n counts s eq_refl) as He.
    by rewrite Hr in He. }
  unfold _keep_min_worker_of_node_type in Hr.
  apply bind_ok_inv in Hr as (tags & s1 & Htags & Hr).
  apply provider_read_ok_inv in Htags as [-> He].
  destruct (p_tags (provider s) n !! TAG_RAY_USER_NODE_TYPE) as [t|];
    [|by injection Hr as <- <- _].
  apply bind_ok_inv in Hr as (? & ? & [= <- <-] & Hr).
  apply bind_ok_inv in Hr as (nt & ? & Hnt & Hr).
  apply getitem_ok_inv in Hnt as [Hnt ->].
  rewrite (erase_available_node_types _ _ He) in Hnt.
  exists nt. rewrite lookup_insert_eq in Hr. cbn in Hr.
  destruct (_ <=? _) eqn:Hle; injection Hr as <- <- _; by rewrite ?Hle.
Qed.

End read_only.

(** ** Step 2: the walk over the workers *)

Section walk.
Context `{Collaborators}.

Lemma terminate_idle_or_outdated_spec e0 last_used horizon allowed sorted :
  forall counts acc s l s',
  erase s = erase e0 ->
  map_Forall (fun _ c => 0 <= c) counts ->
  terminate_idle_or_outdated sorted last_used horizon allowed counts acc s
  = (Ok l, s') ->
  (forall n, n ∈ acc -> n ∈ l)
  /\ (forall n, n ∈ sorted ->
        n ∈ l
        \/ launch_hash_matches (config e0) (p_tags (provider e0) n) = Ok true)
  /\ (forall n t nt tm, n ∈ sorted ->
        p_tags (provider e0) n !! TAG_RAY_USER_NODE_TYPE = Some t ->
        available_node_types e0 !! t = Some nt ->
        nt_max_workers nt = None ->
        default true (allowed !! n) = true ->
        last_used !! p_ip (provider e0) n = Some tm ->
        tm < horizon ->
        n ∈ l).
Proof.
  induction sorted as [|n0 rest IH]; intros counts acc s l s' He Hc Hr.
  { injection Hr as <- _. split; [done|].
    split; [intros n Hn|intros n t nt tm Hn]; by apply elem_of_nil in Hn. }
  cbn [terminate_idle_or_outdated] in Hr.
  apply bind_ok_inv in Hr as ([keep_min counts'] & s1 & Hkeep & Hr).
  apply _keep_min_worker_of_node_type_ok_inv in Hkeep as [He1 Hkeep].
  rewrite (erase_p_tags _ _ He), (erase_available_node_types _ _ He)
    in Hkeep.
  rewrite He in He1.
  assert (map_Forall (fun _ c => 0 <= c) counts') as Hc'.
  { destruct (p_tags (provider e0) n0 !! TAG_RAY_USER_NODE_TYPE) as [t|].
    - destruct Hkeep as (nt & _ & -> & _).
      apply map_Forall_insert_2; [|done].
      destruct (counts !! t) as [c|] eqn:Hct; cbn; [|lia].
      specialize (Hc t c Hct). cbn in Hc. lia.
    - by destruct Hkeep as [_ ->]. }
  assert (forall t nt,
            p_tags (provider e0) n0 !! TAG_RAY_USER_NODE_TYPE = Some t ->
            available_node_types e0 !! t = Some nt ->
            nt_max_workers nt = None -> keep_min = false) as Hnokeep.
  { intros t nt Ht Hnt Hmax. rewrite Ht in Hkeep.
    destruct Hkeep as (nt' & Hnt' & _ & ->).
    assert (nt' = nt) as -> by congruence. rewrite Hmax. cbn.
    apply Z.leb_gt.
    assert (0 <= default 0 (counts !! t)).
    { destruct (counts !! t) as [c|] eqn:Hct; cbn; [|lia].
      by apply (Hc t c). }
    lia. }
  clear Hkeep.
  apply bind_ok_inv in Hr as (skip & s2 & Hskip & Hr).
  assert (erase s2 = erase e0
          /\ (skip = true ->
              launch_hash_matches (config e0) (p_tags (provider e0) n0)
              = Ok true)
          /\ (skip = true ->
              keep_min || negb (default true (allowed !! n0)) = true))
    as (He2 & Hmatch & Hcond).
  { destruct (keep_min || negb (default true (allowed !! n0))).
    - apply launch_config_ok_ok_inv in Hskip as [Hm He2].
      rewrite (erase_config _ _ He1), (erase_p_tags _ _ He1) in Hm.
      rewrite He1 in He2. split; [done|]. split; [|done].
      intros ->. done.
    - injection Hskip as <- <-. done. }
  clear Hskip.
  destruct skip.
  { specialize (Hmatch eq_refl). specialize (Hcond eq_refl).
    destruct (IH _ _ _ _ _ He2 Hc' Hr) as (IHa & IHb & IHc).
    split; [done|]. split.
    - intros n Hn. apply elem_of_cons in Hn as [Heq|Hn]; [subst n|];
        [by right|by apply IHb].
    - intros n t nt tm Hn Ht Hnt Hmax Hall Hlu Htm.
      apply elem_of_cons in Hn as [Heq|Hn]; [subst n|by apply (IHc n t nt tm)].
      rewrite (Hnokeep t nt Ht Hnt Hmax), Hall in Hcond. done. }
  clear Hmatch Hcond.
  apply bind_ok_inv in Hr as (ip & s3 & Hip & Hr).
  apply internal_ip_ok_inv in Hip as [-> He3].
  rewrite (erase_p_ip _ _ He2) in Hr. rewrite He2 in He3.
  destruct (last_used !! p_ip (provider e0) n0) as [tm0|] eqn:Hlu0;
    [destruct (tm0 <? horizon) eqn:Hidle|].
  - destruct (IH _ _ _ _ _ He3 Hc' Hr) as (IHa & IHb & IHc).
    assert (n0 ∈ l) by (apply IHa, elem_of_app; right; constructor).
    split; [intros n' Hn'; apply IHa, elem_of_app; by left|].
    split.
    + intros n Hn. apply elem_of_cons in Hn as [Heq|Hn]; [subst n; by left|].
      by apply IHb.
    + intros n t nt tm Hn. apply elem_of_cons in Hn as [Heq|Hn]; [by subst n|].
      by apply (IHc n t nt tm).
  - apply bind_ok_inv in Hr as (ok & s4 & Hok & Hr).
    apply launch_config_ok_ok_inv in Hok as [Hm He4].
    rewrite (erase_config _ _ He3), (erase_p_tags _ _ He3) in Hm.
    rewrite He3 in He4.
    assert (forall tm,
              last_used !! p_ip (provider e0) n0 = Some tm -> tm < horizon ->
              False) as Hnotidle.
    { intros tm Hlu Htm. rewrite Hlu0 in Hlu.
      injection Hlu as ->. apply Z.ltb_ge in Hidle. lia. }
    destruct ok; cbn in Hr;
      destruct (IH _ _ _ _ _ He4 Hc' Hr) as (IHa & IHb & IHc).
    + split; [done|]. split.
      * intros n Hn. apply elem_of_cons in Hn as [Heq|Hn]; [subst n|];
          [by right|by apply IHb].
      * intros n t nt tm Hn ? ? ? ? Hlu Htm.
        apply elem_of_cons in Hn as [Heq|Hn];
          [subst n|by apply (IHc n t nt tm)].
        by destruct (Hnotidle tm).
    + assert (n0 ∈ l) by (apply IHa, elem_of_app; right; constructor).
      split; [intros n' Hn'; apply IHa, elem_of_app; by left|].
      split.
      * intros n Hn.
        apply elem_of_cons in Hn as [Heq|Hn]; [subst n; by left|].
        by apply IHb.
      * intros n t nt tm Hn.
        apply elem_of_cons in Hn as [Heq|Hn]; [by subst n|].
        by apply (IHc n t nt tm).
  - apply bind_ok_inv in Hr as (ok & s4 & Hok & Hr).
    apply launch_config_ok_ok_inv in Hok as [Hm He4].
    rewrite (erase_config _ _ He3), (erase_p_tags _ _ He3) in Hm.
    rewrite He3 in He4.
    destruct ok; cbn in Hr;
      destruct (IH _ _ _ _ _ He4 Hc' Hr) as (IHa & IHb & IHc).
    + split; [done|]. split.
      * intros n Hn. apply elem_of_cons in Hn as [Heq|Hn]; [subst n|];
          [by right|by apply IHb].
      * intros n t nt tm Hn ? ? ? ? Hlu Htm.
        apply elem_of_cons in Hn as [Heq|Hn];
          [subst n|by apply (IHc n t nt tm)].
        congruence.
    + assert (n0 ∈ l) by (apply IHa, elem_of_app; right; constructor).
      split; [intros n' Hn'; apply IHa, elem_of_app; by left|].
      split.
      * intros n Hn.
        apply elem_of_cons in Hn as [Heq|Hn]; [subst n; by left|].
        by apply IHb.
      * intros n t nt tm Hn.
        apply elem_of_cons in Hn as [Heq|Hn]; [by subst n|].
        by apply (IHc n t nt tm).
Qed.

(** The walk returns when the provider answers and the workers are known. *)
Lemma terminate_idle_or_outdated_returns e0 last_used horizon allowed sorted :
  forall counts acc s,
  answering s -> erase s = erase e0 ->
  forallb (known_worker e0) sorted = true ->
  exists l,
    (terminate_idle_or_outdated sorted last_used horizon allowed counts acc
       s).1 = Ok l.
Proof.
  induction sorted as [|n rest IH]; intros counts acc s Ha He Hk;
    [by eexists|].
  cbn [forallb] in Hk. apply andb_true_iff in Hk as [Hn Hrest].
  unfold known_worker in Hn. apply andb_true_iff in Hn as [Hty Hm].
  destruct (launch_hash_matches (config e0) (p_tags (provider e0) n))
    as [ok| |] eqn:Hok; [|done..]. clear Hm.
  destruct (erase_fields _ _ He) as (Hc & Hant & _ & _ & _ & Htags).
  cbn [terminate_idle_or_outdated].
  destruct (_keep_min_worker_of_node_type_answering n counts s Ha)
    as [[keep_min counts'] Hkeep].
  { rewrite Htags, Hant.
    destruct (p_tags (provider e0) n !! TAG_RAY_USER_NODE_TYPE); [|done].
    by apply bool_decide_eq_true in Hty. }
  rewrite (bind_eq _ _ _ _ _ Hkeep).
  set (s1 := set_provider _ s).
  assert (erase s1 = erase e0) as He1 by done.
  assert (answering s1) as Ha1 by done.
  assert (forall x, answering x -> erase x = erase e0 ->
            launch_config_ok n x
            = (Ok ok,
               set_provider (log_call (Call_node_tags n) (provider x)) x))
    as Hlco.
  { intros x Hax Hex. rewrite (launch_config_ok_answering n x Hax).
    destruct (erase_fields _ _ Hex) as (Hcx & _ & _ & _ & _ & Htx).
    by rewrite Hcx, Htx, Hok. }
  clearbody s1. clear Hkeep.
  destruct (keep_min || negb (default true (allowed !! n))).
  - rewrite (bind_eq _ _ _ _ _ (Hlco s1 Ha1 He1)).
    set (s2 := set_provider _ s1).
    assert (erase s2 = erase e0) as He2 by done.
    assert (answering s2) as Ha2 by done.
    clearbody s2. destruct ok; [by apply IH|].
    unfold internal_ip at 1.
    rewrite (bind_eq _ _ _ _ _ (provider_read_answering _ _ s2 Ha2)).
    set (s3 := set_provider _ s2).
    assert (erase s3 = erase e0) as He3 by done.
    assert (answering s3) as Ha3 by done.
    clearbody s3.
    destruct (match last_used !! _ with Some _ => _ | None => _ end);
      [by apply IH|].
    rewrite (bind_eq _ _ _ _ _ (Hlco s3 Ha3 He3)). cbn [negb].
    by apply IH.
  - rewrite (bind_eq (ret false) _ _ _ _ eq_refl).
    unfold internal_ip at 1.
    rewrite (bind_eq _ _ _ _ _ (provider_read_answering _ _ s1 Ha1)).
    set (s3 := set_provider _ s1).
    assert (erase s3 = erase e0) as He3 by done.
    assert (answering s3) as Ha3 by done.
    clearbody s3.
    destruct (match last_used !! _ with Some _ => _ | None => _ end);
      [by apply IH|].
    rewrite (bind_eq _ _ _ _ _ (Hlco s3 Ha3 He3)).
    destruct ok; by apply IH.
Qed.

End walk.

Section walk_claims.
Context `{Collaborators}.

(** C1.  A worker whose [RAY_LAUNCH_CONFIG] tag differs from the launch
    hash computed from the current config is added to the termination set
    by the walk of step 2, whatever the min-workers counters and the
    request-resources protection say; a worker the walk leaves out of the
    termination set has a matching launch hash, so the protections skip a
    node only when its hash matches.  The walk returns when the provider
    answers and the workers are known. *)
Theorem outdated_node_is_terminated s sorted last_used horizon allowed :
  (forall l i n,
     (terminate_idle_or_outdated sorted last_used horizon allowed ∅ [] s).1
     = Ok l ->
     sorted !! i = Some n ->
     (launch_hash_matches (config s) (p_tags (provider s) n) = Ok false ->
      n ∈ l)
     /\ (n ∉ l ->
         launch_hash_matches (config s) (p_tags (provider s) n) = Ok true))
  /\ (answering s ->
      forallb (known_worker s) sorted = true ->
      exists l,
        (terminate_idle_or_outdated sorted last_used horizon allowed ∅ [] s).1
        = Ok l).
Proof.
  split; [|intros Ha Hk; by apply (terminate_idle_or_outdated_returns s)].
  intros l i n Hr Hn.
  destruct (terminate_idle_or_outdated _ _ _ _ _ _ s) as [r s'] eqn:Hw.
  cbn in Hr. subst r.
  destruct (terminate_idle_or_outdated_spec s _ _ _ _ _ _ _ _ _ eq_refl
              (map_Forall_empty _) Hw) as (_ & Hb & _).
  apply list_elem_of_lookup_2 in Hn.
  destruct (Hb n Hn) as [Hin|Hm].
  - split; [done|]. by intros Hnot.
  - split; [|done]. rewrite Hm. by intros.
Qed.

(** C10.  A node type without [max_workers] is handled as
    [max_workers = 0]: [min(min_workers, max_workers)] is 0 (for a
    [min_workers] that is not negative), [_keep_min_worker_of_node_type]
    answers [False] for every node of the type, and an idle node of the
    type that request-resources does not protect is added to the
    termination set by the walk of step 2, whatever its [min_workers]. *)
Theorem min_workers_needs_max_workers s n t nt :
  p_tags (provider s) n !! TAG_RAY_USER_NODE_TYPE = Some t ->
  available_node_types s !! t = Some nt ->
  nt_max_workers nt = None ->
  (0 <= default 0 (nt_min_workers nt) ->
   Z.min (default 0 (nt_min_workers nt)) (default 0 (nt_max_workers nt)) = 0)
  /\ (forall counts,
        map_Forall (fun _ c => 0 <= c) counts ->
        (forall keep counts',
           (_keep_min_worker_of_node_type n counts s).1 = Ok (keep, counts') ->
           keep = false)
        /\ (answering s ->
            (_keep_min_worker_of_node_type n counts s).1
            = Ok (false, <[t := default 0 (counts !! t) + 1]> counts)))
  /\ (forall sorted last_used horizon allowed,
        (forall l i tm,
           (terminate_idle_or_outdated sorted last_used horizon allowed
              ∅ [] s).1 = Ok l ->
           sorted !! i = Some n ->
           default true (allowed !! n) = true ->
           last_used !! p_ip (provider s) n = Some tm ->
           tm < horizon ->
           n ∈ l)
        /\ (answering s ->
            forallb (known_worker s) sorted = true ->
            exists l,
              (terminate_idle_or_outdated sorted last_used horizon allowed
                 ∅ [] s).1 = Ok l)).
Proof.
  intros Ht Hnt Hmax.
  assert (forall counts keep counts',
            map_Forall (fun _ c => 0 <= c) counts ->
            (_keep_min_worker_of_node_type n counts s).1
            = Ok (keep, counts') ->
            keep = false
            /\ counts' = <[t := default 0 (counts !! t) + 1]> counts)
    as Hkeep.
  { intros counts keep counts' Hc Hk.
    destruct (_keep_min_worker_of_node_type n counts s) as [r s'] eqn:Hr.
    cbn in Hk. subst r.
    apply _keep_min_worker_of_node_type_ok_inv in Hr as [_ Hr].
    rewrite Ht in Hr. destruct Hr as (nt' & Hnt' & -> & ->).
    assert (nt' = nt) as -> by congruence. rewrite Hmax. cbn.
    split; [|done]. apply Z.leb_gt.
    assert (0 <= default 0 (counts !! t)); [|lia].
    destruct (counts !! t) as [c|] eqn:Hct; cbn; [|lia]. by apply (Hc t c). }
  split; [|split].
  - rewrite Hmax. cbn. lia.
  - intros counts Hc. split.
    + intros keep counts' Hk. by destruct (Hkeep counts keep counts' Hc Hk).
    + intros Ha.
      destruct (_keep_min_worker_of_node_type_answering n counts s Ha)
        as [[keep counts'] Hr]; [by rewrite Ht, Hnt|].
      rewrite Hr. cbn.
      destruct (Hkeep counts keep counts' Hc) as [-> ->]; [by rewrite Hr|].
      done.
  - intros sorted last_used horizon allowed.
    split; [|intros Ha Hk; by apply (terminate_idle_or_outdated_returns s)].
    intros l i tm Hr Hn Hall Hlu Htm.
    destruct (terminate_idle_or_outdated _ _ _ _ _ _ s) as [r s'] eqn:Hw.
    cbn in Hr. subst r.
    destruct (terminate_idle_or_outdated_spec s _ _ _ _ _ _ _ _ _ eq_refl
                (map_Forall_empty _) Hw) as (_ & _ & Hc).
    apply list_elem_of_lookup_2 in Hn. by apply (Hc n t nt tm).
Qed.

End walk_claims.

(** On [Cluster.outdated_cluster] the walk terminates [n1], whose launch
    hash is stale, although it is the first of two workers of a type with
    [min_workers = 2]. *)
Lemma outdated_node_is_terminated_witness :
  answering Cluster.outdated_cluster
  /\ forallb (known_worker Cluster.outdated_cluster) ["n1"; "n2"]%string
     = true
  /\ (terminate_idle_or_outdated ["n1"; "n2"]%string
        (last_used_time_by_ip (load_metrics Cluster.outdated_cluster)) 900 ∅
        ∅ [] Cluster.outdated_cluster).1 = Ok ["n1"%string]
  /\ (_keep_min_worker_of_node_type "n1" ∅ Cluster.outdated_cluster).1
     = Ok (true, {[ "A"%string := 1 ]})
  /\ launch_hash_matches (config Cluster.outdated_cluster)
       (p_tags (provider Cluster.outdated_cluster) "n1"%string) = Ok false
  /\ "n1"%string ∈ ["n1"%string]
  /\ exists l,
       (terminate_idle_or_outdated ["n1"; "n2"]%string
          (last_used_time_by_ip (load_metrics Cluster.outdated_cluster)) 900
          ∅ ∅ [] Cluster.outdated_cluster).1 = Ok l.
Proof.
  split; [reflexivity|]. split; [by vm_compute|].
  split; [by vm_compute|]. split; [by vm_compute|].
  split; [by vm_compute|]. split.
  - apply (proj1 (outdated_node_is_terminated Cluster.outdated_cluster
                    ["n1"; "n2"]%string
                    (last_used_time_by_ip
                       (load_metrics Cluster.outdated_cluster))
                    900 ∅) ["n1"%string] 0%nat "n1"%string);
      by vm_compute.
  - apply (proj2 (outdated_node_is_terminated Cluster.outdated_cluster
                    ["n1"; "n2"]%string
                    (last_used_time_by_ip
                       (load_metrics Cluster.outdated_cluster))
                    900 ∅));
      [reflexivity | by vm_compute].
Defined.

(** On [Cluster.idle_cluster] the only worker is idle and is terminated,
    although its type asks for [min_workers = 2]. *)
Lemma min_workers_needs_max_workers_witness :
  p_tags (provider Cluster.idle_cluster) "n1"%string
    !! TAG_RAY_USER_NODE_TYPE = Some "A"%string
  /\ available_node_types Cluster.idle_cluster !! "A"%string
     = Some (Cluster.type_A (Some 2) None)
  /\ (terminate_idle_or_outdated ["n1"%string]
        (last_used_time_by_ip (load_metrics Cluster.idle_cluster)) 900 ∅
        ∅ [] Cluster.idle_cluster).1 = Ok ["n1"%string]
  /\ (_keep_min_worker_of_node_type "n1" ∅ Cluster.idle_cluster).1
     = Ok (false, {[ "A"%string := 1 ]})
  /\ "n1"%string ∈ ["n1"%string].
Proof.
  split; [by vm_compute|]. split; [by vm_compute|].
  split; [by vm_compute|]. split; [by vm_compute|].
  apply (proj1 (proj2 (proj2
           (min_workers_needs_max_workers Cluster.idle_cluster "n1"%string
              "A"%string (Cluster.type_A (Some 2) None)
              ltac:(by vm_compute) ltac:(by vm_compute) eq_refl))
           ["n1"%string]
           (last_used_time_by_ip (load_metrics Cluster.idle_cluster))
           900 ∅) ["n1"%string] 0%nat 100);
    by vm_compute.
Defined.

(** ** The failure budget of [update] *)

(** Discharges the side conditions of the [inv_] lemmas for an invariant
    that the state change at hand does not touch. *)
Ltac frame_solve := intros; cbn in *; first [assumption | done].

(** Invariance through the methods, for such an invariant. *)
Ltac inv_method :=
  first
    [ apply inv_node_tags | apply inv_internal_ip
    | apply inv_non_terminated_nodes | apply inv_terminate_nodes
    | apply inv_workers | apply inv_all_workers
    | apply inv_launch_config_ok | apply inv_files_up_to_date
    | apply inv_can_update | apply inv__get_node_type_specific_fields
    | apply inv__get_node_specific_docker_config
    | apply inv__node_resources | apply inv_should_update
    | apply inv_log_info_string ];
  frame_solve.

Ltac inv_solve := repeat first [ inv_step | inv_method | frame_solve ].

Section update_claims.
Context `{Collaborators}.

Lemma tick_num_failures now s : num_failures (tick now s).2 = num_failures s.
Proof.
  apply (inv_tick (fun x => num_failures x = num_failures s)); frame_solve.
Qed.

Lemma tick_max_failures now s : max_failures (tick now s).2 = max_failures s.
Proof.
  apply (inv_tick (fun x => max_failures x = max_failures s)); frame_solve.
Qed.

(** The [except] clause, for a config that names the provider type. *)
Lemma on_tick_exception_eq e s ty :
  provider_type (config s) = Some ty ->
  let k8s_connection_error :=
    bool_decide (ty = "kubernetes"%string) && isinstance_MaxRetryError e in
  let failures :=
    if k8s_connection_error then num_failures s else num_failures s + 1 in
  (on_tick_exception e s).1
  = (if failures >? max_failures s then Raise e else Ok tt)
  /\ num_failures (on_tick_exception e s).2 = failures
  /\ max_failures (on_tick_exception e s).2 = max_failures s.
Proof.
  unfold provider_type. intros Hty.
  destruct (c_provider (config s)) as [pc|] eqn:Hpc; [|done].
  unfold on_tick_exception, bind, self, assign, _internal_kv_put. cbn.
  destruct (kv_initialized s); cbn; rewrite Hpc; cbn; rewrite Hty; cbn;
    destruct (bool_decide (ty = "kubernetes"%string) && _); cbn;
    by destruct (_ >? _).
Qed.

Lemma update_failure_budget now s e ty :
  (tick now s).1 = Raise e ->
  provider_type (config (tick now s).2) = Some ty ->
  let k8s_connection_error :=
    bool_decide (ty = "kubernetes"%string) && isinstance_MaxRetryError e in
  let failures :=
    if k8s_connection_error then num_failures s else num_failures s + 1 in
  num_failures (update now s).2 = failures
  /\ (update now s).1
     = (if failures >? max_failures s then Raise e else Ok tt).
Proof.
  intros Ht Hty.
  pose proof (tick_num_failures now s) as Hnf.
  pose proof (tick_max_failures now s) as Hmf.
  unfold update. destruct (tick now s) as [r s1]. cbn in *. subst r.
  destruct (on_tick_exception_eq e s1 ty Hty) as (Hr & Hn & _).
  cbn in *. rewrite Hnf, Hmf in *. by rewrite Hr, Hn.
Qed.

(** C4.  When the tick raises [e], [update] adds exactly one to
    [num_failures], unless the provider type is ["kubernetes"] and [e] is a
    [MaxRetryError], in which case [num_failures] is unchanged; and it
    re-raises [e] if and only if, after that, [num_failures] is above
    [max_failures], returning normally otherwise. *)
Theorem update_counts_tick_failures now s e ty :
  (tick now s).1 = Raise e ->
  provider_type (config (tick now s).2) = Some ty ->
  num_failures (update now s).2
  = (if bool_decide (ty = "kubernetes"%string) && isinstance_MaxRetryError e
     then num_failures s
     else num_failures s + 1)
  /\ ((update now s).1 = Raise e
      <-> num_failures (update now s).2 > max_failures s)
  /\ ((update now s).1 = Raise e \/ (update now s).1 = Ok tt).
Proof.
  intros Ht Hty.
  destruct (update_failure_budget now s e ty Ht Hty) as [Hn Hr].
  cbn in Hn, Hr. split; [done|]. rewrite Hn, Hr.
  destruct (_ >? _) eqn:Hgt.
  - apply Z.gtb_gt in Hgt. split; [|by left]. split; [lia | done].
  - split; [|by right]. split; [done|].
    intros Hlt. apply Z.gtb_gt in Hlt. congruence.
Qed.

(** ** The throttle *)

Lemma _update_throttled now s :
  now - last_update_time s < update_interval_s s ->
  _update now s = (Ok tt, s).
Proof.
  intros Hlt. unfold _update, bind, self. cbn.
  apply Z.ltb_lt in Hlt. by rewrite Hlt.
Qed.

Lemma _update_sets_last_update_time now s :
  update_interval_s s <= now - last_update_time s ->
  last_update_time (_update now s).2 = now.
Proof.
  intros Hge. unfold _update, bind at 1, self. cbn.
  apply Z.ltb_ge in Hge. rewrite Hge.
  unfold bind, assign. cbn.
  apply (inv_reconcile (fun x => last_update_time x = now)); frame_solve.
Qed.

Lemma reset_last_update_time b s :
  last_update_time (reset b s).2 = last_update_time s
  /\ update_interval_s (reset b s).2 = update_interval_s s.
Proof.
  split.
  - apply (inv_reset (fun x => last_update_time x = last_update_time s));
      frame_solve.
  - apply (inv_reset (fun x => update_interval_s x = update_interval_s s));
      frame_solve.
Qed.

Lemma reset_returns s : (reset false s).1 = Ok tt.
Proof.
  unfold reset. destruct (reset_body _ s) as [[[]|e|] s1] eqn:Hb; try done.
  exfalso. revert Hb. unfold reset_body, bind, self, assign, getitem. cbn.
  destruct (config_file s) as [e|new_config]; cbn; [done|].
  repeat (match goal with
          | |- context [match ?o with Some _ => _ | None => _ end] =>
              destruct o; cbn
          end; try done).
Qed.

Lemma update_sets_last_update_time now s :
  update_interval_s s <= now - last_update_time s ->
  last_update_time (update now s).2 = now.
Proof.
  intros Hge. unfold update.
  assert (last_update_time (tick now s).2 = now) as Ht.
  { unfold tick. unfold bind at 1.
    destruct (reset_last_update_time false s) as [Hl Hi].
    pose proof (reset_returns s) as Hr.
    destruct (reset false s) as [r s1]. cbn in *. subst r.
    apply _update_sets_last_update_time. by rewrite Hl, Hi. }
  destruct (tick now s) as [[[]|e|] s1]; cbn in *; try done.
  apply (inv_on_tick_exception (fun x => last_update_time x = now));
    frame_solve.
Qed.

(** C7, amended.  The throttle counts from the last tick that got past it,
    whether that tick then succeeded or failed: if fewer than
    [update_interval_s] seconds have passed since [last_update_time],
    [_update] returns at once and leaves everything as it is (no provider
    call is made, nothing is terminated or launched); a tick that gets
    past the throttle sets [last_update_time] to its own time before the
    body runs, whatever the outcome of the body. *)
Theorem throttle_counts_from_last_started_tick now s :
  (now - last_update_time s < update_interval_s s ->
   _update now s = (Ok tt, s))
  /\ (update_interval_s s <= now - last_update_time s ->
      last_update_time (_update now s).2 = now
      /\ last_update_time (update now s).2 = now).
Proof.
  split; [apply _update_throttled|].
  intros Hge. split;
    [by apply _update_sets_last_update_time
    | by apply update_sets_last_update_time].
Qed.

End update_claims.

(** On [Cluster.fresh_cluster] the tick raises [ValueError]; the provider
    is not Kubernetes and the failure is counted. *)
Lemma update_counts_tick_failures_witness :
  (tick 10 Cluster.fresh_cluster).1
  = Raise (ValueError "min() arg is an empty sequence")
  /\ provider_type (config (tick 10 Cluster.fresh_cluster).2)
     = Some "aws"%string
  /\ num_failures (update 10 Cluster.fresh_cluster).2
     = num_failures Cluster.fresh_cluster + 1.
Proof.
  split; [by vm_compute|]. split; [by vm_compute|].
  apply (update_counts_tick_failures 10 Cluster.fresh_cluster
           (ValueError "min() arg is an empty sequence") "aws"%string);
    by vm_compute.
Defined.

(** On a Kubernetes cluster a [MaxRetryError] of the provider is caught and
    not counted. *)
Lemma k8s_connection_error_is_not_counted :
  (tick 10 Cluster.k8s_cluster_api_down).1 = Raise MaxRetryError
  /\ (update 10 Cluster.k8s_cluster_api_down).1 = Ok tt
  /\ num_failures (update 10 Cluster.k8s_cluster_api_down).2 = 0.
Proof. by vm_compute. Qed.

Lemma throttle_counts_from_last_started_tick_witness :
  (3 - last_update_time Cluster.fresh_cluster
   < update_interval_s Cluster.fresh_cluster)
  /\ _update 3 Cluster.fresh_cluster = (Ok tt, Cluster.fresh_cluster)
  /\ (update_interval_s Cluster.fresh_cluster
      <= 10 - last_update_time Cluster.fresh_cluster)
  /\ last_update_time (update 10 Cluster.fresh_cluster).2 = 10.
Proof.
  split; [by vm_compute|]. split.
  { apply (throttle_counts_from_last_started_tick 3 Cluster.fresh_cluster).
    by vm_compute. }
  split; [by vm_compute|].
  apply (throttle_counts_from_last_started_tick 10 Cluster.fresh_cluster).
  by vm_compute.
Defined.

(** C7, as stated, fails.  On [Cluster.fresh_cluster], constructed at time
    0 with an interval of 5 seconds, the tick at time 10 fails; it has
    moved [last_update_time] to 10 all the same, so that the tick at time
    14 is throttled and makes no provider call, although no tick has
    succeeded in the 14 seconds before it. *)
Lemma failed_tick_pushes_back_next_tick :
  (exists e, (tick 10 Cluster.fresh_cluster).1 = Raise e)
  /\ last_update_time Cluster.fresh_cluster = 0
  /\ last_update_time (update 10 Cluster.fresh_cluster).2 = 10
  /\ _update 14 (update 10 Cluster.fresh_cluster).2
     = (Ok tt, (update 10 Cluster.fresh_cluster).2)
  /\ p_calls (provider (_update 14 Cluster.fresh_cluster).2) <> []
  /\ ~ (forall now s,
          (exists e, (tick now s).1 = Raise e) ->
          last_update_time (update now s).2 = last_update_time s).
Proof.
  assert (exists e, (tick 10 Cluster.fresh_cluster).1 = Raise e) as Hfail.
  { eexists. by vm_compute. }
  assert (last_update_time (update 10 Cluster.fresh_cluster).2 = 10) as Hl
    by by vm_compute.
  split; [done|]. split; [done|]. split; [done|]. split.
  { apply _update_throttled. rewrite Hl. by vm_compute. }
  split; [by vm_compute|].
  intros Hclaim. specialize (Hclaim 10 Cluster.fresh_cluster Hfail).
  rewrite Hl in Hclaim. by vm_compute in Hclaim.
Qed.

(** ** A tick without any last-used time *)

Lemma bind_raises {A B} (P : StandardAutoscaler -> Prop) (m : M A)
    (k : A -> M B) :
  never_diverges m -> inv P m ->
  (forall a s, P s -> exists e, (k a s).1 = Raise e) ->
  forall s, P s -> exists e, (bind m k s).1 = Raise e.
Proof.
  intros Hm Hi Hk s Hs. unfold bind. specialize (Hm s). specialize (Hi s Hs).
  destruct (m s) as [[a|e|] s1]; cbn in *; [by apply Hk|by exists e|done].
Qed.

Lemma bind_raises_exactly {A B} (P : StandardAutoscaler -> Prop) (m : M A)
    (k : A -> M B) e :
  (forall s, P s -> exists a, (m s).1 = Ok a) -> inv P m ->
  (forall a s, P s -> (k a s).1 = Raise e) ->
  forall s, P s -> (bind m k s).1 = Raise e.
Proof.
  intros Hm Hi Hk s Hs. unfold bind.
  destruct (Hm s Hs) as [a Ha]. specialize (Hi s Hs).
  destruct (m s) as [r s1]; cbn in *. subst r. by apply Hk.
Qed.

Lemma never_diverges_provider_read {A} c (f : Provider -> A) :
  never_diverges (provider_read c f).
Proof. intros s. unfold provider_read. by destruct (p_faults _ !! _). Qed.

Lemma never_diverges_bind {A B} (m : M A) (k : A -> M B) :
  never_diverges m -> (forall a, never_diverges (k a)) ->
  never_diverges (bind m k).
Proof.
  intros Hm Hk s. unfold bind. specialize (Hm s).
  destruct (m s) as [[a|e|] s1]; cbn in *; [apply Hk|done|done].
Qed.

Lemma never_diverges_for_list {A B} (l : list A) (f : A -> M B) :
  (forall x, never_diverges (f x)) -> never_diverges (for_list l f).
Proof.
  intros Hf. induction l as [|x l IH]; cbn; [done|].
  apply never_diverges_bind; [done|]. intros y.
  apply never_diverges_bind; [done|]. by intros ys s.
Qed.

Lemma answers_provider_read {A} c (f : Provider -> A) s :
  p_faults (provider s) = ∅ -> exists a, (provider_read c f s).1 = Ok a.
Proof.
  intros Ha. rewrite (provider_read_answering c f s Ha). by eexists.
Qed.

Lemma min_values_empty : min_values ∅ = None.
Proof. unfold min_values. by rewrite map_to_list_empty. Qed.

Section empty_last_used.
Context `{Collaborators}.

Lemma _sort_based_on_last_used_empty nodes s :
  _sort_based_on_last_used nodes ∅ s
  = (Raise (ValueError "min() arg is an empty sequence"), s).
Proof.
  unfold _sort_based_on_last_used. by rewrite min_values_empty.
Qed.

Lemma never_diverges_workers : never_diverges workers.
Proof. apply never_diverges_provider_read. Qed.

Lemma never_diverges_all_workers : never_diverges all_workers.
Proof.
  unfold all_workers.
  apply never_diverges_bind; [apply never_diverges_workers|].
  intros w. apply never_diverges_bind;
    [apply never_diverges_provider_read|]. by intros u s.
Qed.

Lemma never_diverges_log_info_string nodes :
  never_diverges (log_info_string nodes).
Proof.
  intros s. unfold log_info_string, info_string, bind, self. cbn.
  by destruct (kv_initialized s).
Qed.

Lemma log_info_string_returns nodes s :
  exists a, (log_info_string nodes s).1 = Ok a.
Proof.
  unfold log_info_string, info_string, bind, self. cbn.
  destruct (kv_initialized s); by eexists.
Qed.

Lemma all_workers_answering s :
  p_faults (provider s) = ∅ -> exists a, (all_workers s).1 = Ok a.
Proof.
  intros Ha. unfold all_workers, workers, unmanaged_workers,
    non_terminated_nodes, bind.
  rewrite (provider_read_answering _ _ s Ha).
  rewrite provider_read_answering by done. by eexists.
Qed.

Lemma for_list_internal_ip_answering l s :
  p_faults (provider s) = ∅ ->
  exists a, (for_list l internal_ip s).1 = Ok a.
Proof.
  revert s. induction l as [|x l IH]; intros s Ha; cbn; [by eexists|].
  unfold bind at 1.
  replace (internal_ip x s) with
    (Ok (p_ip (provider s) x),
     set_provider (log_call (Call_internal_ip x) (provider s)) s)
    by (symmetry; by apply provider_read_answering).
  unfold bind.
  destruct (IH (set_provider (log_call (Call_internal_ip x) (provider s)) s)
              Ha) as [a Hl].
  destruct (for_list l internal_ip _) as [r s1]. cbn in Hl. subst r.
  by eexists.
Qed.

(** From [nodes = self.workers()] to the sort, with an empty
    [last_used_time_by_ip]: the tick body raises. *)
Lemma reconcile_empty_last_used now s :
  last_used_time_by_ip (load_metrics s) = ∅ ->
  exists e, (reconcile now s).1 = Raise e.
Proof.
  set (P := fun x : StandardAutoscaler =>
              last_used_time_by_ip (load_metrics x) = ∅).
  revert s. unfold reconcile.
  apply (bind_raises P);
    [apply never_diverges_workers | apply inv_workers; frame_solve |].
  intros nodes.
  apply (bind_raises P);
    [apply never_diverges_all_workers | apply inv_all_workers; frame_solve |].
  intros active.
  apply (bind_raises P);
    [apply never_diverges_for_list; intros x;
       apply never_diverges_provider_read
    | apply inv_for_list; intros x; apply inv_internal_ip; frame_solve |].
  intros ips.
  apply (bind_raises P).
  { by intros s. }
  { intros s Hs. unfold P in *. cbn. rewrite Hs. apply map_filter_empty. }
  intros _.
  apply (bind_raises P);
    [apply never_diverges_log_info_string
    | apply inv_log_info_string; frame_solve |].
  intros _ s Hs. unfold P in Hs.
  unfold bind at 1, self. cbn. rewrite Hs.
  unfold bind at 1.
  destruct (c_idle_timeout_minutes (config s)); cbn; [|by eexists].
  unfold bind at 1. rewrite _sort_based_on_last_used_empty. by eexists.
Qed.

(** The same when the provider answers: the exception is that of [min]
    when [idle_timeout_minutes] is configured, and the [KeyError] of line
    165 otherwise. *)
Lemma reconcile_empty_last_used_answering now s :
  p_faults (provider s) = ∅ ->
  last_used_time_by_ip (load_metrics s) = ∅ ->
  (reconcile now s).1
  = Raise (match c_idle_timeout_minutes (config s) with
           | Some _ => ValueError "min() arg is an empty sequence"
           | None => KeyError "idle_timeout_minutes"
           end).
Proof.
  intros Ha Hl.
  set (c := config s).
  set (P := fun x : StandardAutoscaler =>
              p_faults (provider x) = ∅
              /\ last_used_time_by_ip (load_metrics x) = ∅
              /\ config x = c).
  assert (P s) as Hs by done. clearbody c. clear Ha Hl. revert s Hs.
  unfold reconcile.
  apply (bind_raises_exactly P).
  { intros s (Ha & _). by apply answers_provider_read. }
  { apply inv_workers; frame_solve. }
  intros nodes.
  apply (bind_raises_exactly P).
  { intros s (Ha & _). by apply all_workers_answering. }
  { apply inv_all_workers; frame_solve. }
  intros active.
  apply (bind_raises_exactly P).
  { intros s (Ha & _). by apply for_list_internal_ip_answering. }
  { apply inv_for_list; intros x; apply inv_internal_ip; frame_solve. }
  intros ips.
  apply (bind_raises_exactly P).
  { intros s _. by eexists. }
  { intros s (Ha & Hl & Hc). unfold P. cbn. rewrite Hl.
    split; [done|]. split; [apply map_filter_empty|done]. }
  intros _.
  apply (bind_raises_exactly P).
  { intros s _. apply log_info_string_returns. }
  { apply inv_log_info_string; frame_solve. }
  intros _ s (Ha & Hl & Hc).
  unfold bind at 1, self. cbn. rewrite Hl, Hc.
  unfold bind at 1.
  destruct (c_idle_timeout_minutes c); cbn; [|done].
  unfold bind at 1. by rewrite _sort_based_on_last_used_empty.
Qed.

Lemma tick_eq now s :
  tick now s = _update now (reset false s).2.
Proof.
  unfold tick, bind. pose proof (reset_returns s) as Hr.
  destruct (reset false s) as [r s1]. cbn in *. by subst r.
Qed.

Lemma _update_eq now s :
  update_interval_s s <= now - last_update_time s ->
  _update now s = reconcile now (set_last_update_time now s).
Proof.
  intros Hge. unfold _update, bind, self, assign. cbn.
  apply Z.ltb_ge in Hge. by rewrite Hge.
Qed.

Lemma reset_load_metrics b s :
  load_metrics (reset b s).2 = load_metrics s
  /\ provider (reset b s).2 = provider s.
Proof.
  split.
  - apply (inv_reset (fun x => load_metrics x = load_metrics s)); frame_solve.
  - apply (inv_reset (fun x => provider x = provider s)); frame_solve.
Qed.

Lemma _update_config now s : config (_update now s).2 = config s.
Proof. apply (inv__update (fun x => config x = config s)); frame_solve. Qed.

(** C9.  With an empty [last_used_time_by_ip], [_sort_based_on_last_used]
    raises the [ValueError] of [min] over an empty collection, whatever
    the worker list.  So a tick that gets past the throttle fails; and
    when the provider answers its calls, the exception is that
    [ValueError] (for a config that has [idle_timeout_minutes]) and
    [update] counts the failure in [num_failures]. *)
Theorem tick_fails_without_last_used now s :
  last_used_time_by_ip (load_metrics s) = ∅ ->
  update_interval_s s <= now - last_update_time s ->
  (forall nodes s0,
     _sort_based_on_last_used nodes ∅ s0
     = (Raise (ValueError "min() arg is an empty sequence"), s0))
  /\ (exists e, (tick now s).1 = Raise e)
  /\ (answering s ->
      (forall i, c_idle_timeout_minutes (config (tick now s).2) = Some i ->
       (tick now s).1 = Raise (ValueError "min() arg is an empty sequence"))
      /\ (forall ty, provider_type (config (tick now s).2) = Some ty ->
          num_failures (update now s).2 = num_failures s + 1)).
Proof.
  intros Hl Hge.
  destruct (reset_last_update_time false s) as [Ht Hi].
  destruct (reset_load_metrics false s) as [Hlm Hp].
  assert (update_interval_s (reset false s).2
          <= now - last_update_time (reset false s).2) as Hge'
    by by rewrite Ht, Hi.
  split; [apply _sort_based_on_last_used_empty|]. split.
  { rewrite tick_eq, _update_eq by done.
    apply reconcile_empty_last_used. cbn. by rewrite Hlm. }
  unfold answering. intros Ha.
  assert ((tick now s).1
          = Raise (match c_idle_timeout_minutes (config (tick now s).2) with
                   | Some _ => ValueError "min() arg is an empty sequence"
                   | None => KeyError "idle_timeout_minutes"
                   end)) as Hr.
  { rewrite tick_eq, _update_config.
    rewrite _update_eq by done.
    rewrite reconcile_empty_last_used_answering; cbn; by rewrite ?Hlm, ?Hp. }
  split.
  - intros i Hidle. by rewrite Hr, Hidle.
  - intros ty Hty.
    destruct (update_failure_budget now s _ ty Hr Hty) as [Hn _].
    cbn in Hn. rewrite Hn.
    by destruct (c_idle_timeout_minutes _);
      rewrite andb_false_r.
Qed.

End empty_last_used.

Lemma tick_fails_without_last_used_witness :
  last_used_time_by_ip (load_metrics Cluster.fresh_cluster) = ∅
  /\ (update_interval_s Cluster.fresh_cluster
      <= 10 - last_update_time Cluster.fresh_cluster)
  /\ num_failures (update 10 Cluster.fresh_cluster).2
     = num_failures Cluster.fresh_cluster + 1.
Proof.
  split; [done|]. split; [by vm_compute|].
  apply (tick_fails_without_last_used 10 Cluster.fresh_cluster)
    with (ty := "aws"%string);
    [done | by vm_compute | done | by vm_compute].
Defined.

(** ** Step 5: completed updates *)

Section reap.
Context `{Collaborators}.

(** One reap marks at most one IP active, however many updaters it
    removes. *)
Lemma process_completed_updates_marks_at_most_one now nodes s :
  let before := lm_marked_active (load_metrics s) in
  let after :=
    lm_marked_active
      (load_metrics (process_completed_updates now nodes s).2) in
  after = before \/ exists ip, after = ip :: before.
Proof.
  cbv zeta. unfold process_completed_updates.
  rewrite (bind_eq self _ s (Ok s) s eq_refl).
  destruct (last _) as [last_node_id|]; [|by left].
  step_bind Hloop.
  assert (load_metrics s0 = load_metrics s) as Hlm.
  { change s0 with (r, s0).2. rewrite <-Hloop.
    apply (inv_for_each (fun x => load_metrics x = load_metrics s));
      [|done].
    intros x. inv_auto; frame_solve. }
  destruct r as [[]|e|]; [|left; cbn; by rewrite Hlm..].
  step_bind Hip.
  assert (load_metrics s1 = load_metrics s) as Hlm1.
  { change s1 with (r, s1).2. rewrite <-Hip.
    by apply (inv_internal_ip (fun x => load_metrics x = load_metrics s));
      [frame_solve|]. }
  destruct r as [ip|e|]; [|left; cbn; by rewrite Hlm1..].
  unfold mark_active.
  rewrite (bind_eq (assign _) _ s1 _ _ eq_refl).
  set (s3 := set_load_metrics _ s1).
  right. exists ip.
  transitivity (lm_marked_active (load_metrics s3));
    [|cbn; by rewrite Hlm1].
  apply (f_equal lm_marked_active).
  match goal with
  | |- load_metrics (?rest s3).2 = _ =>
      apply (fun Hi : inv (fun x => load_metrics x = load_metrics s3) rest =>
               Hi s3 eq_refl)
  end.
  inv_solve.
Qed.

End reap.

(** C5, at a failing input.  With two updaters that have ended, the reap
    counts both nodes as successfully updated and deletes both from
    [updaters], but it marks only the IP of the last of them active: the
    IP of [n1] is not marked and gets no fresh heartbeat. *)
Theorem reap_marks_only_the_last_node :
  let s' :=
    (process_completed_updates 1200 ["n1"; "n2"]%string
       Cluster.two_finished_updates).2 in
  updaters s' = []
  /\ num_successful_updates s' !! "n1"%string = Some 1
  /\ num_successful_updates s' !! "n2"%string = Some 1
  /\ p_ip (provider s') "n1"%string = "10.0.0.1"%string
  /\ lm_marked_active (load_metrics s') = ["10.0.0.2"%string]
  /\ last_heartbeat_time_by_ip (load_metrics s') !! "10.0.0.1"%string = None
  /\ last_heartbeat_time_by_ip (load_metrics s') !! "10.0.0.2"%string
     = Some 1200.
Proof. by vm_compute. Qed.

(** ** Step 3: too many workers *)

Lemma pop_Some {A} (l : list A) :
  forall init x, pop l = Some (init, x) -> l = init ++ [x].
Proof.
  induction l as [|y l IH]; intros init x; cbn; [done|].
  destruct l as [|z l']; [by intros [= <- <-]|].
  destruct (pop (z :: l')) as [[i la]|]; [|done].
  intros [= <- <-]. by rewrite (IH i la eq_refl).
Qed.

Lemma pop_nonempty {A} (l : list A) :
  nonempty l = true -> exists init x, pop l = Some (init, x).
Proof.
  induction l as [|y l IH]; cbn; [done|]. intros _.
  destruct l as [|z l']; [by eexists _, _|].
  destruct IH as (i & la & Hp); [done|]. rewrite Hp. by eexists _, _.
Qed.

Lemma terminate_unneeded_spec fuel max_workers :
  forall nodes acc kept selected,
  terminate_unneeded fuel max_workers nodes acc = Some (kept, selected) ->
  exists popped, nodes = kept ++ rev popped /\ selected = acc ++ popped.
Proof.
  induction fuel as [|fuel IH]; intros nodes acc kept selected; cbn;
    destruct (_ && _) eqn:Hcond; try done;
    try (intros [= <- <-]; exists []; by rewrite !app_nil_r).
  destruct (pop nodes) as [[nodes' x]|] eqn:Hpop; [|done].
  intros Hr. apply pop_Some in Hpop as ->.
  destruct (IH _ _ _ _ Hr) as (popped & -> & ->).
  exists (x :: popped). cbn. by rewrite <-!app_assoc.
Qed.

Lemma terminate_unneeded_fuel fuel max_workers :
  forall nodes acc,
  (length nodes <= fuel)%nat ->
  is_Some (terminate_unneeded fuel max_workers nodes acc).
Proof.
  induction fuel as [|fuel IH]; intros nodes acc Hlen; cbn;
    destruct (_ && _) eqn:Hcond; try done.
  - apply andb_true_iff in Hcond as [_ Hne].
    destruct nodes; [done | cbn in Hlen; lia].
  - apply andb_true_iff in Hcond as [_ Hne].
    destruct (pop_nonempty nodes Hne) as (nodes' & x & Hpop).
    rewrite Hpop. apply IH. apply pop_Some in Hpop as ->.
    rewrite length_app in Hlen. cbn in Hlen. lia.
Qed.

Lemma terminate_unneeded_selects fuel max_workers nodes kept selected :
  terminate_unneeded fuel max_workers nodes [] = Some (kept, selected) ->
  0 <= max_workers < Z.of_nat (length nodes) ->
  selected <> [].
Proof.
  intros Hr Hgt.
  assert (nonempty nodes = true) as Hne
    by (destruct nodes; cbn in *; [lia|done]).
  assert ((Z.of_nat (length nodes) - Z.of_nat (@length NodeID [])
           >? max_workers) = true) as Hc
    by (apply Z.gtb_gt; cbn; lia).
  destruct fuel as [|fuel]; cbn in Hr; cbn in Hc; rewrite Hc, Hne in Hr;
    [done|]. cbn in Hr.
  destruct (pop nodes) as [[nodes' x]|]; [|done].
  apply terminate_unneeded_spec in Hr as (popped & _ & ->). done.
Qed.

(** With 5 workers and room for 2, the loop of step 3 selects 2: each
    round shortens [nodes] and lengthens [nodes_to_terminate]. *)
Lemma terminate_unneeded_5_over_2 :
  terminate_unneeded 5 2 ["a"; "b"; "c"; "d"; "e"]%string []
  = Some (["a"; "b"; "c"]%string, ["e"; "d"]%string).
Proof. reflexivity. Qed.

(** C6, as stated, fails.  On [Cluster.over_capacity] the last-used
    ordering is [n2] (most recently used), [n1]; step 3 terminates [n2],
    which is not at the tail of that ordering, and the least recently used
    worker [n1] is the one that remains. *)
Lemma excess_is_not_taken_from_the_last_used_tail :
  (workers Cluster.over_capacity).1 = Ok ["n1"; "n2"]%string
  /\ (_sort_based_on_last_used ["n1"; "n2"]%string
        (last_used_time_by_ip (load_metrics Cluster.over_capacity))
        Cluster.over_capacity).1
     = Ok ["n2"; "n1"]%string
  /\ (terminate_too_many ["n1"; "n2"]%string Cluster.over_capacity).1
     = Ok (["n1"%string], ["n2"%string])
  /\ ~ taken_from_tail_of ["n2"%string] ["n2"; "n1"]%string
  /\ (update 1200 Cluster.over_capacity).1 = Ok tt
  /\ terminated (provider (update 1200 Cluster.over_capacity).2)
     = [["n2"%string]]
  /\ p_nodes (provider (update 1200 Cluster.over_capacity).2)
     = ["n1"%string].
Proof.
  split; [by vm_compute|]. split; [by vm_compute|].
  split; [by vm_compute|]. split; [|by vm_compute].
  intros [k Hk]. apply (f_equal last) in Hk. cbn in Hk.
  by rewrite last_snoc in Hk.
Qed.

(** ** One updater per node *)

Lemma PyDict_keys_set {V} (k : NodeID) (v : V) d :
  PyDict.keys (PyDict.set k v d)
  = if PyDict.contains d k then PyDict.keys d else PyDict.keys d ++ [k].
Proof.
  unfold PyDict.keys, PyDict.contains.
  induction d as [|[k' v'] d IH]; cbn; [done|].
  destruct (decide (k' = k)); cbn; [done|]. rewrite IH.
  by destruct (PyDict.get d k).
Qed.

Lemma PyDict_contains_keys {V} (k : NodeID) (d : list (NodeID * V)) :
  PyDict.contains d k = true <-> k ∈ PyDict.keys d.
Proof.
  unfold PyDict.keys, PyDict.contains.
  induction d as [|[k' v'] d IH]; cbn.
  - split; [done|]. by intros ?%elem_of_nil.
  - rewrite elem_of_cons. destruct (decide (k' = k)) as [->|Hne].
    + split; [by left|done].
    + rewrite IH. split; [by right|]. by intros [?|?].
Qed.

Lemma PyDict_NoDup_set {V} (k : NodeID) (v : V) d :
  NoDup (PyDict.keys d) -> NoDup (PyDict.keys (PyDict.set k v d)).
Proof.
  intros Hd. rewrite PyDict_keys_set.
  destruct (PyDict.contains d k) eqn:Hc; [done|].
  apply NoDup_app. split; [done|]. split; [|apply NoDup_singleton].
  intros x Hx ->%list_elem_of_singleton.
  apply PyDict_contains_keys in Hx. congruence.
Qed.

Lemma PyDict_NoDup_del {V} (k : NodeID) (d : list (NodeID * V)) :
  NoDup (PyDict.keys d) -> NoDup (PyDict.keys (PyDict.del k d)).
Proof.
  unfold PyDict.keys. intros Hd.
  assert (PyDict.del k d `sublist_of` d) as Hs.
  { clear Hd. induction d as [|[k' v'] d IH]; cbn; [done|].
    destruct (decide (k' = k)); [by apply sublist_cons|by apply sublist_skip]. }
  eapply sublist_NoDup; [done|]. by apply fmap_sublist.
Qed.

Section one_updater.
Context `{Collaborators}.

Lemma update_NoDup_updaters now s :
  NoDup (PyDict.keys (updaters s)) ->
  NoDup (PyDict.keys (updaters (update now s).2)).
Proof.
  apply (inv_update (fun x => NoDup (PyDict.keys (updaters x))));
    try frame_solve.
  - intros n u x. apply PyDict_NoDup_set.
  - intros n x. apply PyDict_NoDup_del.
Qed.

Lemma can_update_registered n s :
  PyDict.contains (updaters s) n = true -> can_update n s = (Ok false, s).
Proof.
  intros Hc. unfold can_update.
  rewrite (bind_eq self _ _ _ _ eq_refl). by rewrite Hc.
Qed.

Lemma can_update_true_inv n s s' :
  can_update n s = (Ok true, s') ->
  PyDict.contains (updaters s) n = false
  /\ launch_hash_matches (config s) (p_tags (provider s) n) = Ok true
  /\ ~ default 0 (num_failed_updates s !! n) > 0.
Proof.
  unfold can_update. rewrite (bind_eq self _ _ _ _ eq_refl).
  destruct (PyDict.contains (updaters s) n); [done|].
  intros Hr. split; [done|].
  apply bind_ok_inv in Hr as (ok & s1 & Hok & Hr).
  apply launch_config_ok_ok_inv in Hok as [Hm He].
  destruct ok; cbn [negb] in Hr; [|done]. split; [done|].
  rewrite (bind_eq self _ _ _ _ eq_refl) in Hr.
  apply (f_equal num_failed_updates) in He. cbn in He. rewrite He in Hr.
  destruct (bool_decide _) eqn:Hf; [done|].
  by apply bool_decide_eq_false in Hf.
Qed.

Lemma can_update_answering n s b :
  answering s ->
  PyDict.contains (updaters s) n = false ->
  launch_hash_matches (config s) (p_tags (provider s) n) = Ok b ->
  (can_update n s).1
  = Ok (b && negb (bool_decide (default 0 (num_failed_updates s !! n) > 0))).
Proof.
  intros Ha Hc Hm. unfold can_update.
  rewrite (bind_eq self _ _ _ _ eq_refl), Hc.
  rewrite (bind_eq _ _ _ _ _ (launch_config_ok_answering n s Ha)), Hm.
  destruct b; cbn [negb andb]; [|done].
  rewrite (bind_eq self _ _ _ _ eq_refl). cbn.
  by destruct (bool_decide _).
Qed.

Lemma can_update_updaters n s : updaters (can_update n s).2 = updaters s.
Proof.
  apply (inv_can_update (fun x => updaters x = updaters s)); frame_solve.
Qed.

Lemma should_update_refuses n s ui :
  (can_update n s).1 <> Ok true ->
  (should_update n s).1 = Ok ui -> ui = no_update.
Proof.
  intros Hcu. unfold should_update. step_bind Hc. cbn in Hcu.
  destruct r as [[]|e|]; cbn; [done | by intros [= <-] | done..].
Qed.

Lemma should_update_updaters n s : updaters (should_update n s).2 = updaters s.
Proof.
  apply (inv_should_update (fun x => updaters x = updaters s)); frame_solve.
Qed.

Lemma recover_if_needed_refuses n now s :
  (can_update n s).1 <> Ok true ->
  updaters (recover_if_needed n now s).2 = updaters s.
Proof.
  intros Hcu. pose proof (can_update_updaters n s) as Hu.
  unfold recover_if_needed. step_bind Hc. cbn in Hcu, Hu.
  by destruct r as [[]|e|]; cbn.
Qed.

(** C2.  [updaters] holds at most one entry per NodeID at every point of a
    tick: that is an invariant of every state change [update] makes.
    [can_update] returns [False] when the node is a key of [updaters],
    when its launch hash is stale, and when [num_failed_updates] of it is
    positive (for a provider that answers; it never returns [True] in
    these cases); and when [can_update] does not return [True],
    [should_update] returns only the null sentinel and [recover_if_needed]
    starts no updater. *)
Theorem one_updater_per_node now s n :
  (NoDup (PyDict.keys (updaters s)) ->
   NoDup (PyDict.keys (updaters (update now s).2)))
  /\ (PyDict.contains (updaters s) n = true ->
      can_update n s = (Ok false, s))
  /\ (answering s ->
      launch_hash_matches (config s) (p_tags (provider s) n) = Ok false ->
      (can_update n s).1 = Ok false)
  /\ (answering s ->
      default 0 (num_failed_updates s !! n) > 0 ->
      forall b,
        launch_hash_matches (config s) (p_tags (provider s) n) = Ok b ->
        (can_update n s).1 = Ok false)
  /\ (PyDict.contains (updaters s) n = true
      \/ launch_hash_matches (config s) (p_tags (provider s) n) = Ok false
      \/ default 0 (num_failed_updates s !! n) > 0 ->
      (can_update n s).1 <> Ok true)
  /\ ((can_update n s).1 <> Ok true ->
      (forall ui, (should_update n s).1 = Ok ui -> ui = no_update)
      /\ updaters (should_update n s).2 = updaters s
      /\ updaters (recover_if_needed n now s).2 = updaters s).
Proof.
  split; [apply update_NoDup_updaters|].
  split; [apply can_update_registered|].
  split.
  { intros Ha Hm.
    destruct (PyDict.contains (updaters s) n) eqn:Hc;
      [by rewrite can_update_registered|].
    by rewrite (can_update_answering n s false Ha Hc Hm). }
  split.
  { intros Ha Hf b Hm.
    destruct (PyDict.contains (updaters s) n) eqn:Hc;
      [by rewrite can_update_registered|].
    rewrite (can_update_answering n s b Ha Hc Hm).
    rewrite (bool_decide_eq_true_2 _ Hf). by rewrite andb_false_r. }
  split.
  { intros Hd Ht.
    destruct (can_update n s) as [r s'] eqn:Hcu. cbn in Ht. subst r.
    apply can_update_true_inv in Hcu as (Hc & Hm & Hf).
    destruct Hd as [?|[?|?]]; congruence. }
  intros Hcu. split; [intros ui; by apply should_update_refuses|].
  split; [apply should_update_updaters|by apply recover_if_needed_refuses].
Qed.

End one_updater.

(** On [Cluster.two_finished_updates], [n1] is a key of [updaters]:
    [can_update] returns [False] and a tick leaves [updaters] free of
    duplicates. *)
Lemma one_updater_per_node_witness :
  NoDup (PyDict.keys (updaters Cluster.two_finished_updates))
  /\ PyDict.contains (updaters Cluster.two_finished_updates) "n1"%string
     = true
  /\ NoDup (PyDict.keys (updaters (update 1200 Cluster.two_finished_updates).2))
  /\ can_update "n1" Cluster.two_finished_updates
     = (Ok false, Cluster.two_finished_updates).
Proof.
  assert (NoDup (PyDict.keys (updaters Cluster.two_finished_updates))) as Hd.
  { apply (bool_decide_unpack _). by vm_compute. }
  split; [done|]. split; [reflexivity|]. split.
  - by apply (one_updater_per_node 1200 Cluster.two_finished_updates "n1").
  - apply (one_updater_per_node 1200 Cluster.two_finished_updates "n1").
    reflexivity.
Defined.

(** ** The should-update decision *)

Lemma bind_fst {A B} (m : M A) (k : A -> M B) s :
  (bind m k s).1
  = match (m s).1 with
    | Ok a => (k a (m s).2).1
    | Raise e => Raise e
    | Diverge => Diverge
    end.
Proof. unfold bind. by destruct (m s) as [[a|e|] s1]. Qed.

Section should_update.
Context `{Collaborators}.

Lemma files_up_to_date_answering n s :
  answering s ->
  (files_up_to_date n s).1 = Ok (files_match s (p_tags (provider s) n)).
Proof.
  intros Ha. unfold files_up_to_date, node_tags.
  rewrite (bind_eq _ _ _ _ _ (provider_read_answering _ _ s Ha)).
  rewrite (bind_eq self _ _ _ _ eq_refl). unfold files_match. cbn.
  by destruct (_ || _).
Qed.

Lemma _get_node_type_specific_fields_answering {A} n s key
    (f : Config -> option A) g :
  answering s ->
  (_get_node_type_specific_fields n key f g s).1
  = node_type_fields s (p_tags (provider s) n) key f g.
Proof.
  intros Ha. unfold _get_node_type_specific_fields, node_type_fields.
  rewrite (bind_eq self _ _ _ _ eq_refl).
  destruct (f (config s)) as [fields|]; cbn [getitem]; [|done].
  rewrite (bind_eq (ret fields) _ s _ _ eq_refl).
  unfold node_tags.
  rewrite (bind_eq _ _ _ _ _ (provider_read_answering _ _ s Ha)).
  destruct (p_tags (provider s) n !! TAG_RAY_USER_NODE_TYPE) as [t|];
    [|done].
  rewrite (bind_eq self _ _ _ _ eq_refl). cbn.
  destruct (available_node_types s !! t) as [nt|]; [|done].
  by destruct (g nt).
Qed.

Lemma _get_node_specific_docker_config_answering n s :
  answering s ->
  (_get_node_specific_docker_config n s).1
  = docker_config_of s (p_tags (provider s) n).
Proof.
  intros Ha. unfold _get_node_specific_docker_config, docker_config_of.
  rewrite (bind_eq self _ _ _ _ eq_refl).
  destruct (c_docker (config s)) as [d|]; [|done].
  rewrite bind_fst, (_get_node_type_specific_fields_answering _ _ _ _ _ Ha).
  by destruct (node_type_fields _ _ _ _ _).
Qed.

(** The state a method that reads the provider leaves. *)
Lemma read_only_state {A} (m : M A) s :
  (forall P : StandardAutoscaler -> Prop,
     (forall c x, P x -> P (set_provider (log_call c (provider x)) x)) ->
     inv P m) ->
  answering s ->
  erase (m s).2 = erase s /\ answering (m s).2.
Proof.
  intros Hm Ha.
  assert (erase (m s).2 = erase s) as He.
  { apply (Hm (fun x => erase x = erase s)); [|done].
    intros c x. apply erase_call. }
  split; [done|]. by apply (erase_answering s).
Qed.

(** The commands of an update instruction follow the matrix. *)
Lemma update_commands_answering n s e0 :
  answering s -> erase s = erase e0 ->
  let prior :=
    bool_decide (default 0 (num_successful_updates e0 !! n) > 0) in
  let m : M (Commands * Commands) :=
    if prior && truthy_bool (c_restart_only (config e0)) then
      ray_commands <- getitem "worker_start_ray_commands"
                        (c_worker_start_ray_commands (config e0)) ;;
      ret ([], ray_commands)
    else if prior && truthy_bool (c_no_restart (config e0)) then
      init_commands <- _get_node_type_specific_fields n
                         "worker_setup_commands" c_worker_setup_commands
                         nt_worker_setup_commands ;;
      ret (init_commands, [])
    else
      init_commands <- _get_node_type_specific_fields n
                         "worker_setup_commands" c_worker_setup_commands
                         nt_worker_setup_commands ;;
      s <- self ;;
      ray_commands <- getitem "worker_start_ray_commands"
                        (c_worker_start_ray_commands (config s)) ;;
      ret (init_commands, ray_commands) in
  (m s).1 = update_commands e0 (p_tags (provider e0) n) n
  /\ erase (m s).2 = erase e0 /\ answering (m s).2.
Proof.
  intros Ha He. cbv zeta. unfold update_commands.
  destruct (erase_fields _ _ He) as (Hc & Hant & Hrh & Hfm & Hns & Htags).
  assert (node_type_fields s (p_tags (provider s) n) "worker_setup_commands"
            c_worker_setup_commands nt_worker_setup_commands
          = node_type_fields e0 (p_tags (provider e0) n)
              "worker_setup_commands" c_worker_setup_commands
              nt_worker_setup_commands) as Hf
    by (unfold node_type_fields; by rewrite Hc, Hant, Htags).
  split.
  - destruct (_ && truthy_bool (c_restart_only _));
      [|destruct (_ && truthy_bool (c_no_restart _))].
    + by destruct (c_worker_start_ray_commands (config e0)).
    + rewrite bind_fst, (_get_node_type_specific_fields_answering _ _ _ _ _ Ha).
      rewrite Hf. by destruct (node_type_fields e0 _ _ _ _).
    + rewrite bind_fst, (_get_node_type_specific_fields_answering _ _ _ _ _ Ha).
      rewrite Hf. destruct (node_type_fields e0 _ _ _ _); cbn [res_bind];
        [|done..].
      rewrite (bind_eq self _ _ _ _ eq_refl).
      pose proof (inv__get_node_type_specific_fields
                    (fun x => config x = config s) ltac:(frame_solve)
                    n "worker_setup_commands" c_worker_setup_commands
                    nt_worker_setup_commands s eq_refl) as Hc'.
      rewrite Hc', Hc.
      by destruct (c_worker_start_ray_commands (config e0)).
  - rewrite <-He.
    apply read_only_state; [|done]. intros P HP.
    destruct (_ && truthy_bool (c_restart_only _));
      [|destruct (_ && truthy_bool (c_no_restart _))];
      repeat first [ inv_step | by apply inv__get_node_type_specific_fields ].
Qed.

(** The outcome of [should_update] once [can_update] has returned [True],
    for a provider that answers. *)
Lemma should_update_answering n s :
  answering s ->
  (can_update n s).1 = Ok true ->
  let tags := p_tags (provider s) n in
  (should_update n s).1
  = if bool_decide (tags !! TAG_RAY_NODE_STATUS = Some STATUS_UP_TO_DATE)
       && files_match s tags
    then Ok no_update
    else
      (commands <- update_commands s tags n ;;
       docker <- docker_config_of s tags ;;
       Ok {| ui_node_id := Some n;
             ui_init_commands := Some commands.1;
             ui_start_ray_commands := Some commands.2;
             ui_docker_config := Some docker |})%res.
Proof.
  intros Ha Hcu. cbv zeta. unfold should_update.
  destruct (read_only_state (can_update n) s) as [He0 Ha0];
    [intros P HP; by apply inv_can_update | done |].
  rewrite bind_fst, Hcu. cbn [negb].
  set (s0 := (can_update n s).2) in *. clearbody s0.
  unfold node_tags at 1.
  rewrite (bind_eq _ _ _ _ _ (provider_read_answering _ _ s0 Ha0)).
  set (s1 := set_provider _ s0).
  assert (erase s1 = erase s) as He1 by done.
  assert (answering s1) as Ha1 by done.
  rewrite (proj2 (proj2 (proj2 (proj2 (proj2 (erase_fields _ _ He0)))))).
  clearbody s1. clear s0 He0 Ha0.
  lazymatch goal with
  | |- (bind _ ?k s1).1 = ?rhs =>
      assert (forall s2, erase s2 = erase s -> answering s2 ->
              (k false s2).1
              = (commands <- update_commands s (p_tags (provider s) n) n ;;
                 docker <- docker_config_of s (p_tags (provider s) n) ;;
                 Ok {| ui_node_id := Some n;
                       ui_init_commands := Some commands.1;
                       ui_start_ray_commands := Some commands.2;
                       ui_docker_config := Some docker |})%res) as Htail
  end.
  { intros s2 He2 Ha2. cbv beta iota.
    rewrite (bind_eq self _ _ _ _ eq_refl). cbv zeta.
    destruct (erase_fields _ _ He2) as (Hc & Hant & Hrh & Hfm & Hns & Htags).
    rewrite Hc, Hns.
    destruct (update_commands_answering n s2 s Ha2 He2) as (Hm & He3 & Ha3).
    cbv zeta in Hm, He3, Ha3.
    rewrite bind_fst, Hm.
    destruct (update_commands s _ n) as [[setup start]|e|]; [|done..].
    cbn [res_bind fst snd].
    rewrite bind_fst,
      (_get_node_specific_docker_config_answering _ _ Ha3).
    destruct (erase_fields _ _ He3) as (Hc3 & Hant3 & _ & _ & _ & Htags3).
    replace (docker_config_of _ _)
      with (docker_config_of s (p_tags (provider s) n))
      by (unfold docker_config_of, node_type_fields;
          by rewrite Hc3, Hant3, Htags3).
    by destruct (docker_config_of _ _). }
  destruct (erase_fields _ _ He1) as (Hc & Hant & Hrh & Hfm & Hns & Htags).
  rewrite bind_fst.
  assert (files_match s1 (p_tags (provider s) n)
          = files_match s (p_tags (provider s) n)) as Hfiles
    by (unfold files_match; by rewrite Hrh, Hfm).
  destruct (bool_decide (_ = Some STATUS_UP_TO_DATE)) eqn:Hst.
  - rewrite (files_up_to_date_answering n s1 Ha1), Htags, Hfiles.
    cbn [andb].
    destruct (files_match s (p_tags (provider s) n)); [done|].
    destruct (read_only_state (files_up_to_date n) s1) as [He2 Ha2];
      [intros P HP; by apply inv_files_up_to_date | done |].
    rewrite He1 in He2. by apply Htail.
  - cbn [andb]. by apply Htail.
Qed.

End should_update.

Section should_update_claim.
Context `{Collaborators}.

(** C8.  For a provider that answers, [should_update] returns the null
    sentinel exactly when [can_update] is false, or the status tag of the
    node is [up_to_date] and [files_up_to_date] holds.  Otherwise (with the
    setup commands and the start commands in the config, the node type of
    the node known and the docker config at hand) it returns an instruction
    for the node whose commands are [([], worker_start_ray_commands)] after
    a successful update when [restart_only] is set,
    [(worker_setup_commands, [])] after a successful update when
    [no_restart] is set, and
    [(worker_setup_commands, worker_start_ray_commands)] in every other
    case.  The setup commands are those of the node type of the node, as
    [_get_node_type_specific_fields] returns them: the
    [worker_setup_commands] its node type declares, and those of the config
    when the node has no node type or its node type declares none. *)
Theorem should_update_decision n s :
  answering s ->
  let tags := p_tags (provider s) n in
  ((should_update n s).1 = Ok no_update
   <-> (can_update n s).1 = Ok false
       \/ ((can_update n s).1 = Ok true
           /\ tags !! TAG_RAY_NODE_STATUS = Some STATUS_UP_TO_DATE
           /\ (files_up_to_date n s).1 = Ok true))
  /\ (forall cluster_setup setup start docker,
        (can_update n s).1 = Ok true ->
        ~ (tags !! TAG_RAY_NODE_STATUS = Some STATUS_UP_TO_DATE
           /\ (files_up_to_date n s).1 = Ok true) ->
        c_worker_setup_commands (config s) = Some cluster_setup ->
        match tags !! TAG_RAY_USER_NODE_TYPE with
        | Some node_type =>
            exists node_type_config,
              available_node_types s !! node_type = Some node_type_config
              /\ setup
                 = default cluster_setup
                     (nt_worker_setup_commands node_type_config)
        | None => setup = cluster_setup
        end ->
        c_worker_start_ray_commands (config s) = Some start ->
        (_get_node_specific_docker_config n s).1 = Ok docker ->
        let successful_updated :=
          bool_decide (default 0 (num_successful_updates s !! n) > 0) in
        let commands :=
          if successful_updated && truthy_bool (c_restart_only (config s))
          then ([], start)
          else if successful_updated
                  && truthy_bool (c_no_restart (config s))
          then (setup, [])
          else (setup, start) in
        (should_update n s).1
        = Ok {| ui_node_id := Some n;
                ui_init_commands := Some commands.1;
                ui_start_ray_commands := Some commands.2;
                ui_docker_config := Some docker |})
  /\ (forall cluster_setup,
        c_worker_setup_commands (config s) = Some cluster_setup ->
        (_get_node_type_specific_fields n "worker_setup_commands"
           c_worker_setup_commands nt_worker_setup_commands s).1
        = match tags !! TAG_RAY_USER_NODE_TYPE with
          | Some node_type =>
              match available_node_types s !! node_type with
              | Some node_type_config =>
                  Ok (default cluster_setup
                        (nt_worker_setup_commands node_type_config))
              | None =>
                  Raise (ValueError
                           ("Unknown node type tag: " +:+ node_type +:+ "."))
              end
          | None => Ok cluster_setup
          end).
Proof.
  intros Ha tags.
  pose proof (files_up_to_date_answering n s Ha) as Hfiles.
  fold tags in Hfiles. rewrite Hfiles.
  assert (forall b : bool, Ok b = Ok true <-> b = true) as Hok
    by (intros b; split; [by intros [= ->]|by intros ->]).
  split; [|split].
  - destruct ((can_update n s).1) as [[]|e|] eqn:Hcu.
    + rewrite (should_update_answering n s Ha Hcu). fold tags.
      destruct (bool_decide (tags !! _ = _)) eqn:Hst; cbn [andb].
      * apply bool_decide_eq_true in Hst.
        destruct (files_match s tags).
        -- split; [by right|done].
        -- split; [|by intros [?|(_ & _ & ?)]].
           destruct (update_commands s tags n) as [[i r]|?|]; cbn; [|done..].
           by destruct (docker_config_of s tags).
      * apply bool_decide_eq_false in Hst.
        split; [|by intros [?|(_ & ? & _)]].
        destruct (update_commands s tags n) as [[i r]|?|]; cbn; [|done..].
        by destruct (docker_config_of s tags).
    + unfold should_update. rewrite bind_fst, Hcu. split; [by left|done].
    + unfold should_update. rewrite bind_fst, Hcu.
      split; [done|by intros [?|[? _]]].
    + unfold should_update. rewrite bind_fst, Hcu.
      split; [done|by intros [?|[? _]]].
  - intros cluster_setup setup start docker Hcu Hnot Hcluster Htype Hstart
      Hdocker.
    rewrite (should_update_answering n s Ha Hcu). fold tags.
    assert (node_type_fields s tags "worker_setup_commands"
              c_worker_setup_commands nt_worker_setup_commands = Ok setup)
      as Hsetup.
    { unfold node_type_fields. rewrite Hcluster.
      destruct (tags !! TAG_RAY_USER_NODE_TYPE) as [node_type|];
        [|by subst].
      by destruct Htype as (node_type_config & -> & ->). }
    rewrite (_get_node_specific_docker_config_answering _ _ Ha) in Hdocker.
    fold tags in Hdocker.
    destruct (bool_decide (tags !! _ = _) && files_match s tags) eqn:Hup.
    { apply andb_true_iff in Hup as [Hst%bool_decide_eq_true Hf].
      destruct Hnot. by rewrite Hf. }
    unfold update_commands. rewrite Hsetup, Hstart, Hdocker. cbn.
    by destruct (_ && truthy_bool (c_restart_only _));
      [|destruct (_ && truthy_bool (c_no_restart _))].
  - intros cluster_setup Hcluster. unfold _get_node_type_specific_fields.
    rewrite (bind_eq self _ _ _ _ eq_refl), Hcluster. cbn [getitem].
    rewrite (bind_eq (ret cluster_setup) _ s _ _ eq_refl).
    unfold node_tags.
    rewrite (bind_eq _ _ _ _ _ (provider_read_answering _ _ s Ha)).
    fold tags.
    destruct (tags !! TAG_RAY_USER_NODE_TYPE) as [node_type|]; [|done].
    rewrite (bind_eq self _ _ _ _ eq_refl). cbn.
    destruct (available_node_types s !! node_type) as [node_type_config|];
      [|done].
    by destruct (nt_worker_setup_commands node_type_config).
Qed.

End should_update_claim.

(** Scenario 4, for a node type with setup commands of its own: on
    [Cluster.stale_runtime_typed_setup] the worker has never been updated
    by this process and gets the setup commands of its node type, not
    those of the config, and the start commands. *)
Lemma should_update_decision_witness :
  answering Cluster.stale_runtime_typed_setup
  /\ (can_update "n1" Cluster.stale_runtime_typed_setup).1 = Ok true
  /\ c_worker_setup_commands (config Cluster.stale_runtime_typed_setup)
     = Some ["pip install ray"%string]
  /\ (_get_node_type_specific_fields "n1" "worker_setup_commands"
        c_worker_setup_commands nt_worker_setup_commands
        Cluster.stale_runtime_typed_setup).1
     = Ok ["pip install ray[A]"%string]
  /\ (should_update "n1" Cluster.stale_runtime_typed_setup).1
     = Ok {| ui_node_id := Some "n1"%string;
             ui_init_commands := Some ["pip install ray[A]"%string];
             ui_start_ray_commands := Some ["ray start"%string];
             ui_docker_config := Some ∅ |}.
Proof.
  split; [reflexivity|]. split; [by vm_compute|]. split; [reflexivity|].
  split; [by vm_compute|].
  apply (proj1 (proj2 (should_update_decision "n1"
                         Cluster.stale_runtime_typed_setup eq_refl))
           ["pip install ray"%string] ["pip install ray[A]"%string]
           ["ray start"%string] ∅);
    try by vm_compute.
  - intros [_ Hf]. by vm_compute in Hf.
  - exists Cluster.type_A_with_setup. split; by vm_compute.
Defined.

(** ** Request-resources protection *)

Lemma foldl_insert_lookup {V} (entries : list (NodeID * V)) :
  forall (m0 : gmap NodeID V),
  NoDup entries.*1 ->
  let m := foldl (fun m e => <[e.1 := e.2]> m) m0 entries in
  (forall i e, entries !! i = Some e -> m !! e.1 = Some e.2)
  /\ (forall n, n ∉ entries.*1 -> m !! n = m0 !! n).
Proof.
  induction entries as [|[n0 v0] entries IH]; intros m0 Hnd; cbn.
  { split; [by intros i e|done]. }
  apply NoDup_cons in Hnd as [Hn0 Hnd].
  destruct (IH (<[n0 := v0]> m0) Hnd) as [IHa IHb]. cbn in IHa, IHb.
  split.
  - intros [|i] e He; cbn in He.
    + injection He as <-. cbn. rewrite IHb by done. apply lookup_insert_eq.
    + by apply (IHa i).
  - intros n Hn. apply not_elem_of_cons in Hn as [Hne Hn].
    rewrite IHb by done. by apply lookup_insert_ne.
Qed.

Section allowed_to_terminate.
Context `{Collaborators}.

(** The first loop collects the declared capacities of the typed nodes. *)
Lemma collect_max_node_resources_answering e0 n caps ids s :
  answering s -> erase s = erase e0 ->
  (is_Some (p_tags (provider e0) n !! TAG_RAY_USER_NODE_TYPE) ->
   is_Some (declared_resources e0 n)) ->
  collect_max_node_resources (caps, ids) n s
  = (Ok (match declared_resources e0 n with
         | Some resources => (caps ++ [resources], ids ++ [n])
         | None => (caps, ids)
         end),
     set_provider (log_call (Call_node_tags n) (provider s)) s).
Proof.
  intros Ha He Hdecl. unfold collect_max_node_resources, node_tags.
  rewrite (bind_eq _ _ _ _ _ (provider_read_answering _ _ s Ha)).
  destruct (erase_fields _ _ He) as (_ & Hant & _ & _ & _ & Htags).
  rewrite Htags. unfold declared_resources in *.
  destruct (p_tags (provider e0) n !! TAG_RAY_USER_NODE_TYPE) as [t|];
    [|done].
  destruct Hdecl as [r Hr]; [done|].
  rewrite (bind_eq self _ _ _ _ eq_refl).
  cbn [available_node_types set_provider]. rewrite Hant.
  destruct (available_node_types e0 !! t) as [nt|]; [|done].
  cbn [getitem]. rewrite (bind_eq (ret nt) _ _ _ _ eq_refl).
  rewrite Hr. cbn [getitem]. by rewrite (bind_eq (ret r) _ _ _ _ eq_refl).
Qed.

Lemma collect_capacities e0 sorted :
  forall max_node_resources ids s,
  answering s -> erase s = erase e0 ->
  Forall (fun n => is_Some (declared_resources e0 n)) (typed_nodes e0 sorted) ->
  exists s',
    for_fold sorted (max_node_resources, ids) collect_max_node_resources s
    = (Ok (max_node_resources ++ omap (declared_resources e0) sorted,
           ids ++ typed_nodes e0 sorted), s')
    /\ erase s' = erase e0.
Proof.
  unfold typed_nodes.
  induction sorted as [|n sorted IH]; intros caps ids s Ha He Hdecl.
  { exists s. cbn. by rewrite !app_nil_r. }
  rewrite filter_cons in Hdecl. cbn [for_fold omap list_omap].
  rewrite filter_cons.
  assert (is_Some (p_tags (provider e0) n !! TAG_RAY_USER_NODE_TYPE) ->
          is_Some (declared_resources e0 n)) as Hn.
  { intros Ht. rewrite decide_True in Hdecl by done.
    by apply Forall_cons in Hdecl as [? _]. }
  rewrite (bind_eq _ _ _ _ _
             (collect_max_node_resources_answering e0 n caps ids s Ha He Hn)).
  set (s1 := set_provider _ s).
  assert (erase s1 = erase e0) as He1 by done.
  assert (answering s1) as Ha1 by done.
  clearbody s1.
  destruct (decide (is_Some (p_tags (provider e0) n !! _))) as [Ht|Ht].
  - apply Forall_cons in Hdecl as [[r Hr] Hdecl]. rewrite Hr.
    destruct (IH (caps ++ [r]) (ids ++ [n]) s1 Ha1 He1 Hdecl)
      as (s' & Hrun & He').
    exists s'. split; [|done]. rewrite Hrun. by rewrite <-!app_assoc.
  - assert (declared_resources e0 n = None) as ->.
    { unfold declared_resources.
      destruct (p_tags (provider e0) n !! _); [|done].
      destruct Ht. by eexists. }
    by apply IH.
Qed.

(** Whether node number [i] of the typed nodes may be terminated. *)
Lemma decide_nodes unfulfilled used max entries :
  forall (allowed : gmap NodeID bool) s,
  (forall i n, (i, n) ∈ entries ->
     is_Some (used !! i) /\ is_Some (max !! i)) ->
  for_fold entries allowed
    (decide_allowed_to_terminate unfulfilled used max) s
  = (Ok (foldl (fun m e => <[e.1 := e.2]> m) allowed
           ((fun e : nat * NodeID =>
               (e.2, bool_decide (unfulfilled = []
                                  /\ used !! e.1 = max !! e.1)))
              <$> entries)), s).
Proof.
  induction entries as [|[i n] entries IH]; intros allowed s Hidx; [done|].
  cbn [for_fold fmap list_fmap foldl fst snd].
  destruct (Hidx i n) as [[u Hu] [m Hm]]; [apply list_elem_of_here|].
  assert (forall i0 n0, (i0, n0) ∈ entries ->
            is_Some (used !! i0) /\ is_Some (max !! i0)) as Hidx'
    by (intros i0 n0 Hin; apply (Hidx i0 n0); by apply list_elem_of_further).
  assert (decide_allowed_to_terminate unfulfilled used max allowed (i, n) s
          = (Ok (<[n := bool_decide (unfulfilled = []
                                     /\ used !! i = max !! i)]> allowed), s))
    as Hstep.
  { unfold decide_allowed_to_terminate.
    destruct unfulfilled as [|d unfulfilled]; cbn [nonempty].
    - unfold index. rewrite Hu, Hm.
      rewrite (bind_eq (ret u) _ s _ _ eq_refl).
      rewrite (bind_eq (ret m) _ s _ _ eq_refl).
      rewrite bool_decide_not.
      rewrite (bool_decide_ext ([] = [] /\ Some u = Some m) (u = m))
        by (split; [by intros [_ [= ->]]|by intros ->]).
      by destruct (bool_decide (u = m)).
    - rewrite (bool_decide_eq_false_2 (d :: unfulfilled = [] /\ _))
        by (by intros [? _]).
      done. }
  rewrite (bind_eq _ _ _ _ _ Hstep). by apply IH.
Qed.

Lemma typed_capacities e0 sorted :
  Forall (fun n => is_Some (declared_resources e0 n)) (typed_nodes e0 sorted) ->
  length (omap (declared_resources e0) sorted)
  = length (typed_nodes e0 sorted).
Proof.
  unfold typed_nodes.
  induction sorted as [|n sorted IH]; [done|].
  rewrite filter_cons. cbn [omap list_omap].
  destruct (decide (is_Some (p_tags (provider e0) n !! _))) as [Ht|Ht].
  - intros [[r Hr] Hd]%Forall_cons. rewrite Hr. cbn. by rewrite (IH Hd).
  - intros Hd.
    assert (declared_resources e0 n = None) as ->.
    { unfold declared_resources.
      destruct (p_tags (provider e0) n !! _); [|done].
      destruct Ht. by eexists. }
    by apply IH.
Qed.

(** C3.  For a provider that answers and node types that declare their
    resources, [_get_nodes_allowed_to_terminate] maps node number [i] of
    the typed nodes (in the order it is given, most recently used first)
    to [True] exactly when [get_bin_pack_residual], run on the declared
    capacities of the typed nodes, leaves no unfulfilled request and
    leaves node [i] its whole declared capacity; it maps the node to
    [False] in every other case, and holds no other node. *)
Theorem nodes_allowed_to_terminate_decision s sorted unfulfilled remaining :
  answering s ->
  let ids := typed_nodes s sorted in
  let capacities := omap (declared_resources s) sorted in
  Forall (fun n => is_Some (declared_resources s n)) ids ->
  NoDup ids ->
  get_bin_pack_residual capacities (resource_demand_vector s)
  = (unfulfilled, remaining) ->
  length remaining = length capacities ->
  exists allowed,
    (_get_nodes_allowed_to_terminate sorted s).1 = Ok allowed
    /\ (forall i n, ids !! i = Some n ->
          allowed !! n
          = Some (bool_decide (unfulfilled = []
                               /\ remaining !! i = capacities !! i)))
    /\ (forall n, n ∉ ids -> allowed !! n = None).
Proof.
  intros Ha ids capacities Hdecl Hnd Hpack Hlen.
  pose proof (typed_capacities s sorted Hdecl) as Hlen'.
  fold ids capacities in Hlen'.
  unfold _get_nodes_allowed_to_terminate.
  destruct (collect_capacities s sorted [] [] s Ha eq_refl Hdecl)
    as (s1 & Hrun & He1).
  cbn [app] in Hrun. fold ids capacities in Hrun.
  rewrite (bind_eq _ _ _ _ _ Hrun).
  rewrite (bind_eq self _ _ _ _ eq_refl).
  apply (f_equal resource_demand_vector) in He1. cbn in He1.
  rewrite He1, Hpack.
  set (entries := zip (seq 0 (length ids)) ids).
  assert (entries.*2 = ids) as Hsnd.
  { unfold entries. apply snd_zip. by rewrite length_seq. }
  assert (forall i n, entries !! i = Some (i, n) <-> ids !! i = Some n)
    as Hentry.
  { intros i n. unfold entries. rewrite lookup_zip_with_Some. split.
    - intros (x & y & [= <- <-] & _ & Hy). done.
    - intros Hn. exists i, n. split; [done|]. split; [|done].
      apply lookup_seq. split; [done|]. by apply lookup_lt_Some in Hn. }
  assert (forall i n, (i, n) ∈ entries -> ids !! i = Some n) as Hin.
  { intros i n [j Hj]%list_elem_of_lookup.
    pose proof Hj as Hj'. unfold entries in Hj'.
    apply lookup_zip_with_Some in Hj' as (x & y & [= <- <-] & Hx & Hy).
    apply lookup_seq in Hx as [-> _]. done. }
  rewrite decide_nodes.
  2:{ intros i n Hi%Hin. apply lookup_lt_Some in Hi.
      split; apply lookup_lt_is_Some; lia. }
  eexists. split; [done|].
  set (decided := (fun e : nat * NodeID => _) <$> entries).
  assert (decided.*1 = ids) as Hfst.
  { unfold decided. rewrite <-list_fmap_compose. by rewrite <-Hsnd. }
  destruct (foldl_insert_lookup decided ∅) as [Hl Hother];
    [by rewrite Hfst|].
  cbn in Hl, Hother. split.
  - intros i n Hi. apply Hentry in Hi.
    specialize (Hl i (n, bool_decide (unfulfilled = []
                                      /\ remaining !! i = capacities !! i))).
    apply Hl. unfold decided. by rewrite list_lookup_fmap, Hi.
  - intros n Hn. rewrite Hother by (by rewrite Hfst). apply lookup_empty.
Qed.

End allowed_to_terminate.

(** On [Cluster.requested_cluster] the request for 4 CPUs is packed on the
    most recently used worker [n2], which is kept, and [n1] may be
    terminated. *)
Lemma nodes_allowed_to_terminate_decision_witness :
  answering Cluster.requested_cluster
  /\ get_bin_pack_residual
       [ {[ "CPU"%string := 8 ]}; {[ "CPU"%string := 8 ]} ]
       (resource_demand_vector Cluster.requested_cluster)
     = ([], [ {[ "CPU"%string := 4 ]}; {[ "CPU"%string := 8 ]} ])
  /\ exists allowed,
       (_get_nodes_allowed_to_terminate ["n2"; "n1"]%string
          Cluster.requested_cluster).1 = Ok allowed
       /\ allowed !! "n2"%string = Some false
       /\ allowed !! "n1"%string = Some true.
Proof.
  split; [reflexivity|]. split; [by vm_compute|].
  destruct (nodes_allowed_to_terminate_decision Cluster.requested_cluster
              ["n2"; "n1"]%string []
              [ {[ "CPU"%string := 4 ]}; {[ "CPU"%string := 8 ]} ])
    as (allowed & Hr & Hl & _).
  - reflexivity.
  - apply (bool_decide_unpack _). by vm_compute.
  - apply (bool_decide_unpack _). by vm_compute.
  - by vm_compute.
  - by vm_compute.
  - exists allowed. split; [done|]. split.
    + rewrite (Hl 0%nat "n2"%string) by by vm_compute. by vm_compute.
    + rewrite (Hl 1%nat "n1"%string) by by vm_compute. by vm_compute.
Defined.

(** ** The last-used ordering *)

Lemma foldr_min_le (v : Z) (vs : list Z) :
  foldr Z.min v vs <= v /\ Forall (fun x => foldr Z.min v vs <= x) vs.
Proof.
  induction vs as [|x vs [IH1 IH2]]; cbn; [split; [lia|constructor]|].
  split; [lia|]. constructor; [lia|].
  eapply Forall_impl; [done|]. cbn. intros y Hy. lia.
Qed.

Lemma min_values_le (d : gmap IP Z) m :
  min_values d = Some m -> forall ip t, d !! ip = Some t -> m <= t.
Proof.
  unfold min_values. intros Hm ip t Hip.
  apply elem_of_map_to_list in Hip.
  apply (list_elem_of_fmap_2 snd) in Hip. cbn in Hip.
  destruct ((map_to_list d).*2) as [|v vs]; [done|].
  injection Hm as <-. destruct (foldr_min_le v vs) as [Hv Hvs].
  apply elem_of_cons in Hip as [->|Hin]; [done|].
  by apply (proj1 (Forall_forall _ _) Hvs).
Qed.

Lemma min_values_is_Some (d : gmap IP Z) : d <> ∅ -> is_Some (min_values d).
Proof.
  unfold min_values. intros Hd.
  destruct (map_to_list d) as [|[k v] l] eqn:Hl; [|by eexists].
  by apply map_to_list_empty_iff in Hl.
Qed.

Lemma insert_by_key_Permutation x l : insert_by_key x l ≡ₚ x :: l.
Proof.
  induction l as [|y l IH]; cbn; [done|].
  destruct (y.1 <=? x.1); [done|]. rewrite IH. apply Permutation_swap.
Qed.

Lemma insert_by_key_sorted x l :
  StronglySorted (fun a b : Z * NodeID => b.1 <= a.1) l ->
  StronglySorted (fun a b : Z * NodeID => b.1 <= a.1) (insert_by_key x l).
Proof.
  induction 1 as [|y l Hl IH Hy]; cbn; [repeat constructor|].
  destruct (y.1 <=? x.1) eqn:Hle.
  - apply Z.leb_le in Hle. constructor; [by constructor|].
    constructor; [done|]. eapply Forall_impl; [done|]. cbn. intros z Hz. lia.
  - apply Z.leb_gt in Hle. constructor; [done|].
    rewrite insert_by_key_Permutation. constructor; [lia|done].
Qed.

Lemma insert_by_key_filter (k : Z) x l :
  filter (fun p : Z * NodeID => p.1 = k) (insert_by_key x l)
  = filter (fun p : Z * NodeID => p.1 = k) (x :: l).
Proof.
  induction l as [|y l IH]; cbn; [done|].
  destruct (y.1 <=? x.1) eqn:Hle; [done|]. apply Z.leb_gt in Hle.
  rewrite (filter_cons _ y), IH, !filter_cons.
  destruct (decide (y.1 = k)), (decide (x.1 = k)); try done. lia.
Qed.

Section sort_pairs.
Context (key : NodeID -> Z).

Lemma sorted_reverse_spec (nodes : list NodeID) :
  let sorted := sorted_reverse ((fun n => (key n, n)) <$> nodes) in
  sorted ≡ₚ nodes
  /\ StronglySorted (fun a b => key b <= key a) sorted
  /\ forall k, filter (fun n => key n = k) sorted
               = filter (fun n => key n = k) nodes.
Proof.
  unfold sorted_reverse. cbv zeta.
  induction nodes as [|n nodes (IHp & IHs & IHf)]; cbn [fmap list_fmap foldr].
  { split; [done|]. split; [constructor|done]. }
  set (ps := foldr insert_by_key [] ((fun n => (key n, n)) <$> nodes)) in *.
  assert (Forall (fun p : Z * NodeID => p.1 = key p.2) ps) as Hps.
  { unfold ps. clear. induction nodes as [|n nodes IH]; cbn; [constructor|].
    rewrite insert_by_key_Permutation. by constructor. }
  assert (forall l : list (Z * NodeID),
            Forall (fun p => p.1 = key p.2) l ->
            (StronglySorted (fun a b => b.1 <= a.1) l ->
             StronglySorted (fun a b => key b <= key a) l.*2)
            /\ forall k, (filter (fun p => p.1 = k) l).*2
                         = filter (fun n => key n = k) l.*2) as Hproj.
  { clear. induction 1 as [|p l Hp Hl [IH1 IH2]]; [split; [constructor|done]|].
    split.
    - intros [Hs Hall]%StronglySorted_inv. cbn. constructor; [by apply IH1|].
      apply Forall_fmap. clear IH1 IH2 Hs.
      induction Hl as [|q l Hq Hl IH]; [constructor|].
      apply Forall_cons in Hall as [Hpq Hall]. constructor; [|by apply IH].
      cbn. by rewrite <-Hp, <-Hq.
    - intros k. cbn [fmap list_fmap]. rewrite !filter_cons, <-IH2.
      rewrite <-Hp. by destruct (decide (p.1 = k)). }
  assert (Forall (fun p : Z * NodeID => p.1 = key p.2)
            (insert_by_key (key n, n) ps)) as Hps'.
  { rewrite insert_by_key_Permutation. by constructor. }
  assert (StronglySorted (fun a b : Z * NodeID => b.1 <= a.1) ps) as Hsorted.
  { unfold ps. clear. induction nodes as [|n nodes IH]; cbn; [constructor|].
    by apply insert_by_key_sorted. }
  split; [|split].
  - rewrite insert_by_key_Permutation. cbn. by rewrite IHp.
  - apply (Hproj _ Hps'). by apply insert_by_key_sorted.
  - intros k. rewrite <-(proj2 (Hproj _ Hps')), insert_by_key_filter.
    rewrite (proj2 (Hproj _ (Forall_cons_2 _ (key n, n) _ eq_refl Hps))).
    cbn [fmap list_fmap snd]. rewrite !filter_cons, IHf. done.
Qed.

End sort_pairs.

Section sort.
Context `{Collaborators}.

(** The first loop adds [least - 1] for the IPs the load metrics do not
    know. *)
Lemma updated_last_used_ok_inv least e0 nodes :
  forall (u0 : gmap IP Z) s u s',
  erase s = erase e0 ->
  for_fold nodes u0 (fun updated_last_used node_id =>
    node_ip <- internal_ip node_id ;;
    if bool_decide (updated_last_used !! node_ip = None)
    then ret (<[node_ip := least - 1]> updated_last_used)
    else ret updated_last_used) s = (Ok u, s') ->
  erase s' = erase e0
  /\ (forall ip, u0 !! ip = None ->
        u !! ip = None \/ u !! ip = Some (least - 1))
  /\ (forall ip t, u0 !! ip = Some t -> u !! ip = Some t)
  /\ (forall n, n ∈ nodes -> is_Some (u !! p_ip (provider e0) n)).
Proof.
  induction nodes as [|n nodes IH]; intros u0 s u s' He Hr.
  { injection Hr as <- <-. split; [done|]. split; [by left|].
    split; [done|]. by intros n ?%elem_of_nil. }
  cbn [for_fold] in Hr.
  apply bind_ok_inv in Hr as (u1 & s1 & Hbody & Hr).
  apply bind_ok_inv in Hbody as (ip0 & s2 & Hip & Hbody).
  apply internal_ip_ok_inv in Hip as [-> He2].
  rewrite (erase_p_ip _ _ He) in Hbody. rewrite He in He2.
  assert (s1 = s2
          /\ u1 = if bool_decide (u0 !! p_ip (provider e0) n = None)
                  then <[p_ip (provider e0) n := least - 1]> u0 else u0)
    as [-> ->] by (by destruct (bool_decide _); injection Hbody as <- <-).
  clear Hbody.
  destruct (IH _ _ _ _ He2 Hr) as (He' & Hnone & Hsome & Hin).
  split; [done|].
  destruct (u0 !! p_ip (provider e0) n) as [t0|] eqn:Hu0.
  - rewrite bool_decide_eq_false_2 in Hnone, Hsome by done.
    split; [done|]. split; [done|].
    intros n' [->|Hn']%elem_of_cons; [|by apply Hin].
    rewrite (Hsome _ _ Hu0). by eexists.
  - rewrite bool_decide_eq_true_2 in Hnone, Hsome by done.
    split; [|split].
    + intros ip Hip. destruct (decide (ip = p_ip (provider e0) n)) as [->|Hne].
      * right. apply Hsome, lookup_insert_eq.
      * apply Hnone. by rewrite lookup_insert_ne.
    + intros ip t Hip. apply Hsome. rewrite lookup_insert_ne; [done|].
      intros <-. congruence.
    + intros n' [->|Hn']%elem_of_cons; [|by apply Hin].
      rewrite (Hsome (p_ip (provider e0) n) (least - 1));
        [by eexists|apply lookup_insert_eq].
Qed.

(** The second pass reads the key of every node. *)
Lemma last_time_used_ok_inv (u : gmap IP Z) e0 nodes :
  forall s keys s',
  erase s = erase e0 ->
  for_list nodes (fun node_id =>
    node_ip <- internal_ip node_id ;;
    getitem node_ip (u !! node_ip)) s = (Ok keys, s') ->
  erase s' = erase e0
  /\ Some <$> keys = (fun n => u !! p_ip (provider e0) n) <$> nodes.
Proof.
  induction nodes as [|n nodes IH]; intros s keys s' He Hr.
  { by injection Hr as <- <-. }
  cbn [for_list] in Hr.
  apply bind_ok_inv in Hr as (k & s1 & Hk & Hr).
  apply bind_ok_inv in Hk as (ip0 & s2 & Hip & Hk).
  apply internal_ip_ok_inv in Hip as [-> He2].
  rewrite (erase_p_ip _ _ He) in Hk. rewrite He in He2.
  apply getitem_ok_inv in Hk as [Hk ->].
  apply bind_ok_inv in Hr as (ks & s3 & Hks & Hr).
  injection Hr as <- <-.
  destruct (IH _ _ _ He2 Hks) as [He3 Hkeys].
  split; [done|]. cbn. by rewrite Hk, Hkeys.
Qed.

Lemma _sort_based_on_last_used_ok_inv nodes last_used s sorted s' :
  _sort_based_on_last_used nodes last_used s = (Ok sorted, s') ->
  exists least,
    min_values last_used = Some least
    /\ sorted
       = sorted_reverse
           ((fun n => (last_time_used s last_used least n, n)) <$> nodes)
    /\ erase s' = erase s.
Proof.
  unfold _sort_based_on_last_used. intros Hr.
  apply bind_ok_inv in Hr as (least & s1 & Hleast & Hr).
  destruct (min_values last_used) as [m|] eqn:Hmin; [|done].
  injection Hleast as <- <-. exists m. split; [done|].
  apply bind_ok_inv in Hr as (u & s2 & Hu & Hr).
  apply (updated_last_used_ok_inv m s) in Hu
    as (He2 & Hnone & Hsome & Hin); [|done].
  apply bind_ok_inv in Hr as (keys & s3 & Hkeys & Hr).
  apply (last_time_used_ok_inv u s) in Hkeys as [He3 Hkeys]; [|done].
  injection Hr as <- <-. split; [|done]. f_equal.
  assert (forall n, n ∈ nodes ->
            u !! p_ip (provider s) n
            = Some (last_time_used s last_used m n)) as Hkey.
  { intros n Hn. unfold last_time_used.
    destruct (last_used !! p_ip (provider s) n) as [t|] eqn:Hl.
    - by apply Hsome.
    - destruct (Hnone _ Hl) as [Hu|Hu]; [|done].
      destruct (Hin n Hn) as [? ?]. congruence. }
  clear -Hkeys Hkey. revert keys Hkeys.
  induction nodes as [|n nodes IH]; intros [|k keys] Hkeys; try done.
  cbn in Hkeys. injection Hkeys as Hk Hkeys.
  rewrite Hkey in Hk by apply list_elem_of_here. injection Hk as ->.
  cbn. f_equal. apply IH; [|done].
  intros n' Hn'. apply Hkey. by apply list_elem_of_further.
Qed.

Lemma _sort_based_on_last_used_returns nodes last_used s :
  answering s -> last_used <> ∅ ->
  exists sorted, (_sort_based_on_last_used nodes last_used s).1 = Ok sorted.
Proof.
  intros Ha Hne. unfold _sort_based_on_last_used.
  destruct (min_values_is_Some last_used Hne) as [m ->].
  rewrite (bind_eq (ret m) _ s _ _ eq_refl).
  assert (forall l (u0 : gmap IP Z) x,
            answering x -> erase x = erase s ->
            exists u x',
              for_fold l u0 (fun updated_last_used node_id =>
                node_ip <- internal_ip node_id ;;
                if bool_decide (updated_last_used !! node_ip = None)
                then ret (<[node_ip := m - 1]> updated_last_used)
                else ret updated_last_used) x = (Ok u, x')
              /\ answering x' /\ erase x' = erase s) as Hfold.
  { induction l as [|n l IH]; intros u0 x Hax Hex; [by exists u0, x|].
    cbn [for_fold]. unfold internal_ip at 1.
    assert (exists u1,
              (node_ip <- provider_read (Call_internal_ip n)
                            (fun p => p_ip p n) ;;
               if bool_decide (u0 !! node_ip = None)
               then ret (<[node_ip := m - 1]> u0)
               else ret u0) x
              = (Ok u1, set_provider
                          (log_call (Call_internal_ip n) (provider x)) x))
      as [u1 Hstep].
    { rewrite (bind_eq _ _ x _ _ (provider_read_answering _ _ x Hax)).
      destruct (bool_decide _); by eexists. }
    rewrite (bind_eq _ _ x _ _ Hstep).
    set (x1 := set_provider _ x).
    assert (answering x1 /\ erase x1 = erase s) as [Ha1 He1] by done.
    clearbody x1. by apply IH. }
  destruct (Hfold nodes last_used s Ha eq_refl) as (u & s1 & Hu & Ha1 & He1).
  rewrite (bind_eq _ _ _ _ _ Hu).
  apply (updated_last_used_ok_inv m s) in Hu as (_ & _ & _ & Hin); [|done].
  assert (forall l x,
            (forall n, n ∈ l -> is_Some (u !! p_ip (provider s) n)) ->
            answering x -> erase x = erase s ->
            exists keys x',
              for_list l (fun node_id =>
                node_ip <- internal_ip node_id ;;
                getitem node_ip (u !! node_ip)) x = (Ok keys, x')) as Hlist.
  { induction l as [|n l IH]; intros x Hl Hax Hex; [by eexists _, _|].
    cbn [for_list]. unfold internal_ip at 1.
    destruct (Hl n) as [k Hk]; [apply list_elem_of_here|].
    rewrite <-(erase_p_ip _ _ Hex) in Hk.
    assert ((node_ip <- provider_read (Call_internal_ip n)
                          (fun p => p_ip p n) ;;
             getitem node_ip (u !! node_ip)) x
            = (Ok k, set_provider
                       (log_call (Call_internal_ip n) (provider x)) x))
      as Hstep.
    { rewrite (bind_eq _ _ x _ _ (provider_read_answering _ _ x Hax)).
      by rewrite Hk. }
    rewrite (bind_eq _ _ x _ _ Hstep).
    set (x1 := set_provider _ x).
    assert (answering x1 /\ erase x1 = erase s) as [Ha1' He1'] by done.
    clearbody x1.
    destruct (IH x1) as (keys & x' & Hkeys); [|done..|].
    { intros n' Hn'. apply Hl. by apply list_elem_of_further. }
    rewrite (bind_eq _ _ _ _ _ Hkeys). by eexists _, _. }
  destruct (Hlist nodes s1 Hin Ha1 He1) as (keys & s2 & Hkeys).
  rewrite (bind_eq _ _ _ _ _ Hkeys). by eexists.
Qed.

End sort.

Lemma StronglySorted_lookup_lt {A} (R : A -> A -> Prop) (l : list A) :
  StronglySorted R l ->
  forall i j a b,
    (i < j)%nat -> l !! i = Some a -> l !! j = Some b -> R a b.
Proof.
  induction 1 as [|x l Hl IH Hx]; intros i j a b Hij Hi Hj; [done|].
  destruct j as [|j]; [lia|]. cbn in Hj. destruct i as [|i]; cbn in Hi.
  - injection Hi as <-. apply (proj1 (Forall_forall _ _) Hx).
    by apply list_elem_of_lookup_2 in Hj.
  - apply (IH i j); [lia|done..].
Qed.


Section sort_claims.
Context `{Collaborators}.

(** X1.  [_sort_based_on_last_used] returns the nodes it is given, each
    once, most recently used first: the key of a node is the last-used
    time of its IP, and one less than the least last-used time of all when
    the load metrics do not know the IP.  It returns when the provider
    answers and [last_used] is not empty. *)
Theorem sort_based_on_last_used_is_most_recent_first nodes last_used s :
  (forall sorted,
     (_sort_based_on_last_used nodes last_used s).1 = Ok sorted ->
     exists least,
       min_values last_used = Some least
       /\ (forall ip t, last_used !! ip = Some t -> least <= t)
       /\ sorted ≡ₚ nodes
       /\ forall i j a b,
            (i < j)%nat -> sorted !! i = Some a -> sorted !! j = Some b ->
            last_time_used s last_used least b
            <= last_time_used s last_used least a)
  /\ (answering s -> last_used <> ∅ ->
      exists sorted,
        (_sort_based_on_last_used nodes last_used s).1 = Ok sorted).
Proof.
  split; [|by apply _sort_based_on_last_used_returns].
  intros sorted Hr.
  destruct (_sort_based_on_last_used _ _ s) as [r s'] eqn:Hs.
  cbn in Hr. subst r.
  apply _sort_based_on_last_used_ok_inv in Hs as (least & Hmin & -> & _).
  exists least. split; [done|]. split; [by apply min_values_le|].
  destruct (sorted_reverse_spec (last_time_used s last_used least) nodes)
    as (Hp & Hs & _).
  split; [done|]. intros i j a b Hij Hi Hj.
  by apply (StronglySorted_lookup_lt _ _ Hs i j a b).
Qed.

(** X2.  The sort is stable: nodes of equal key, and so all the nodes the
    load metrics do not know, keep the order the provider listed them
    in. *)
Theorem sort_based_on_last_used_is_stable nodes last_used s sorted least :
  (_sort_based_on_last_used nodes last_used s).1 = Ok sorted ->
  min_values last_used = Some least ->
  forall t,
    filter (fun n => last_time_used s last_used least n = t) sorted
    = filter (fun n => last_time_used s last_used least n = t) nodes.
Proof.
  intros Hr Hmin t.
  destruct (_sort_based_on_last_used _ _ s) as [r s'] eqn:Hs.
  cbn in Hr. subst r.
  apply _sort_based_on_last_used_ok_inv in Hs as (least' & Hmin' & -> & _).
  assert (least' = least) as -> by congruence.
  by destruct (sorted_reverse_spec (last_time_used s last_used least) nodes)
    as (_ & _ & ->).
Qed.

(** X3.  The nodes the load metrics do not know come last: in the list
    [_sort_based_on_last_used] returns, a node whose IP has a last-used
    time is never behind one whose IP has none. *)
Theorem unconnected_nodes_are_sorted_last nodes last_used s sorted i j a b :
  (_sort_based_on_last_used nodes last_used s).1 = Ok sorted ->
  (i < j)%nat -> sorted !! i = Some a -> sorted !! j = Some b ->
  connected s last_used b -> connected s last_used a.
Proof.
  intros Hr Hij Hi Hj [tb Hb].
  destruct (_sort_based_on_last_used _ _ s) as [r s'] eqn:Hs.
  cbn in Hr. subst r.
  apply _sort_based_on_last_used_ok_inv in Hs as (least & Hmin & -> & _).
  destruct (sorted_reverse_spec (last_time_used s last_used least) nodes)
    as (_ & Hs & _).
  pose proof (StronglySorted_lookup_lt _ _ Hs i j a b Hij Hi Hj) as Hle.
  cbn in Hle. unfold last_time_used in Hle. rewrite Hb in Hle. cbn in Hle.
  pose proof (min_values_le _ _ Hmin _ _ Hb) as Hmb.
  unfold connected.
  destruct (last_used !! p_ip (provider s) a) as [ta|]; [by eexists|].
  cbn in Hle. lia.
Qed.

End sort_claims.

Lemma sort_based_on_last_used_is_most_recent_first_witness :
  (_sort_based_on_last_used ["n1"; "n2"; "n3"; "n4"]%string
     (last_used_time_by_ip (load_metrics Cluster.joining_cluster))
     Cluster.joining_cluster).1
  = Ok ["n3"; "n1"; "n2"; "n4"]%string
  /\ (exists least,
        min_values (last_used_time_by_ip
                      (load_metrics Cluster.joining_cluster)) = Some least
        /\ (forall ip t,
              last_used_time_by_ip (load_metrics Cluster.joining_cluster)
                !! ip = Some t -> least <= t)
        /\ ["n3"; "n1"; "n2"; "n4"]%string
           ≡ₚ ["n1"; "n2"; "n3"; "n4"]%string
        /\ forall i j a b,
             (i < j)%nat ->
             ["n3"; "n1"; "n2"; "n4"]%string !! i = Some a ->
             ["n3"; "n1"; "n2"; "n4"]%string !! j = Some b ->
             last_time_used Cluster.joining_cluster
               (last_used_time_by_ip (load_metrics Cluster.joining_cluster))
               least b
             <= last_time_used Cluster.joining_cluster
                  (last_used_time_by_ip
                     (load_metrics Cluster.joining_cluster))
                  least a)
  /\ exists sorted,
       (_sort_based_on_last_used ["n1"; "n2"; "n3"; "n4"]%string
          (last_used_time_by_ip (load_metrics Cluster.joining_cluster))
          Cluster.joining_cluster).1 = Ok sorted.
Proof.
  split; [by vm_compute|]. split.
  - apply (proj1 (sort_based_on_last_used_is_most_recent_first
                    ["n1"; "n2"; "n3"; "n4"]%string
                    (last_used_time_by_ip
                       (load_metrics Cluster.joining_cluster))
                    Cluster.joining_cluster)).
    by vm_compute.
  - apply (proj2 (sort_based_on_last_used_is_most_recent_first
                    ["n1"; "n2"; "n3"; "n4"]%string
                    (last_used_time_by_ip
                       (load_metrics Cluster.joining_cluster))
                    Cluster.joining_cluster)).
    + reflexivity.
    + intros Hempty. by vm_compute in Hempty.
Defined.

Lemma sort_based_on_last_used_is_stable_witness :
  filter (fun n => last_time_used Cluster.joining_cluster
                     (last_used_time_by_ip
                        (load_metrics Cluster.joining_cluster)) 900 n
                   = 899)
    ["n3"; "n1"; "n2"; "n4"]%string
  = filter (fun n => last_time_used Cluster.joining_cluster
                       (last_used_time_by_ip
                          (load_metrics Cluster.joining_cluster)) 900 n
                     = 899)
      ["n1"; "n2"; "n3"; "n4"]%string.
Proof.
  apply (sort_based_on_last_used_is_stable
           ["n1"; "n2"; "n3"; "n4"]%string
           (last_used_time_by_ip (load_metrics Cluster.joining_cluster))
           Cluster.joining_cluster ["n3"; "n1"; "n2"; "n4"]%string 900);
    by vm_compute.
Defined.

Lemma unconnected_nodes_are_sorted_last_witness :
  connected Cluster.joining_cluster
    (last_used_time_by_ip (load_metrics Cluster.joining_cluster))
    "n1"%string
  /\ connected Cluster.joining_cluster
       (last_used_time_by_ip (load_metrics Cluster.joining_cluster))
       "n3"%string.
Proof.
  assert (connected Cluster.joining_cluster
            (last_used_time_by_ip (load_metrics Cluster.joining_cluster))
            "n1"%string) as H1 by (exists 900; by vm_compute).
  split; [done|].
  apply (unconnected_nodes_are_sorted_last
           ["n1"; "n2"; "n3"; "n4"]%string
           (last_used_time_by_ip (load_metrics Cluster.joining_cluster))
           Cluster.joining_cluster ["n3"; "n1"; "n2"; "n4"]%string
           0%nat 1%nat "n3"%string "n1"%string);
    [by vm_compute | lia | reflexivity | reflexivity | done].
Defined.

(** ** Launch requests *)

Lemma launch_requests_fuel cfg batch ty :
  1 <= batch ->
  forall fuel count,
  count <= Z.of_nat fuel ->
  exists requests,
    launch_requests fuel cfg batch ty count = Some requests
    /\ Z.of_nat (length requests) = Z.max 0 ((count + batch - 1) / batch)
    /\ requested_count requests = Z.max 0 count
    /\ Forall (fun r => 1 <= lr_count r <= batch
                        /\ lr_config r = cfg /\ lr_node_type r = ty)
         requests.
Proof.
  intros Hb.
  assert (forall count, count <= 0 -> (count + batch - 1) / batch <= 0)
    as Hneg.
  { intros count Hc.
    assert ((count + batch - 1) / batch < 1); [|lia].
    apply Z.div_lt_upper_bound; lia. }
  induction fuel as [|fuel IH]; intros count Hc; cbn [launch_requests].
  - destruct (count >? 0) eqn:Hgt; [apply Z.gtb_gt in Hgt; lia|].
    rewrite Z.gtb_ltb in Hgt. apply Z.ltb_ge in Hgt. exists []. split; [done|].
    specialize (Hneg count). cbn. split; [lia|]. split; [lia|constructor].
  - destruct (count >? 0) eqn:Hgt.
    + apply Z.gtb_gt in Hgt.
      destruct (IH (count - batch)) as (reqs & -> & Hlen & Hsum & Hall);
        [lia|].
      eexists. split; [done|].
      assert ((count + batch - 1) / batch = (count - 1) / batch + 1) as Hdiv.
      { replace (count + batch - 1) with (count - 1 + 1 * batch) by lia.
        apply Z.div_add. lia. }
      assert (0 <= (count - 1) / batch) by (apply Z.div_pos; lia).
      replace (count - batch + batch - 1) with (count - 1) in Hlen by lia.
      unfold requested_count in *. cbn [length fmap list_fmap foldr lr_count].
      rewrite Hdiv. clear Hdiv Hneg IH.
      set (q := (count - 1) / batch) in *. clearbody q.
      set (total := foldr Z.add 0 (lr_count <$> reqs)) in *. clearbody total.
      split; [lia|]. split; [lia|].
      constructor; [cbn; split; [lia|done]|done].
    + rewrite Z.gtb_ltb in Hgt. apply Z.ltb_ge in Hgt. exists [].
      split; [done|].
      specialize (Hneg count). cbn. split; [lia|]. split; [lia|constructor].
Qed.

(** With a batch size that is not positive the loop of [launch_new_node]
    does not end, however many rounds it is given. *)
Lemma launch_requests_no_fuel cfg batch ty :
  batch <= 0 ->
  forall fuel count, 0 < count ->
  launch_requests fuel cfg batch ty count = None.
Proof.
  intros Hb. induction fuel as [|fuel IH]; intros count Hc;
    cbn [launch_requests];
    rewrite (proj2 (Z.gtb_gt count 0)) by lia; [done|].
  rewrite IH by lia. done.
Qed.

Section launching.
Context `{Collaborators}.

(** X4.  With a positive [max_launch_batch], [launch_new_node] returns;
    it adds [count] to the pending launches of the node type (also when
    [count] is not positive) and appends to the launch queue
    [ceil(count / max_launch_batch)] requests, each for the node type and
    the config of the moment and for at least one and at most
    [max_launch_batch] nodes, [count] nodes in all; and none when [count]
    is not positive. *)
Theorem launch_new_node_queues_batches count node_type s :
  1 <= max_launch_batch s ->
  exists requests,
    launch_new_node count node_type s
    = (Ok tt,
       set_launch_queue (launch_queue s ++ requests)
         (set_pending_launches
            (<[node_type :=
                 default 0 (pending_launches s !! node_type) + count]>
               (pending_launches s)) s))
    /\ Z.of_nat (length requests)
       = Z.max 0 ((count + max_launch_batch s - 1) / max_launch_batch s)
    /\ requested_count requests = Z.max 0 count
    /\ Forall (fun r => 1 <= lr_count r <= max_launch_batch s
                        /\ lr_config r = config s
                        /\ lr_node_type r = node_type) requests.
Proof.
  intros Hb.
  destruct (launch_requests_fuel (config s) (max_launch_batch s) node_type
              Hb (Z.to_nat count) count)
    as (requests & Hr & Hlen & Hsum & Hall);
    [lia|].
  exists requests. split; [|done].
  unfold launch_new_node.
  rewrite (bind_eq (assign _) _ s _ _ eq_refl).
  rewrite (bind_eq self _ _ _ _ eq_refl).
  cbn [config max_launch_batch set_pending_launches]. by rewrite Hr.
Qed.

(** X5.  With a [max_launch_batch] that is not positive, [launch_new_node]
    of a positive [count] does not return: [count -= max_launch_batch]
    never brings [count] to 0.  The pending launches have been incremented
    by then. *)
Theorem launch_new_node_needs_a_positive_batch count node_type s :
  max_launch_batch s <= 0 -> 0 < count ->
  (forall fuel,
     launch_requests fuel (config s) (max_launch_batch s) node_type count
     = None)
  /\ (launch_new_node count node_type s).1 = Diverge
  /\ pending_launches (launch_new_node count node_type s).2 !! node_type
     = Some (default 0 (pending_launches s !! node_type) + count).
Proof.
  intros Hb Hc.
  pose proof (launch_requests_no_fuel (config s) (max_launch_batch s)
                node_type Hb) as Hnone.
  split; [intros fuel; by apply Hnone|].
  unfold launch_new_node.
  rewrite (bind_eq (assign _) _ s _ _ eq_refl).
  rewrite (bind_eq self _ _ _ _ eq_refl).
  cbn [config max_launch_batch set_pending_launches].
  rewrite Hnone by done. cbn. split; [done|]. apply lookup_insert_eq.
Qed.

End launching.

Lemma launch_new_node_queues_batches_witness :
  exists requests,
    launch_new_node 12 (Some "A"%string) Cluster.fresh_cluster
    = (Ok tt,
       set_launch_queue (launch_queue Cluster.fresh_cluster ++ requests)
         (set_pending_launches
            (<[Some "A"%string :=
                 default 0 (pending_launches Cluster.fresh_cluster
                              !! Some "A"%string) + 12]>
               (pending_launches Cluster.fresh_cluster))
            Cluster.fresh_cluster))
    /\ Z.of_nat (length requests)
       = Z.max 0 ((12 + max_launch_batch Cluster.fresh_cluster - 1)
                  / max_launch_batch Cluster.fresh_cluster)
    /\ requested_count requests = Z.max 0 12
    /\ Forall (fun r => 1 <= lr_count r
                             <= max_launch_batch Cluster.fresh_cluster
                        /\ lr_config r = config Cluster.fresh_cluster
                        /\ lr_node_type r = Some "A"%string) requests.
Proof.
  apply (launch_new_node_queues_batches 12 (Some "A"%string)
           Cluster.fresh_cluster).
  by vm_compute.
Defined.


Lemma launch_new_node_needs_a_positive_batch_witness :
  (launch_new_node 3 (Some "A"%string)
     (Cluster.with_max_launch_batch (-1) Cluster.fresh_cluster)).1
  = Diverge.
Proof.
  apply (launch_new_node_needs_a_positive_batch 3 (Some "A"%string)
           (Cluster.with_max_launch_batch (-1) Cluster.fresh_cluster));
    by vm_compute.
Defined.

(** ** The number of workers step 3 terminates *)

Lemma terminate_unneeded_count max_workers :
  forall fuel nodes acc kept selected,
  terminate_unneeded fuel max_workers nodes acc = Some (kept, selected) ->
  let excess :=
    Z.of_nat (length nodes) - Z.of_nat (length acc) - max_workers in
  Z.of_nat (length selected) - Z.of_nat (length acc)
  = Z.min (Z.of_nat (length nodes)) (Z.max 0 ((excess + 1) / 2)).
Proof.
  induction fuel as [|fuel IH]; intros nodes acc kept selected;
    cbn [terminate_unneeded]; cbv zeta.
  - destruct (_ && _) eqn:Hcond; [done|]. intros [= <- <-].
    apply andb_false_iff in Hcond as [Hle|Hempty].
    + rewrite Z.gtb_ltb in Hle. apply Z.ltb_ge in Hle.
      set (d := Z.of_nat (length nodes) - Z.of_nat (length acc)
                - max_workers) in *.
      assert ((d + 1) / 2 < 1) by (apply Z.div_lt_upper_bound; lia).
      set (q := (d + 1) / 2) in *. clearbody q. lia.
    + destruct nodes; [|done]. cbn [length].
      set (q := (_ + 1) / 2). clearbody q. lia.
  - destruct (_ && _) eqn:Hcond.
    + apply andb_true_iff in Hcond as [Hgt Hne]. apply Z.gtb_gt in Hgt.
      destruct (pop nodes) as [[nodes' x]|] eqn:Hpop; [|done].
      apply pop_Some in Hpop as ->. intros Hr.
      specialize (IH _ _ _ _ Hr). cbv zeta in IH.
      rewrite !length_app in IH, Hgt |- *. cbn [length] in IH, Hgt |- *.
      set (n := length nodes') in *. set (a := length acc) in *.
      clearbody n a.
      set (d := Z.of_nat (n + 1) - Z.of_nat a - max_workers) in *.
      replace (Z.of_nat n - Z.of_nat (a + 1) - max_workers + 1)
        with (d - 1) in IH by lia.
      assert ((d + 1) / 2 = (d - 1) / 2 + 1) as Hdiv.
      { replace (d + 1) with (d - 1 + 1 * 2) by lia. apply Z.div_add. lia. }
      assert (0 <= (d - 1) / 2) by (apply Z.div_pos; lia).
      rewrite Hdiv. set (q := (d - 1) / 2) in *. clearbody q. lia.
    + intros [= <- <-].
      apply andb_false_iff in Hcond as [Hle|Hempty].
      * rewrite Z.gtb_ltb in Hle. apply Z.ltb_ge in Hle.
        set (d := Z.of_nat (length nodes) - Z.of_nat (length acc)
                  - max_workers) in *.
        assert ((d + 1) / 2 < 1) by (apply Z.div_lt_upper_bound; lia).
        set (q := (d + 1) / 2) in *. clearbody q. lia.
      * destruct nodes; [|done]. cbn [length].
        set (q := (_ + 1) / 2). clearbody q. lia.
Qed.

Section too_many.
Context `{Collaborators}.

(** X6.  Step 3 pops a node and counts it as terminated in the same round,
    so the difference the loop tests drops by two per round: of an excess
    of [length nodes - max_workers] workers it selects half, rounded up (and
    never more than there are).  With an excess of two or more, the
    workers that stay are still more than [max_workers]. *)
Theorem terminate_too_many_takes_half_the_excess nodes s max_workers :
  c_max_workers (config s) = Some max_workers ->
  exists kept selected,
    terminate_too_many nodes s = (Ok (kept, selected), s)
    /\ Z.of_nat (length selected)
       = Z.min (Z.of_nat (length nodes))
           (Z.max 0 ((Z.of_nat (length nodes) - max_workers + 1) / 2))
    /\ length kept = (length nodes - length selected)%nat
    /\ (0 <= max_workers ->
        2 <= Z.of_nat (length nodes) - max_workers ->
        max_workers < Z.of_nat (length kept)).
Proof.
  intros Hmax. unfold terminate_too_many, bind, self. cbn. rewrite Hmax. cbn.
  destruct (terminate_unneeded_fuel (length nodes) max_workers nodes [])
    as [[kept selected] Hr]; [done|].
  rewrite Hr. exists kept, selected. split; [done|].
  pose proof (terminate_unneeded_count _ _ _ _ _ _ Hr) as Hcount.
  destruct (terminate_unneeded_spec _ _ _ _ _ _ Hr) as (popped & Hn & Hs).
  cbn in Hs. subst popped. cbv zeta in Hcount. cbn [length] in Hcount.
  change (Z.of_nat 0) with 0 in Hcount. rewrite !Z.sub_0_r in Hcount.
  assert (length nodes = (length kept + length selected)%nat) as Hlen
    by (by rewrite Hn, length_app, length_rev).
  split; [done|]. split; [lia|].
  intros Hm Hexcess.
  set (d := Z.of_nat (length nodes) - max_workers) in *.
  assert ((d + 1) / 2 < d) by (apply Z.div_lt_upper_bound; lia).
  set (q := (d + 1) / 2) in *. clearbody q. lia.
Qed.

End too_many.

Lemma terminate_too_many_takes_half_the_excess_witness :
  exists kept selected,
    terminate_too_many ["a"; "b"; "c"; "d"; "e"]%string Cluster.over_capacity
    = (Ok (kept, selected), Cluster.over_capacity)
    /\ Z.of_nat (length selected)
       = Z.min (Z.of_nat (length ["a"; "b"; "c"; "d"; "e"]%string))
           (Z.max 0
              ((Z.of_nat (length ["a"; "b"; "c"; "d"; "e"]%string) - 1 + 1)
               / 2))
    /\ length kept
       = (length ["a"; "b"; "c"; "d"; "e"]%string - length selected)%nat
    /\ (0 <= 1 ->
        2 <= Z.of_nat (length ["a"; "b"; "c"; "d"; "e"]%string) - 1 ->
        1 < Z.of_nat (length kept)).
Proof.
  apply (terminate_too_many_takes_half_the_excess
           ["a"; "b"; "c"; "d"; "e"]%string Cluster.over_capacity 1).
  reflexivity.
Defined.

(** ** The reap of the completed updaters *)

Lemma PyDict_get_del_ne {V} (k k' : NodeID) (d : list (NodeID * V)) :
  k' <> k -> PyDict.get (PyDict.del k d) k' = PyDict.get d k'.
Proof.
  intros Hne. induction d as [|[k0 v0] d IH]; cbn; [done|].
  destruct (decide (k0 = k)) as [->|Hk0]; cbn.
  - by rewrite decide_False.
  - by rewrite IH.
Qed.

Lemma PyDict_get_elem_of {V} (k : NodeID) (v : V) (d : list (NodeID * V)) :
  NoDup (PyDict.keys d) -> (k, v) ∈ d <-> PyDict.get d k = Some v.
Proof.
  unfold PyDict.keys.
  induction d as [|[k0 v0] d IH]; cbn; intros Hd.
  { split; [by intros ?%elem_of_nil|done]. }
  apply NoDup_cons in Hd as [Hk0 Hd]. rewrite elem_of_cons.
  destruct (decide (k0 = k)) as [->|Hne].
  - split; [|intros [= ->]; by left].
    intros [[= ->]|Hin]; [done|]. destruct Hk0.
    by apply (list_elem_of_fmap_2 fst) in Hin.
  - rewrite <-(IH Hd). split; [|by right]. intros [[= ? ?]|Hin]; done.
Qed.

Lemma filter_ext_elem_of {A} (P Q : A -> Prop) `{!forall x, Decision (P x)}
    `{!forall x, Decision (Q x)} (l : list A) :
  (forall x, x ∈ l -> P x <-> Q x) -> filter P l = filter Q l.
Proof.
  induction l as [|x l IH]; intros Hl; [done|].
  rewrite !filter_cons, IH
    by (intros y Hy; apply Hl; by apply list_elem_of_further).
  pose proof (Hl x (list_elem_of_here _ _)).
  destruct (decide (P x)), (decide (Q x)); tauto.
Qed.

Lemma filter_all {A} (P : A -> Prop) `{!forall x, Decision (P x)}
    (l : list A) :
  (forall x, x ∈ l -> P x) -> filter P l = l.
Proof.
  induction l as [|x l IH]; intros Hl; [done|].
  rewrite filter_cons_True by apply Hl, list_elem_of_here.
  rewrite IH; [done|]. intros y Hy. by apply Hl, list_elem_of_further.
Qed.

Lemma PyDict_del_filter {V} (k : NodeID) (d : list (NodeID * V)) :
  NoDup (PyDict.keys d) ->
  PyDict.del k d = filter (fun e => e.1 <> k) d.
Proof.
  unfold PyDict.keys.
  induction d as [|[k0 v0] d IH]; cbn [PyDict.del fmap list_fmap fst];
    intros Hd; [done|].
  apply NoDup_cons in Hd as [Hk0 Hd]. rewrite filter_cons. cbn [fst].
  destruct (decide (k0 = k)) as [->|Hne].
  - rewrite decide_False by (by intros ?).
    rewrite filter_all; [done|]. intros e He Heq. destruct Hk0.
    rewrite <-Heq. by apply (list_elem_of_fmap_2 fst) in He.
  - rewrite decide_True by done. by rewrite IH.
Qed.

Lemma PyDict_get_del_eq {V} (k : NodeID) (d : list (NodeID * V)) :
  NoDup (PyDict.keys d) -> PyDict.get (PyDict.del k d) k = None.
Proof.
  intros Hd. destruct (PyDict.get (PyDict.del k d) k) as [v|] eqn:Hget;
    [|done].
  apply PyDict_get_elem_of in Hget; [|by apply PyDict_NoDup_del].
  rewrite PyDict_del_filter in Hget by done.
  by apply list_elem_of_filter in Hget as [? _].
Qed.

Section reap_loop.
Context `{Collaborators}.

(** The loop [for node_id in completed] over keys of [updaters]. *)
Lemma reap_loop l :
  forall s,
  NoDup l -> NoDup (PyDict.keys (updaters s)) ->
  (forall k, k ∈ l -> is_Some (PyDict.get (updaters s) k)) ->
  exists s',
    for_each l (fun node_id =>
      s <- self ;;
      updater <- getitem node_id (PyDict.get (updaters s) node_id) ;;
      (if bool_decide (exitcode updater = 0) then
         assign (fun s =>
           set_num_successful_updates
             (<[node_id :=
                  default 0 (num_successful_updates s !! node_id) + 1]>
                (num_successful_updates s)) s)
       else
         assign (fun s =>
           set_num_failed_updates
             (<[node_id :=
                  default 0 (num_failed_updates s !! node_id) + 1]>
                (num_failed_updates s)) s)) ;;
      assign (fun s => set_updaters (PyDict.del node_id (updaters s)) s)) s
    = (Ok tt, s')
    /\ updaters s' = filter (fun e => e.1 ∉ l) (updaters s)
    /\ (forall n,
          num_successful_updates s' !! n
          = match PyDict.get (updaters s) n with
            | Some u =>
                if bool_decide (n ∈ l) && bool_decide (exitcode u = 0)
                then Some (default 0 (num_successful_updates s !! n) + 1)
                else num_successful_updates s !! n
            | None => num_successful_updates s !! n
            end)
    /\ (forall n,
          num_failed_updates s' !! n
          = match PyDict.get (updaters s) n with
            | Some u =>
                if bool_decide (n ∈ l) && negb (bool_decide (exitcode u = 0))
                then Some (default 0 (num_failed_updates s !! n) + 1)
                else num_failed_updates s !! n
            | None => num_failed_updates s !! n
            end).
Proof.
  induction l as [|k l IH]; intros s Hl Hd Hin.
  { exists s. split; [done|]. split.
    - rewrite filter_all; [done|]. by intros e _ ?%elem_of_nil.
    - split; intros n; by destruct (PyDict.get (updaters s) n). }
  apply NoDup_cons in Hl as [Hk Hl].
  destruct (Hin k) as [u Hu]; [apply list_elem_of_here|].
  cbn [for_each]. rewrite (bind_eq _ _ s (Ok tt)
    (set_updaters (PyDict.del k (updaters s))
       (if bool_decide (exitcode u = 0)
        then set_num_successful_updates
               (<[k := default 0 (num_successful_updates s !! k) + 1]>
                  (num_successful_updates s)) s
        else set_num_failed_updates
               (<[k := default 0 (num_failed_updates s !! k) + 1]>
                  (num_failed_updates s)) s))).
  2:{ rewrite (bind_eq self _ _ _ _ eq_refl), Hu. cbn [getitem].
      rewrite (bind_eq (ret u) _ s _ _ eq_refl).
      by destruct (bool_decide (exitcode u = 0)). }
  set (s1 := set_updaters _ _).
  assert (updaters s1 = PyDict.del k (updaters s)) as Hu1
    by (unfold s1; by destruct (bool_decide _)).
  destruct (IH s1) as (s' & Hrun & Hupd & Hsucc & Hfail); [done|..].
  { rewrite Hu1. by apply PyDict_NoDup_del. }
  { intros k' Hk'. rewrite Hu1, PyDict_get_del_ne.
    - apply Hin. by apply list_elem_of_further.
    - intros ->. done. }
  exists s'. split; [done|]. split; [|split].
  - rewrite Hupd, Hu1, PyDict_del_filter, list_filter_filter by done.
    apply list_filter_iff. intros e. rewrite not_elem_of_cons. tauto.
  - intros n. rewrite Hsucc, Hu1.
    destruct (decide (n = k)) as [->|Hne].
    + rewrite PyDict_get_del_eq by done.
      rewrite Hu, (bool_decide_eq_true_2 (k ∈ k :: l))
        by apply list_elem_of_here.
      unfold s1. cbn [andb].
      destruct (bool_decide (exitcode u = 0)); cbn; [|done].
      by rewrite lookup_insert_eq.
    + rewrite PyDict_get_del_ne by done.
      assert (num_successful_updates s1 !! n = num_successful_updates s !! n)
        as Hn.
      { unfold s1. destruct (bool_decide (exitcode u = 0)); cbn; [|done].
        by rewrite lookup_insert_ne. }
      rewrite Hn.
      rewrite (bool_decide_ext (n ∈ k :: l) (n ∈ l)); [done|].
      rewrite elem_of_cons. tauto.
  - intros n. rewrite Hfail, Hu1.
    destruct (decide (n = k)) as [->|Hne].
    + rewrite PyDict_get_del_eq by done.
      rewrite Hu, (bool_decide_eq_true_2 (k ∈ k :: l))
        by apply list_elem_of_here.
      unfold s1. cbn [andb].
      destruct (bool_decide (exitcode u = 0)); cbn; [done|].
      by rewrite lookup_insert_eq.
    + rewrite PyDict_get_del_ne by done.
      assert (num_failed_updates s1 !! n = num_failed_updates s !! n) as Hn.
      { unfold s1. destruct (bool_decide (exitcode u = 0)); cbn; [done|].
        by rewrite lookup_insert_ne. }
      rewrite Hn.
      rewrite (bool_decide_ext (n ∈ k :: l) (n ∈ l)); [done|].
      rewrite elem_of_cons. tauto.
Qed.

End reap_loop.

Section reap_claims.
Context `{Collaborators}.

(** X7.  Step 5 removes from [updaters] exactly the updaters that are no
    longer alive, keeping the others in their order, and counts each of
    them once: in [num_successful_updates] when its exit code is 0, in
    [num_failed_updates] otherwise.  That is the state it leaves whether
    or not the provider then answers the calls that follow the loop. *)
Theorem completed_updaters_are_reaped now nodes s :
  NoDup (PyDict.keys (updaters s)) ->
  let s' := (process_completed_updates now nodes s).2 in
  updaters s' = filter (fun entry => is_alive entry.2) (updaters s)
  /\ (forall n,
        num_successful_updates s' !! n
        = reaped_count (updaters s) (fun code => bool_decide (code = 0))
            (num_successful_updates s) n)
  /\ (forall n,
        num_failed_updates s' !! n
        = reaped_count (updaters s)
            (fun code => negb (bool_decide (code = 0)))
            (num_failed_updates s) n).
Proof.
  intros Hd. cbv zeta.
  set (d := updaters s) in *.
  set (completed := (filter (fun entry => negb (is_alive entry.2)) d).*1).
  assert (forall k u, (k, u) ∈ d -> k ∈ completed <-> is_alive u = false)
    as Hcompleted.
  { intros k u Hku. unfold completed. rewrite list_elem_of_fmap. split.
    - intros ([k' u'] & -> & [Hdead Hin]%list_elem_of_filter).
      cbn in *. apply (PyDict_get_elem_of _ _ _ Hd) in Hin, Hku.
      rewrite Hku in Hin. injection Hin as <-.
      by destruct (is_alive u).
    - intros Hdead. exists (k, u). split; [done|].
      apply list_elem_of_filter. cbn. by rewrite Hdead. }
  destruct (reap_loop completed s) as (s1 & Hrun & Hupd & Hsucc & Hfail).
  { unfold completed. eapply sublist_NoDup; [exact Hd|].
    unfold PyDict.keys. apply fmap_sublist, sublist_filter. }
  { done. }
  { intros k [[k' u] [-> [_ Hin]%list_elem_of_filter]]%list_elem_of_fmap.
    apply (PyDict_get_elem_of _ _ _ Hd) in Hin. by eexists. }
  fold d in Hupd, Hsucc, Hfail.
  assert (updaters s1 = filter (fun entry => is_alive entry.2) d
          /\ (forall n,
                num_successful_updates s1 !! n
                = reaped_count d (fun code => bool_decide (code = 0))
                    (num_successful_updates s) n)
          /\ (forall n,
                num_failed_updates s1 !! n
                = reaped_count d (fun code => negb (bool_decide (code = 0)))
                    (num_failed_updates s) n)) as Hs1.
  { split; [|split].
    - rewrite Hupd. apply filter_ext_elem_of. intros [k u] Hin. cbn.
      rewrite (Hcompleted k u Hin). by destruct (is_alive u).
    - intros n. rewrite Hsucc. unfold reaped_count.
      destruct (PyDict.get d n) as [u|] eqn:Hget; [|done].
      apply (PyDict_get_elem_of _ _ _ Hd) in Hget.
      rewrite (bool_decide_ext _ _ (Hcompleted n u Hget)).
      by destruct (is_alive u).
    - intros n. rewrite Hfail. unfold reaped_count.
      destruct (PyDict.get d n) as [u|] eqn:Hget; [|done].
      apply (PyDict_get_elem_of _ _ _ Hd) in Hget.
      rewrite (bool_decide_ext _ _ (Hcompleted n u Hget)).
      by destruct (is_alive u). }
  clear Hupd Hsucc Hfail Hcompleted.
  unfold process_completed_updates.
  rewrite (bind_eq self _ s (Ok s) s eq_refl). fold d completed.
  destruct (last completed) as [last_node_id|] eqn:Hlast.
  - rewrite (bind_eq _ _ _ _ _ Hrun).
    set (P := fun x : StandardAutoscaler =>
                updaters x = updaters s1
                /\ num_successful_updates x = num_successful_updates s1
                /\ num_failed_updates x = num_failed_updates s1).
    match goal with
    | |- context [(?rest s1).2] =>
        assert (P (rest s1).2) as (Hu & Hns & Hnf)
    end.
    { match goal with
      | |- P (?rest s1).2 =>
          apply (fun Hi : inv P rest =>
                   Hi s1 (conj eq_refl (conj eq_refl eq_refl)))
      end.
      unfold P, mark_active. inv_solve. }
    by rewrite Hu, Hns, Hnf.
  - apply last_None in Hlast. rewrite Hlast in Hrun.
    injection Hrun as <-. cbn. done.
Qed.

End reap_claims.

Lemma completed_updaters_are_reaped_witness :
  let s' :=
    (process_completed_updates 1200 ["n1"; "n2"]%string
       Cluster.two_finished_updates).2 in
  updaters s'
  = filter (fun entry => is_alive entry.2)
      (updaters Cluster.two_finished_updates)
  /\ (forall n,
        num_successful_updates s' !! n
        = reaped_count (updaters Cluster.two_finished_updates)
            (fun code => bool_decide (code = 0))
            (num_successful_updates Cluster.two_finished_updates) n)
  /\ (forall n,
        num_failed_updates s' !! n
        = reaped_count (updaters Cluster.two_finished_updates)
            (fun code => negb (bool_decide (code = 0)))
            (num_failed_updates Cluster.two_finished_updates) n).
Proof.
  apply (completed_updaters_are_reaped 1200 ["n1"; "n2"]%string
           Cluster.two_finished_updates).
  apply (bool_decide_unpack _). by vm_compute.
Defined.


(** ** [kill_workers] *)

Lemma filter_filter_not {A} (P : A -> Prop) `{!forall x, Decision (P x)}
    (l : list A) :
  filter P (filter (fun x => ~ P x) l) = [].
Proof.
  induction l as [|x l IH]; [done|]. rewrite (filter_cons _ x).
  destruct (decide (~ P x)); [|done]. by rewrite filter_cons_False.
Qed.

Lemma matches_filters_singleton k v tags :
  matches_filters {[k := v]} tags = bool_decide (tags !! k = Some v).
Proof.
  unfold matches_filters. rewrite map_to_list_singleton. cbn.
  by rewrite andb_true_r.
Qed.

Section kill.
Context `{Collaborators}.

Lemma workers_answering s :
  answering s ->
  workers s
  = (Ok (worker_nodes (provider s)),
     set_provider
       (log_call
          (Call_non_terminated_nodes {[TAG_RAY_NODE_KIND := NODE_KIND_WORKER]})
          (provider s)) s).
Proof.
  intros Ha. unfold workers, non_terminated_nodes.
  rewrite (provider_read_answering _ _ s Ha). do 2 f_equal.
  unfold worker_nodes. apply list_filter_iff. intros n.
  rewrite matches_filters_singleton. apply bool_decide_spec.
Qed.

(** X8.  When the provider answers, [kill_workers] returns and leaves no
    node of kind [worker]: it asks the provider once to terminate all the
    workers it lists, and not at all when there is none; the nodes of
    another kind stay. *)
Theorem kill_workers_terminates_every_worker s :
  answering s ->
  let s' := (kill_workers s).2 in
  (kill_workers s).1 = Ok tt
  /\ terminated (provider s')
     = (if nonempty (worker_nodes (provider s))
        then [worker_nodes (provider s)] else [])
       ++ terminated (provider s)
  /\ worker_nodes (provider s') = []
  /\ p_nodes (provider s')
     = filter (fun n => p_tags (provider s) n !! TAG_RAY_NODE_KIND
                        <> Some NODE_KIND_WORKER)
         (p_nodes (provider s))
  /\ (workers s').1 = Ok [].
Proof.
  intros Ha. cbv zeta. unfold kill_workers.
  rewrite (bind_eq _ _ _ _ _ (workers_answering s Ha)).
  set (ws := worker_nodes (provider s)).
  set (s1 := set_provider _ s).
  assert (answering s1) as Ha1 by done.
  assert (forall n, n ∈ p_nodes (provider s) ->
            n ∉ ws
            <-> p_tags (provider s) n !! TAG_RAY_NODE_KIND
                <> Some NODE_KIND_WORKER) as Hws.
  { intros n Hn. unfold ws, worker_nodes. rewrite list_elem_of_filter. tauto. }
  assert (filter (fun n => p_tags (provider s) n !! TAG_RAY_NODE_KIND
                           = Some NODE_KIND_WORKER)
            (filter (fun n => p_tags (provider s) n !! TAG_RAY_NODE_KIND
                              <> Some NODE_KIND_WORKER)
               (p_nodes (provider s))) = []) as Hnone.
  { apply filter_filter_not. }
  assert (forall x, answering x -> worker_nodes (provider x) = [] ->
            (workers x).1 = Ok []) as Hw.
  { intros x Hx Hnil. by rewrite (workers_answering x Hx), Hnil. }
  destruct (nonempty ws) eqn:Hne.
  - unfold terminate_nodes. unfold answering in Ha1. rewrite Ha1.
    rewrite lookup_empty. cbn [fst snd provider set_provider].
    assert (filter (fun n => n ∉ ws) (p_nodes (provider s))
            = filter (fun n => p_tags (provider s) n !! TAG_RAY_NODE_KIND
                               <> Some NODE_KIND_WORKER)
                (p_nodes (provider s))) as Hrest
      by (by apply filter_ext_elem_of).
    split; [done|]. split; [done|].
    assert (worker_nodes
              (forget_nodes ws
                 (log_call (Call_terminate_nodes ws) (provider s1))) = [])
      as Hgone by (unfold worker_nodes; cbn; by rewrite Hrest).
    split; [done|]. split; [by cbn|]. by apply Hw.
  - assert (ws = []) as Hnil by (by destruct ws).
    cbn [ret fst snd]. split; [done|]. split; [done|].
    split; [done|]. split; [|by apply Hw].
    cbn. symmetry. apply filter_all. intros n Hn. apply Hws; [done|].
    rewrite Hnil. apply not_elem_of_nil.
Qed.

End kill.

Lemma kill_workers_terminates_every_worker_witness :
  (kill_workers Cluster.over_capacity).1 = Ok tt
  /\ terminated (provider (kill_workers Cluster.over_capacity).2)
     = [["n1"; "n2"]%string]
  /\ worker_nodes (provider (kill_workers Cluster.over_capacity).2) = [].
Proof.
  destruct (kill_workers_terminates_every_worker Cluster.over_capacity
              eq_refl) as (Hr & Ht & Hw & _).
  split; [exact Hr|]. split; [|exact Hw].
  rewrite Ht. by vm_compute.
Defined.

(** ** What [update] leaves alone *)

Section update_frame.
Context `{Collaborators}.

(** X9.  A throttled [update] reloads the config and does nothing else: it
    returns, and it leaves the autoscaler as [reset] alone does, so no
    provider call is made and no node is terminated or launched. *)
Theorem throttled_update_only_reloads_the_config now s :
  now - last_update_time s < update_interval_s s ->
  update now s = (Ok tt, (reset false s).2)
  /\ provider (update now s).2 = provider s
  /\ load_metrics (update now s).2 = load_metrics s
  /\ updaters (update now s).2 = updaters s
  /\ launch_queue (update now s).2 = launch_queue s
  /\ num_failures (update now s).2 = num_failures s
  /\ last_update_time (update now s).2 = last_update_time s.
Proof.
  intros Hlt.
  destruct (reset_last_update_time false s) as [Hl Hi].
  assert (update now s = (Ok tt, (reset false s).2)) as Hu.
  { unfold update. rewrite tick_eq, _update_throttled; [done|].
    by rewrite Hl, Hi. }
  rewrite Hu. cbn [snd]. split; [done|].
  repeat split;
    match goal with
    | |- ?f (reset false s).2 = ?f s =>
        apply (inv_reset (fun x => f x = f s)); frame_solve
    end.
Qed.

(** X10.  [update] never lowers [num_failures] and raises it by at most
    one; a tick that succeeds leaves it as it is, so the failures counted
    against [max_failures] are those of the whole life of the autoscaler,
    not the consecutive ones. *)
Theorem num_failures_is_never_reset now s :
  num_failures s <= num_failures (update now s).2 <= num_failures s + 1
  /\ ((tick now s).1 = Ok tt ->
      num_failures (update now s).2 = num_failures s).
Proof.
  pose proof (tick_num_failures now s) as Ht. unfold update.
  destruct (tick now s) as [[[]|e|] s1]; cbn [fst snd] in *;
    [split; [lia|done] | | split; [lia|done]].
  split; [|done]. rewrite <-Ht. clear.
  unfold on_tick_exception, bind, self, assign, _internal_kv_put, getitem.
  cbn.
  destruct (kv_initialized s1); cbn;
    (destruct (c_provider (config s1)) as [pc|]; cbn; [|lia]);
    (destruct (pc !! "type"%string) as [ty|]; cbn; [|lia]);
    destruct (negb _); cbn; destruct (_ >? _); cbn; lia.
Qed.

(** X11.  [update] changes neither the resource request nor what the
    constructor was given: a request made by [request_resources] stays in
    force over the ticks that follow, until the next request. *)
Theorem update_keeps_the_resource_request now s :
  resource_demand_vector (update now s).2 = resource_demand_vector s
  /\ (forall resources,
        resource_demand_vector
          (update now (request_resources resources s).2).2 = resources)
  /\ max_failures (update now s).2 = max_failures s
  /\ max_launch_batch (update now s).2 = max_launch_batch s
  /\ update_interval_s (update now s).2 = update_interval_s s
  /\ head_node_ip (update now s).2 = head_node_ip s.
Proof.
  assert (forall x, resource_demand_vector (update now x).2
                    = resource_demand_vector x) as Hr.
  { intros x.
    apply (inv_update (fun y => resource_demand_vector y
                                = resource_demand_vector x)); frame_solve. }
  split; [apply Hr|]. split; [intros resources; by rewrite Hr|].
  repeat split;
    match goal with
    | |- ?f (update now s).2 = ?f s =>
        apply (inv_update (fun x => f x = f s)); frame_solve
    end.
Qed.

End update_frame.

Lemma throttled_update_only_reloads_the_config_witness :
  update 3 Cluster.over_capacity
  = (Ok tt, (reset false Cluster.over_capacity).2)
  /\ provider (update 3 Cluster.over_capacity).2
     = provider Cluster.over_capacity.
Proof.
  destruct (throttled_update_only_reloads_the_config 3 Cluster.over_capacity)
    as (Hu & Hp & _); [by vm_compute|].
  split; [exact Hu|exact Hp].
Defined.

Lemma num_failures_is_never_reset_witness :
  (tick 1200 Cluster.over_capacity).1 = Ok tt
  /\ num_failures (update 1200 Cluster.over_capacity).2
     = num_failures Cluster.over_capacity.
Proof.
  assert ((tick 1200 Cluster.over_capacity).1 = Ok tt) as Ht
    by by vm_compute.
  split; [exact Ht|].
  exact (proj2 (num_failures_is_never_reset 1200 Cluster.over_capacity) Ht).
Defined.

(** ** The config refresher *)

Section reset_claims.
Context `{Collaborators}.

Lemma reset_body_raises sync s e :
  match config_file s with
  | inl e' => e' = e
  | inr cfg => hashed_fields cfg = Raise e
  end ->
  reset_body sync s = (Raise e, s).
Proof.
  unfold reset_body, hashed_fields.
  rewrite (bind_eq self _ _ _ _ eq_refl).
  destruct (config_file s) as [e'|cfg]; [by intros ->|].
  rewrite (bind_eq (ret cfg) _ s _ _ eq_refl).
  destruct (c_file_mounts cfg); cbn; [|by intros [= <-]].
  destruct (c_cluster_synced_files cfg); cbn; [|by intros [= <-]].
  destruct (c_worker_setup_commands cfg); cbn; [|by intros [= <-]].
  destruct (c_worker_start_ray_commands cfg); cbn; [done|by intros [= <-]].
Qed.

(** X12.  When the config file cannot be read, or the config lacks one of
    the four keys the runtime hash is computed from, [reset] changes
    nothing: the autoscaler goes on with the config it had.  The exception
    reaches the caller only when [errors_fatal] is set, as it is in the
    constructor; [update] resets with [errors_fatal=False] and never sees
    it. *)
Theorem reset_keeps_the_config_when_loading_fails s e :
  match config_file s with
  | inl e' => e' = e
  | inr cfg => hashed_fields cfg = Raise e
  end ->
  reset false s = (Ok tt, s) /\ reset true s = (Raise e, s).
Proof.
  intros He. unfold reset. by rewrite (reset_body_raises _ s e He).
Qed.

Lemma reset_body_hashed sync s cfg fm csf wsc wsrc :
  config_file s = inr cfg ->
  hashed_fields cfg = Ok (fm, csf, wsc, wsrc) ->
  let hashes := hash_runtime_conf fm csf [wsc; wsrc] sync in
  let s1 := set_config_and_hashes cfg hashes.1 hashes.2 s in
  reset_body sync s
  = match c_available_node_types cfg with
    | None => (Raise (KeyError "available_node_types"), s1)
    | Some node_types =>
        let s2 := set_available_node_types node_types s1 in
        match c_max_workers cfg with
        | None => (Raise (KeyError "max_workers"), s2)
        | Some max_workers =>
            (Ok tt,
             set_resource_demand_scheduler
               {| sc_node_types := node_types;
                  sc_max_workers := max_workers;
                  sc_upscaling_speed := upscaling_speed_of cfg |} s2)
        end
    end.
Proof.
  intros Hf Hh. cbv zeta. unfold reset_body, hashed_fields in *.
  rewrite (bind_eq self _ _ _ _ eq_refl), Hf.
  rewrite (bind_eq (ret cfg) _ s _ _ eq_refl).
  destruct (c_file_mounts cfg) as [fm'|]; [|done].
  destruct (c_cluster_synced_files cfg) as [csf'|]; [|done].
  destruct (c_worker_setup_commands cfg) as [wsc'|]; [|done].
  destruct (c_worker_start_ray_commands cfg) as [wsrc'|]; [|done].
  cbn in Hh. injection Hh as -> -> -> ->. cbn [getitem].
  rewrite !(bind_eq (ret _) _ s _ _ eq_refl).
  rewrite (bind_eq (assign _) _ s _ _ eq_refl).
  destruct (c_available_node_types cfg) as [nts|]; [|done]. cbn [getitem].
  rewrite (bind_eq (ret nts) _ _ _ _ eq_refl).
  rewrite (bind_eq (assign _) _ _ _ _ eq_refl).
  by destruct (c_max_workers cfg).
Qed.

(** X13.  [reset] is not atomic.  It installs the new config and its
    hashes before it reads [available_node_types] and [max_workers]: when
    the new config lacks [available_node_types], the autoscaler is left
    with the new config and the node types of the old one; when it lacks
    [max_workers], with the new config and node types and a scheduler that
    still has the old ones.  [update] goes on from that state, the
    [KeyError] being swallowed. *)
Theorem reset_is_not_atomic s cfg fm csf wsc wsrc :
  config_file s = inr cfg ->
  hashed_fields cfg = Ok (fm, csf, wsc, wsrc) ->
  let hashes :=
    hash_runtime_conf fm csf [wsc; wsrc]
      (truthy_bool (c_file_mounts_sync_continuously (config s))) in
  let s1 := set_config_and_hashes cfg hashes.1 hashes.2 s in
  (c_available_node_types cfg = None ->
   reset false s = (Ok tt, s1)
   /\ config (reset false s).2 = cfg
   /\ available_node_types (reset false s).2 = available_node_types s
   /\ resource_demand_scheduler (reset false s).2
      = resource_demand_scheduler s)
  /\ (forall node_types,
        c_available_node_types cfg = Some node_types ->
        c_max_workers cfg = None ->
        reset false s = (Ok tt, set_available_node_types node_types s1)
        /\ available_node_types (reset false s).2 = node_types
        /\ resource_demand_scheduler (reset false s).2
           = resource_demand_scheduler s).
Proof.
  intros Hf Hh. cbv zeta. split.
  - intros Hnt. unfold reset.
    rewrite (reset_body_hashed _ s cfg fm csf wsc wsrc Hf Hh). cbv zeta.
    by rewrite Hnt.
  - intros nts Hnt Hmax. unfold reset.
    rewrite (reset_body_hashed _ s cfg fm csf wsc wsrc Hf Hh). cbv zeta.
    by rewrite Hnt, Hmax.
Qed.

Lemma reset_reloaded b s cfg :
  config_file s = inr cfg ->
  is_Some (c_file_mounts cfg) -> is_Some (c_cluster_synced_files cfg) ->
  is_Some (c_worker_setup_commands cfg) ->
  is_Some (c_worker_start_ray_commands cfg) ->
  is_Some (c_available_node_types cfg) -> is_Some (c_max_workers cfg) ->
  reset b s
  = (Ok tt,
     reloaded cfg (truthy_bool (c_file_mounts_sync_continuously (config s)))
       s).
Proof.
  intros Hf [fm Hfm] [csf Hcsf] [wsc Hwsc] [wsrc Hwsrc] [nts Hnts] [mw Hmw].
  unfold reset.
  rewrite (reset_body_hashed _ s cfg fm csf wsc wsrc Hf)
    by (unfold hashed_fields; by rewrite Hfm, Hcsf, Hwsc, Hwsrc).
  cbv zeta. rewrite Hnts, Hmw. unfold reloaded.
  by rewrite Hfm, Hcsf, Hwsc, Hwsrc, Hnts, Hmw.
Qed.

(** X14.  A [reset] that finds all the keys installs the config, the node
    types and the scheduler's config, whatever [errors_fatal].  The
    runtime hash and the file-mounts contents hash are computed with the
    [file_mounts_sync_continuously] of the config in force before the
    reset: a change of that flag in the file takes effect at the second
    reset. *)
Theorem reset_takes_the_sync_flag_of_the_previous_config b s cfg :
  config_file s = inr cfg ->
  is_Some (c_file_mounts cfg) -> is_Some (c_cluster_synced_files cfg) ->
  is_Some (c_worker_setup_commands cfg) ->
  is_Some (c_worker_start_ray_commands cfg) ->
  is_Some (c_available_node_types cfg) -> is_Some (c_max_workers cfg) ->
  let flag (c : Config) := truthy_bool (c_file_mounts_sync_continuously c) in
  let s1 := (reset b s).2 in
  let s2 := (reset b s1).2 in
  reset b s = (Ok tt, reloaded cfg (flag (config s)) s)
  /\ config s1 = cfg
  /\ (runtime_hash s1, file_mounts_contents_hash s1)
     = hash_runtime_conf (default ∅ (c_file_mounts cfg))
         (default [] (c_cluster_synced_files cfg))
         [default [] (c_worker_setup_commands cfg);
          default [] (c_worker_start_ray_commands cfg)]
         (flag (config s))
  /\ s2 = reloaded cfg (flag cfg) s.
Proof.
  intros Hf Hfm Hcsf Hwsc Hwsrc Hnts Hmw. cbv zeta.
  rewrite (reset_reloaded b s cfg) by done. cbn [snd].
  split; [done|]. split; [done|].
  split; [unfold reloaded; cbn; by destruct (hash_runtime_conf _ _ _ _)|].
  by rewrite (reset_reloaded b _ cfg) by done.
Qed.

End reset_claims.


Lemma reset_keeps_the_config_when_loading_fails_witness :
  reset false Cluster.config_file_removed
  = (Ok tt, Cluster.config_file_removed)
  /\ reset true Cluster.config_file_removed
     = (Raise (OtherException "No such file or directory"),
        Cluster.config_file_removed).
Proof.
  apply (reset_keeps_the_config_when_loading_fails
           Cluster.config_file_removed
           (OtherException "No such file or directory")).
  reflexivity.
Defined.

Lemma reset_is_not_atomic_witness :
  config (reset false Cluster.node_types_removed).2
  = Cluster.edited_config None None None None None Cluster.config_max1
  /\ available_node_types (reset false Cluster.node_types_removed).2
     = available_node_types Cluster.node_types_removed.
Proof.
  destruct (proj1 (reset_is_not_atomic Cluster.node_types_removed
                     (Cluster.edited_config None None None None None
                        Cluster.config_max1)
                     ∅ [] ["pip install ray"%string] ["ray start"%string]
                     eq_refl eq_refl) eq_refl) as (_ & Hc & Hnt & _).
  split; [exact Hc|exact Hnt].
Defined.

Lemma reset_takes_the_sync_flag_of_the_previous_config_witness :
  file_mounts_contents_hash (reset false Cluster.sync_turned_on).2 = None
  /\ file_mounts_contents_hash
       (reset false (reset false Cluster.sync_turned_on).2).2
     = Some ""%string.
Proof.
  destruct (reset_takes_the_sync_flag_of_the_previous_config false
              Cluster.sync_turned_on
              (Cluster.edited_config
                 (c_available_node_types Cluster.config_max1) (Some true)
                 None None None Cluster.config_max1)
              eq_refl ltac:(by eexists) ltac:(by eexists) ltac:(by eexists)
              ltac:(by eexists) ltac:(by eexists) ltac:(by eexists))
    as (H1 & _ & _ & H2).
  cbv zeta in H1, H2. rewrite H2, H1. split; by vm_compute.
Defined.

(** ** The upscaling speed *)

Lemma Qeq_bool_false (q : Q) : Qeq_bool q 0 = false -> ~ (q == 0)%Q.
Proof. intros Hb Hq. apply Qeq_bool_iff in Hq. congruence. Qed.

(** X15.  The upscaling speed [reset] gives the scheduler: an
    [upscaling_speed] that is set and not 0 wins over the two legacy
    settings; without it the legacy [autoscaling_mode: aggressive] gives
    99999; without either a legacy [target_utilization_fraction] that is
    not 0 decides, and the speed it gives is at least -1, at most 999, and
    negative for a fraction above 1; and the speed is 1 in every other
    case, an [upscaling_speed] of 0 counting as none. *)
Theorem upscaling_speed_precedence cfg :
  (forall v, c_upscaling_speed cfg = Some v -> ~ (v == 0)%Q ->
     upscaling_speed_of cfg = v)
  /\ (truthy_Q (c_upscaling_speed cfg) = false ->
      (c_autoscaling_mode cfg = Some "aggressive"%string ->
       upscaling_speed_of cfg = 99999%Q)
      /\ (c_autoscaling_mode cfg <> Some "aggressive"%string ->
          (forall t,
             c_target_utilization_fraction cfg = Some t -> ~ (t == 0)%Q ->
             (-1 <= upscaling_speed_of cfg)%Q
             /\ (upscaling_speed_of cfg <= 999)%Q
             /\ ((1 < t)%Q -> (upscaling_speed_of cfg < 0)%Q))
          /\ (truthy_Q (c_target_utilization_fraction cfg) = false ->
              upscaling_speed_of cfg = 1%Q))).
Proof.
  unfold upscaling_speed_of. split.
  { intros v -> Hv. cbn.
    destruct (Qeq_bool v 0) eqn:Hb; [|done].
    by apply Qeq_bool_iff in Hb. }
  intros ->. split.
  { intros Hmode. by rewrite bool_decide_eq_true_2. }
  intros Hmode. rewrite bool_decide_eq_false_2 by done. split.
  - intros t -> Ht. cbn [truthy_Q default from_option id].
    assert (Qeq_bool t 0 = false) as ->.
    { destruct (Qeq_bool t 0) eqn:Hb; [|done].
      by apply Qeq_bool_iff in Hb. }
    cbn [negb].
    set (m := Qmax t (1 # 1000)).
    assert ((1 # 1000) <= m)%Q as Hm by apply Q.le_max_r.
    assert ((1 # 1000 <= t)%Q -> (m == t)%Q) as Hmt
      by (intros Hle; by apply Q.max_l).
    assert (0 < m)%Q as Hpos by lra.
    assert (0 < 1 / m)%Q as Hinv.
    { apply Qlt_shift_div_l; [done|]. lra. }
    assert (1 / m <= 1000)%Q as Hup.
    { apply Qle_shift_div_r; [done|]. lra. }
    clearbody m. split; [lra|]. split; [lra|].
    intros Hgt.
    assert (m == t)%Q as Heq by (apply Hmt; lra).
    assert (1 / m < 1)%Q; [|lra].
    apply Qlt_shift_div_r; [done|]. lra.
  - by intros ->.
Qed.

Lemma upscaling_speed_precedence_witness :
  (upscaling_speed_of
     (Cluster.edited_config None None (Some (0 # 1)) None (Some (2 # 1))
        Cluster.config_max1)
   < 0)%Q.
Proof.
  destruct (proj2 (upscaling_speed_precedence
                     (Cluster.edited_config None None (Some (0 # 1)) None
                        (Some (2 # 1)) Cluster.config_max1)) eq_refl)
    as [_ [Ht _]]; [done|].
  destruct (Ht (2 # 1)%Q eq_refl) as (_ & _ & Hneg); [done|].
  apply Hneg. reflexivity.
Defined.

(** ** Node types, known and unknown *)

Lemma erase_state s s' :
  erase s' = erase s ->
  load_metrics s' = load_metrics s
  /\ updaters s' = updaters s
  /\ head_node_ip s' = head_node_ip s
  /\ num_failed_updates s' = num_failed_updates s
  /\ p_ip (provider s') = p_ip (provider s).
Proof.
  intros He. repeat split;
    [ by apply (f_equal load_metrics) in He
    | by apply (f_equal updaters) in He
    | by apply (f_equal head_node_ip) in He
    | by apply (f_equal num_failed_updates) in He
    | by apply (f_equal (fun x => p_ip (provider x))) in He ].
Qed.

Section node_types.
Context `{Collaborators}.

Lemma _node_resources_answering n s :
  answering s ->
  _node_resources n s
  = (Ok (default ∅ (declared_resources s n)),
     set_provider (log_call (Call_node_tags n) (provider s)) s).
Proof.
  intros Ha. unfold _node_resources, node_tags.
  rewrite (bind_eq _ _ _ _ _ (provider_read_answering _ _ s Ha)).
  rewrite (bind_eq self _ _ _ _ eq_refl).
  cbn [available_node_types set_provider]. unfold declared_resources.
  destruct (bool_decide (available_node_types s ≠ ∅)) eqn:Hne.
  - destruct (p_tags (provider s) n !! TAG_RAY_USER_NODE_TYPE) as [t|];
      [|done].
    by destruct (available_node_types s !! t).
  - apply bool_decide_eq_false in Hne.
    assert (available_node_types s = ∅) as ->
      by (by destruct (decide (available_node_types s = ∅))).
    destruct (p_tags (provider s) n !! TAG_RAY_USER_NODE_TYPE) as [t|];
      [|done].
    by rewrite lookup_empty.
Qed.

Lemma _keep_min_worker_of_node_type_unknown n t counts s :
  answering s ->
  p_tags (provider s) n !! TAG_RAY_USER_NODE_TYPE = Some t ->
  available_node_types s !! t = None ->
  _keep_min_worker_of_node_type n counts s
  = (Raise (KeyError t),
     set_provider (log_call (Call_node_tags n) (provider s)) s).
Proof.
  intros Ha Ht Hnt. unfold _keep_min_worker_of_node_type, node_tags.
  rewrite (bind_eq _ _ _ _ _ (provider_read_answering _ _ s Ha)), Ht.
  rewrite (bind_eq self _ _ _ _ eq_refl).
  cbn [available_node_types set_provider]. by rewrite Hnt.
Qed.

(** X16.  A worker whose [RAY_USER_NODE_TYPE] tag names a node type that
    [available_node_types] does not have: [_keep_min_worker_of_node_type]
    raises [KeyError], and with it the walk of step 2 as soon as it comes
    to the node; [launch_config_ok] raises [KeyError] too;
    [_get_node_type_specific_fields] raises [ValueError]; and
    [_node_resources] returns the empty resources. *)
Theorem unknown_node_type_fails_the_walk n t s :
  answering s ->
  p_tags (provider s) n !! TAG_RAY_USER_NODE_TYPE = Some t ->
  available_node_types s !! t = None ->
  (forall counts,
     (_keep_min_worker_of_node_type n counts s).1 = Raise (KeyError t))
  /\ (forall rest last_used horizon allowed counts acc,
        (terminate_idle_or_outdated (n :: rest) last_used horizon allowed
           counts acc s).1 = Raise (KeyError t))
  /\ (forall launch_config types,
        c_worker_nodes (config s) = Some launch_config ->
        c_available_node_types (config s) = Some types ->
        types !! t = None -> t <> ""%string ->
        (launch_config_ok n s).1 = Raise (KeyError t))
  /\ (forall A key (of_config : Config -> option A) of_node_type fields,
        of_config (config s) = Some fields ->
        (_get_node_type_specific_fields n key of_config of_node_type s).1
        = Raise (ValueError ("Unknown node type tag: " +:+ t +:+ ".")))
  /\ (_node_resources n s).1 = Ok ∅.
Proof.
  intros Ha Ht Hnt. split; [|split; [|split; [|split]]].
  - intros counts.
    by rewrite (_keep_min_worker_of_node_type_unknown n t counts s).
  - intros rest last_used horizon allowed counts acc.
    cbn [terminate_idle_or_outdated].
    by rewrite (bind_eq _ _ _ _ _
                  (_keep_min_worker_of_node_type_unknown n t counts s
                     Ha Ht Hnt)).
  - intros launch_config types Hw Hty Hmiss Hne.
    rewrite (launch_config_ok_answering n s Ha). cbn [fst].
    unfold launch_hash_matches, calculated_launch_hash.
    rewrite Ht, Hw, Hty. cbn.
    assert (String.eqb t "" = false) as ->
      by (by apply String.eqb_neq).
    cbn. by rewrite Hmiss.
  - intros A key of_config of_node_type fields Hf.
    rewrite (_get_node_type_specific_fields_answering _ _ _ _ _ Ha).
    unfold node_type_fields. by rewrite Hf, Ht, Hnt.
  - rewrite (_node_resources_answering n s Ha). cbn [fst].
    unfold declared_resources. by rewrite Ht, Hnt.
Qed.

(** X17.  The docker config of an update: the [docker] section of the
    config with the entries of the node type's [docker] section laid over
    it.  Without a [docker] section in the config the result is empty,
    whatever the node type declares. *)
Theorem node_docker_config_overrides_the_cluster_wide_one n s :
  answering s ->
  (c_docker (config s) = None ->
   (_get_node_specific_docker_config n s).1 = Ok ∅)
  /\ (forall docker t nt,
        c_docker (config s) = Some docker ->
        p_tags (provider s) n !! TAG_RAY_USER_NODE_TYPE = Some t ->
        available_node_types s !! t = Some nt ->
        exists merged,
          (_get_node_specific_docker_config n s).1 = Ok merged
          /\ forall key,
               merged !! key
               = match default ∅ (nt_docker nt) !! key with
                 | Some v => Some v
                 | None => docker !! key
                 end)
  /\ (forall docker,
        c_docker (config s) = Some docker ->
        p_tags (provider s) n !! TAG_RAY_USER_NODE_TYPE = None ->
        (_get_node_specific_docker_config n s).1 = Ok docker).
Proof.
  intros Ha.
  rewrite (_get_node_specific_docker_config_answering n s Ha).
  unfold docker_config_of, node_type_fields.
  split; [by intros ->|]. split.
  - intros docker t nt -> -> ->. cbn [res_bind].
    eexists. split; [done|]. intros key. rewrite lookup_union.
    destruct (nt_docker nt) as [dn|]; cbn [default from_option id].
    + destruct (dn !! key), (docker !! key); done.
    + rewrite lookup_empty. by destruct (docker !! key).
  - intros docker -> ->. cbn [res_bind]. by rewrite map_union_idemp.
Qed.

End node_types.

Section recovery.
Context `{Collaborators}.

Lemma declared_resources_erase s s' n :
  erase s' = erase s -> declared_resources s' n = declared_resources s n.
Proof.
  intros He. destruct (erase_fields _ _ He) as (_ & Hant & _ & _ & _ & Ht).
  unfold declared_resources. by rewrite Hant, Ht.
Qed.

(** X18.  What [recover_if_needed] does for a node [can_update] lets
    through, when the provider answers.  A node the load metrics have no
    heartbeat of gets the time of the tick as its heartbeat and is left
    alone (the timeout being positive); so is a node whose heartbeat is
    less than [AUTOSCALER_HEARTBEAT_TIMEOUT_S] old, and nothing is
    changed for it.  A node whose heartbeat is older gets an updater that
    only restarts Ray: no file mounts, no initialization or setup
    commands, the start commands of the config. *)
Theorem recover_if_needed_decision n now s :
  answering s ->
  (can_update n s).1 = Ok true ->
  let ip := p_ip (provider s) n in
  let heartbeat := last_heartbeat_time_by_ip (load_metrics s) !! ip in
  let s' := (recover_if_needed n now s).2 in
  (heartbeat = None -> 0 < AUTOSCALER_HEARTBEAT_TIMEOUT_S ->
   (recover_if_needed n now s).1 = Ok tt
   /\ updaters s' = updaters s
   /\ last_heartbeat_time_by_ip (load_metrics s') !! ip = Some now)
  /\ (forall t, heartbeat = Some t ->
        now - t < AUTOSCALER_HEARTBEAT_TIMEOUT_S ->
        (recover_if_needed n now s).1 = Ok tt
        /\ updaters s' = updaters s
        /\ load_metrics s' = load_metrics s)
  /\ (forall t provider_config auth_config cluster_name ray_start_commands,
        heartbeat = Some t ->
        AUTOSCALER_HEARTBEAT_TIMEOUT_S <= now - t ->
        c_provider (config s) = Some provider_config ->
        c_auth (config s) = Some auth_config ->
        c_cluster_name (config s) = Some cluster_name ->
        c_worker_start_ray_commands (config s) = Some ray_start_commands ->
        (recover_if_needed n now s).1 = Ok tt
        /\ updaters s'
           = PyDict.set n
               (recovery_updater s n provider_config auth_config
                  cluster_name ray_start_commands)
               (updaters s)
        /\ load_metrics s' = load_metrics s).
Proof.
  intros Ha Hcu. cbv zeta.
  destruct (read_only_state (can_update n) s) as [He0 Ha0];
    [intros P HP; by apply inv_can_update | done |].
  destruct (can_update n s) as [r s0] eqn:Hrun. cbn [fst snd] in *. subst r.
  unfold recover_if_needed.
  rewrite (bind_eq _ _ _ _ _ Hrun). cbn [negb].
  unfold internal_ip.
  rewrite (bind_eq _ _ _ _ _ (provider_read_answering _ _ s0 Ha0)).
  set (s1 := set_provider _ s0).
  assert (erase s1 = erase s) as He1 by done.
  assert (answering s1) as Ha1 by done.
  destruct (erase_state _ _ He0) as (_ & _ & _ & _ & Hip). rewrite Hip.
  destruct (erase_state _ _ He1) as (Hlm & Hupd & Hhead & _ & _).
  destruct (erase_fields _ _ He1) as (Hc & Hant & Hrh & Hfm & _ & Htags).
  clearbody s1. clear Hrun s0 He0 Ha0 Hip.
  rewrite (bind_eq self _ _ _ _ eq_refl). rewrite Hlm.
  set (ip := p_ip (provider s) n).
  destruct (last_heartbeat_time_by_ip (load_metrics s) !! ip) as [t|]
    eqn:Hhb.
  - rewrite bool_decide_eq_false_2 by done.
    rewrite (bind_eq (ret tt) _ _ _ _ eq_refl).
    rewrite (bind_eq self _ _ _ _ eq_refl). rewrite Hlm, Hhb. cbn [getitem].
    rewrite (bind_eq (ret t) _ _ _ _ eq_refl). cbv zeta.
    split; [done|]. split.
    + intros t' [= <-] Hlt. apply Z.ltb_lt in Hlt. rewrite Hlt. done.
    + intros t' pc auth cn cmds [= <-] Hge Hpc Hauth Hcn Hcmds.
      apply Z.ltb_ge in Hge. rewrite Hge, Hc, Hpc, Hauth, Hcn, Hcmds.
      cbn [getitem]. rewrite !(bind_eq (ret _) _ s1 _ _ eq_refl).
      rewrite (bind_eq _ _ _ _ _ (_node_resources_answering n s1 Ha1)).
      rewrite (declared_resources_erase _ _ _ He1).
      unfold register_updater, assign, recovery_updater. cbn.
      by rewrite ?Hupd, ?Hlm, ?Hhead, ?Hrh, ?Hfm, ?Hc.
  - rewrite bool_decide_eq_true_2 by done.
    unfold set_last_heartbeat.
    rewrite (bind_eq (assign _) _ _ _ _ eq_refl).
    rewrite (bind_eq self _ _ _ _ eq_refl). cbn [load_metrics
      set_load_metrics last_heartbeat_time_by_ip set_lm_maps].
    rewrite lookup_insert_eq. cbn [getitem].
    rewrite (bind_eq (ret now) _ _ _ _ eq_refl). cbv zeta.
    split; [|split; [done|done]].
    intros _ Hpos. replace (now - now) with 0 by lia.
    apply Z.ltb_lt in Hpos. rewrite Hpos. cbn.
    split; [done|]. split; [done|]. by rewrite Hlm, lookup_insert_eq.
Qed.

End recovery.


Lemma recover_if_needed_decision_witness :
  (recover_if_needed "n1" 1200 Cluster.silent_cluster).1 = Ok tt
  /\ PyDict.keys
       (updaters (recover_if_needed "n1" 1200 Cluster.silent_cluster).2)
     = ["n1"%string]
  /\ (recover_if_needed "n1" 1200 Cluster.stale_runtime).1 = Ok tt
  /\ updaters (recover_if_needed "n1" 1200 Cluster.stale_runtime).2 = [].
Proof.
  destruct (recover_if_needed_decision "n1" 1200 Cluster.silent_cluster)
    as (_ & _ & Hold); [reflexivity | by vm_compute |].
  destruct (Hold 1000 {[ "type"%string := "aws"%string ]}
              {[ "ssh_user"%string := "ubuntu"%string ]} "default"%string
              ["ray start"%string])
    as (Hr & Hu & _); [by vm_compute..|].
  destruct (recover_if_needed_decision "n1" 1200 Cluster.stale_runtime)
    as (Hnew & _ & _); [reflexivity | by vm_compute |].
  destruct Hnew as (Hr' & Hu' & _); [by vm_compute..|].
  split; [exact Hr|]. split; [rewrite Hu; reflexivity|].
  split; [exact Hr'|exact Hu'].
Defined.

Lemma unknown_node_type_fails_the_walk_witness :
  (terminate_idle_or_outdated ["n1"%string]
     (last_used_time_by_ip (load_metrics Cluster.stray_worker)) 900 ∅ ∅ []
     Cluster.stray_worker).1 = Raise (KeyError "B")
  /\ (_node_resources "n1" Cluster.stray_worker).1 = Ok ∅
  /\ (exists e, (tick 1200 Cluster.stray_worker).1 = Raise e).
Proof.
  destruct (unknown_node_type_fails_the_walk "n1" "B" Cluster.stray_worker)
    as (_ & Hwalk & _ & _ & Hres); [reflexivity | by vm_compute.. |].
  split; [apply Hwalk|]. split; [exact Hres|].
  eexists. by vm_compute.
Defined.

Lemma node_docker_config_overrides_the_cluster_wide_one_witness :
  (_get_node_specific_docker_config "n1" Cluster.stale_runtime).1 = Ok ∅.
Proof.
  apply (proj1 (node_docker_config_overrides_the_cluster_wide_one "n1"
                  Cluster.stale_runtime eq_refl)).
  reflexivity.
Defined.

(** ** Step 2: what the walk protects *)

Section walk_protection.
Context `{Collaborators}.

(** One round of the walk. *)
Lemma terminate_idle_or_outdated_step e0 n0 rest last_used horizon allowed
    counts acc s l s' :
  erase s = erase e0 ->
  terminate_idle_or_outdated (n0 :: rest) last_used horizon allowed counts
    acc s = (Ok l, s') ->
  exists keep_min counts' acc' s1,
    erase s1 = erase e0
    /\ terminate_idle_or_outdated rest last_used horizon allowed counts'
         acc' s1 = (Ok l, s')
    /\ match p_tags (provider e0) n0 !! TAG_RAY_USER_NODE_TYPE with
       | Some t =>
           exists nt,
             available_node_types e0 !! t = Some nt
             /\ counts' = <[t := default 0 (counts !! t) + 1]> counts
             /\ keep_min = (default 0 (counts !! t) + 1
                            <=? Z.min (default 0 (nt_min_workers nt))
                                      (default 0 (nt_max_workers nt)))
       | None => keep_min = false /\ counts' = counts
       end
    /\ (acc' = acc \/ acc' = acc ++ [n0])
    /\ (keep_min || negb (default true (allowed !! n0)) = true ->
        launch_hash_matches (config e0) (p_tags (provider e0) n0) = Ok true ->
        acc' = acc).
Proof.
  intros He Hr. cbn [terminate_idle_or_outdated] in Hr.
  apply bind_ok_inv in Hr as ([keep_min counts'] & s1 & Hkeep & Hr).
  apply _keep_min_worker_of_node_type_ok_inv in Hkeep as [He1 Hkeep].
  rewrite (erase_p_tags _ _ He), (erase_available_node_types _ _ He)
    in Hkeep.
  rewrite He in He1.
  exists keep_min, counts'.
  apply bind_ok_inv in Hr as (skip & s2 & Hskip & Hr).
  assert (erase s2 = erase e0
          /\ (skip = true ->
              keep_min || negb (default true (allowed !! n0)) = true)
          /\ (keep_min || negb (default true (allowed !! n0)) = true ->
              launch_hash_matches (config e0) (p_tags (provider e0) n0)
              = Ok skip))
    as (He2 & Hcond & Hmatch).
  { destruct (keep_min || negb (default true (allowed !! n0))).
    - apply launch_config_ok_ok_inv in Hskip as [Hm He2].
      rewrite (erase_config _ _ He1), (erase_p_tags _ _ He1) in Hm.
      rewrite He1 in He2. done.
    - injection Hskip as <- <-. done. }
  clear Hskip.
  destruct skip.
  { exists acc, s2. split; [done|]. split; [done|]. split; [done|].
    split; [by left|done]. }
  apply bind_ok_inv in Hr as (ip & s3 & Hip & Hr).
  apply internal_ip_ok_inv in Hip as [-> He3]. rewrite He2 in He3.
  assert (keep_min || negb (default true (allowed !! n0)) = true ->
          launch_hash_matches (config e0) (p_tags (provider e0) n0) = Ok true ->
          False) as Hvac.
  { intros Hc Hm. rewrite (Hmatch Hc) in Hm. done. }
  clear Hcond Hmatch.
  assert (forall acc' s4,
            terminate_idle_or_outdated rest last_used horizon allowed
              counts' acc' s4 = (Ok l, s') ->
            erase s4 = erase e0 ->
            (acc' = acc \/ acc' = acc ++ [n0]) ->
            exists acc' s1,
              erase s1 = erase e0
              /\ terminate_idle_or_outdated rest last_used horizon allowed
                   counts' acc' s1 = (Ok l, s')
              /\ match p_tags (provider e0) n0 !! TAG_RAY_USER_NODE_TYPE with
                 | Some t =>
                     exists nt,
                       available_node_types e0 !! t = Some nt
                       /\ counts' = <[t := default 0 (counts !! t) + 1]> counts
                       /\ keep_min
                          = (default 0 (counts !! t) + 1
                             <=? Z.min (default 0 (nt_min_workers nt))
                                       (default 0 (nt_max_workers nt)))
                 | None => keep_min = false /\ counts' = counts
                 end
              /\ (acc' = acc \/ acc' = acc ++ [n0])
              /\ (keep_min || negb (default true (allowed !! n0)) = true ->
                  launch_hash_matches (config e0) (p_tags (provider e0) n0)
                  = Ok true -> acc' = acc)) as Hdone.
  { intros acc' s4 Hrun He4 Hacc. exists acc', s4.
    split; [done|]. split; [done|]. split; [done|]. split; [done|].
    intros Hc Hm. by destruct (Hvac Hc Hm). }
  destruct (match last_used !! _ with Some _ => _ | None => _ end).
  { apply (Hdone _ _ Hr He3). by right. }
  apply bind_ok_inv in Hr as (ok & s4 & Hok & Hr).
  apply launch_config_ok_ok_inv in Hok as [_ He4]. rewrite He3 in He4.
  destruct ok; cbn [negb] in Hr; apply (Hdone _ _ Hr He4);
    [by left|by right].
Qed.

(** The nodes the walk adds to [nodes_to_terminate] are nodes of the list
    it walks, in the order of the walk and each at most as often as it is
    listed. *)
Lemma terminate_idle_or_outdated_sublist e0 last_used horizon allowed sorted :
  forall counts acc s l s',
  erase s = erase e0 ->
  terminate_idle_or_outdated sorted last_used horizon allowed counts acc s
  = (Ok l, s') ->
  exists added, l = acc ++ added /\ added `sublist_of` sorted.
Proof.
  induction sorted as [|n0 rest IH]; intros counts acc s l s' He Hr.
  { injection Hr as <- _. exists []. by rewrite app_nil_r. }
  apply (terminate_idle_or_outdated_step e0) in Hr
    as (keep_min & counts' & acc' & s1 & He1 & Hr & _ & Hacc & _); [|done].
  destruct (IH _ _ _ _ _ He1 Hr) as (added & -> & Hsub).
  destruct Hacc as [->| ->].
  - exists added. split; [done|]. by apply sublist_cons.
  - exists (n0 :: added). rewrite <-app_assoc. split; [done|].
    by apply sublist_skip.
Qed.

Lemma terminate_idle_or_outdated_protects e0 last_used horizon allowed sorted :
  forall counts acc s l s' i n,
  erase s = erase e0 ->
  terminate_idle_or_outdated sorted last_used horizon allowed counts acc s
  = (Ok l, s') ->
  NoDup sorted -> n ∉ acc -> sorted !! i = Some n ->
  launch_hash_matches (config e0) (p_tags (provider e0) n) = Ok true ->
  allowed !! n = Some false
  \/ (exists t nt,
        p_tags (provider e0) n !! TAG_RAY_USER_NODE_TYPE = Some t
        /\ available_node_types e0 !! t = Some nt
        /\ default 0 (counts !! t)
           + Z.of_nat (length (nodes_of_type e0 t (take (S i) sorted)))
           <= Z.min (default 0 (nt_min_workers nt))
                    (default 0 (nt_max_workers nt))) ->
  n ∉ l.
Proof.
  induction sorted as [|n0 rest IH];
    intros counts acc s l s' i n He Hr Hnd Hacc Hi Hm Hprot; [done|].
  apply NoDup_cons in Hnd as [Hn0 Hnd].
  apply (terminate_idle_or_outdated_step e0) in Hr
    as (keep_min & counts' & acc' & s1 & He1 & Hr & Hkeep & Hacc' & Hskip);
    [|done].
  destruct i as [|i]; cbn in Hi.
  - injection Hi as ->.
    assert (acc' = acc) as ->.
    { apply Hskip; [|done]. destruct Hprot as [Hall|(t & nt & Ht & Hnt & Hle)].
      - rewrite Hall. cbn. by rewrite orb_true_r.
      - rewrite Ht in Hkeep. destruct Hkeep as (nt' & Hnt' & _ & ->).
        assert (nt' = nt) as -> by congruence.
        unfold nodes_of_type in Hle. cbn [take] in Hle.
        rewrite filter_cons_True in Hle by done. cbn in Hle.
        rewrite (proj2 (Z.leb_le _ _)) by lia. done. }
    destruct (terminate_idle_or_outdated_sublist e0 _ _ _ _ _ _ _ _ _ He1 Hr)
      as (added & -> & Hsub).
    rewrite elem_of_app. intros [?|Hin]; [done|].
    destruct Hn0. by apply (elem_of_sublist _ _ _ Hin Hsub).
  - assert (n <> n0) as Hne.
    { intros ->. destruct Hn0. by apply list_elem_of_lookup_2 in Hi. }
    apply (IH counts' acc' s1 l s' i n He1 Hr Hnd); [|done|done|].
    + destruct Hacc' as [->| ->]; [done|].
      rewrite elem_of_app, list_elem_of_singleton. by intros [?|?].
    + destruct Hprot as [Hall|(t & nt & Ht & Hnt & Hle)]; [by left|].
      right. exists t, nt. split; [done|]. split; [done|].
      unfold nodes_of_type in *. cbn [take] in Hle.
      rewrite filter_cons in Hle.
      destruct (p_tags (provider e0) n0 !! TAG_RAY_USER_NODE_TYPE) as [t0|]
        eqn:Ht0.
      * destruct Hkeep as (nt0 & _ & -> & _).
        destruct (decide (Some t0 = Some t)) as [[= ->]|Hne'].
        -- rewrite lookup_insert_eq. cbn in Hle |- *. lia.
        -- rewrite lookup_insert_ne by congruence. done.
      * destruct Hkeep as [_ ->].
        by rewrite decide_False in Hle by done.
Qed.

(** X19.  Step 2 adds to [nodes_to_terminate] only nodes of the list it
    walks, each at most once and in the order of the walk; and it leaves
    out every node with a matching launch hash that [request_resources]
    protects, or that is among the first [min(min_workers, max_workers)]
    nodes of its type in the list, whether the node is idle or not. *)
Theorem walk_keeps_the_protected_nodes s sorted last_used horizon allowed l :
  (terminate_idle_or_outdated sorted last_used horizon allowed ∅ [] s).1
  = Ok l ->
  l `sublist_of` sorted
  /\ (NoDup sorted ->
      forall i n,
        sorted !! i = Some n ->
        launch_hash_matches (config s) (p_tags (provider s) n) = Ok true ->
        (allowed !! n = Some false -> n ∉ l)
        /\ (forall t nt,
              p_tags (provider s) n !! TAG_RAY_USER_NODE_TYPE = Some t ->
              available_node_types s !! t = Some nt ->
              Z.of_nat (length (nodes_of_type s t (take (S i) sorted)))
              <= Z.min (default 0 (nt_min_workers nt))
                       (default 0 (nt_max_workers nt)) ->
              n ∉ l)).
Proof.
  intros Hr.
  destruct (terminate_idle_or_outdated _ _ _ _ _ _ s) as [r s'] eqn:Hw.
  cbn in Hr. subst r. split.
  - destruct (terminate_idle_or_outdated_sublist s _ _ _ _ _ _ _ _ _
                eq_refl Hw) as (added & -> & Hsub). done.
  - intros Hnd i n Hi Hm. split.
    + intros Hall.
      apply (terminate_idle_or_outdated_protects s _ _ _ _ _ _ _ _ _ i n
               eq_refl Hw Hnd); [apply not_elem_of_nil|done|done|by left].
    + intros t nt Ht Hnt Hle.
      apply (terminate_idle_or_outdated_protects s _ _ _ _ _ _ _ _ _ i n
               eq_refl Hw Hnd); [apply not_elem_of_nil|done|done|].
      right. exists t, nt. rewrite lookup_empty. cbn. done.
Qed.

End walk_protection.

Lemma walk_keeps_the_protected_nodes_witness :
  (terminate_idle_or_outdated ["n2"; "n4"; "n1"; "n3"; "n5"]%string
     (last_used_time_by_ip (load_metrics Cluster.scenario_2)) 900 ∅ ∅ []
     Cluster.scenario_2).1 = Ok ["n1"; "n3"; "n5"]%string
  /\ ["n1"; "n3"; "n5"]%string
     `sublist_of` ["n2"; "n4"; "n1"; "n3"; "n5"]%string
  /\ "n4"%string ∉ ["n1"; "n3"; "n5"]%string.
Proof.
  assert ((terminate_idle_or_outdated ["n2"; "n4"; "n1"; "n3"; "n5"]%string
             (last_used_time_by_ip (load_metrics Cluster.scenario_2)) 900 ∅
             ∅ [] Cluster.scenario_2).1 = Ok ["n1"; "n3"; "n5"]%string)
    as Hr by by vm_compute.
  split; [exact Hr|].
  destruct (walk_keeps_the_protected_nodes _ _ _ _ _ _ Hr) as [Hsub Hprot].
  split; [exact Hsub|].
  assert (NoDup ["n2"; "n4"; "n1"; "n3"; "n5"]%string) as Hnd
    by (apply (bool_decide_unpack _); by vm_compute).
  destruct (Hprot Hnd 1%nat "n4"%string) as [_ Hmin];
    [reflexivity | by vm_compute |].
  apply (Hmin "A"%string (Cluster.type_A (Some 2) (Some 5)));
    by vm_compute.
Defined.

(** ** Methods that end *)

Section ends_monad.
Context (P : StandardAutoscaler -> Prop).

Lemma ends_ret {A} (a : A) : ends P (ret a).
Proof. by intros s. Qed.

Lemma ends_raise {A} e : ends P (@raise A e).
Proof. by intros s. Qed.

Lemma ends_self : ends P self.
Proof. by intros s. Qed.

Lemma ends_lift {A} (r : res A) : r <> Diverge -> ends P (lift r).
Proof. by intros Hr s. Qed.

Lemma ends_getitem {A} key (o : option A) : ends P (getitem key o).
Proof. destruct o; by intros s. Qed.

Lemma ends_index {A} (l : list A) i : ends P (index l i).
Proof. unfold index. destruct (l !! i); by intros s. Qed.

Lemma ends_iter_commands o : ends P (iter_commands o).
Proof. destruct o; by intros s. Qed.

Lemma ends_bind {A B} (m : M A) (k : A -> M B) :
  ends P m -> (forall a, ends P (k a)) -> ends P (bind m k).
Proof.
  intros Hm Hk s Hs. unfold bind. destruct (Hm s Hs) as [Hnd Hp].
  destruct (m s) as [[a|e|] s1]; cbn in *; [by apply Hk|done..].
Qed.

Lemma ends_assign f : (forall s, P s -> P (f s)) -> ends P (assign f).
Proof. intros Hf s Hs. split; [done|by apply Hf]. Qed.

Lemma ends_run_thread m : ends P m -> ends P (run_thread m).
Proof.
  intros Hm s Hs. unfold run_thread. destruct (Hm s Hs) as [Hnd Hp].
  by destruct (m s) as [[a|e|] s1].
Qed.

Lemma ends_for_each {A} (l : list A) body :
  (forall x, ends P (body x)) -> ends P (for_each l body).
Proof.
  intros Hb. induction l as [|x l IH]; cbn; [apply ends_ret|].
  apply ends_bind; auto.
Qed.

Lemma ends_for_list {A B} (l : list A) (f : A -> M B) :
  (forall x, ends P (f x)) -> ends P (for_list l f).
Proof.
  intros Hf. induction l as [|x l IH]; cbn; [apply ends_ret|].
  apply ends_bind; [auto|]. intros y. apply ends_bind; [auto|].
  intros ys. apply ends_ret.
Qed.

Lemma ends_for_fold {A B} (l : list A) (b : B) body :
  (forall b x, ends P (body b x)) -> ends P (for_fold l b body).
Proof.
  intros Hb. revert b. induction l as [|x l IH]; intros b; cbn;
    [apply ends_ret|].
  apply ends_bind; auto.
Qed.

Lemma ends_provider_read {A} c (f : Provider -> A) :
  (forall c s, P s -> P (set_provider (log_call c (provider s)) s)) ->
  ends P (provider_read c f).
Proof.
  intros Hc s Hs. unfold provider_read.
  destruct (p_faults _ !! _); cbn; (split; [done|by apply Hc]).
Qed.

Lemma ends_terminate_nodes ids :
  (forall p s, P s -> P (set_provider p s)) ->
  ends P (terminate_nodes ids).
Proof.
  intros Hc s Hs. unfold terminate_nodes.
  destruct (p_faults _ !! _); cbn; (split; [done|by apply Hc]).
Qed.

End ends_monad.

(** One step of a proof that a method ends, for a [P] that only
    constrains what the constructor was given. *)
Ltac ends_step :=
  lazymatch goal with
  | |- ends _ (bind _ _) => apply ends_bind; [|intros ?]
  | |- ends _ (ret _) => apply ends_ret
  | |- ends _ (raise _) => apply ends_raise
  | |- ends _ self => apply ends_self
  | |- ends _ (getitem _ _) => apply ends_getitem
  | |- ends _ (index _ _) => apply ends_index
  | |- ends _ (iter_commands _) => apply ends_iter_commands
  | |- ends _ (run_thread _) => apply ends_run_thread
  | |- ends _ (for_each _ _) => apply ends_for_each; intros ?
  | |- ends _ (for_list _ _) => apply ends_for_list; intros ?
  | |- ends _ (for_fold _ _ _) => apply ends_for_fold; intros ? ?
  | |- ends _ (assign _) => apply ends_assign; frame_solve
  | |- ends _ (provider_read _ _) => apply ends_provider_read; frame_solve
  | |- ends _ (terminate_nodes _) => apply ends_terminate_nodes; frame_solve
  | |- ends _ (match ?x with _ => _ end) => destruct x
  end.

Section update_ends.
Context `{Collaborators}.

Lemma ends_launch_config_ok n : ends batched (launch_config_ok n).
Proof.
  unfold launch_config_ok, node_tags. ends_step; [ends_step|].
  ends_step; [ends_step|]. ends_step; [|repeat ends_step].
  apply ends_lift. unfold calculated_launch_hash.
  destruct (c_worker_nodes _); cbn; [|done].
  destruct (truthy_str _); cbn.
  - destruct (c_available_node_types _) as [types|]; cbn; [|done].
    destruct (types !! _) as [nt|]; cbn; [|done].
    destruct (nt_node_config nt); cbn; [|done].
    by destruct (c_auth _).
  - by destruct (c_auth _).
Qed.

Lemma ends_can_update n : ends batched (can_update n).
Proof.
  pose proof (ends_launch_config_ok n). unfold can_update.
  repeat first [ assumption | ends_step ].
Qed.

Lemma ends__get_node_type_specific_fields {A} n key
    (f : Config -> option A) g :
  ends batched (_get_node_type_specific_fields n key f g).
Proof.
  unfold _get_node_type_specific_fields, node_tags. repeat ends_step.
Qed.

Lemma ends__node_resources n : ends batched (_node_resources n).
Proof. unfold _node_resources, node_tags. repeat ends_step. Qed.

Lemma ends_should_update n : ends batched (should_update n).
Proof.
  pose proof (ends_can_update n).
  pose proof (@ends__get_node_type_specific_fields Commands n).
  pose proof (@ends__get_node_type_specific_fields Dict n).
  unfold should_update, files_up_to_date, _get_node_specific_docker_config,
    node_tags.
  repeat first [ solve [auto] | ends_step ].
Qed.

Lemma ends_spawn_updater n c r res d :
  ends batched (spawn_updater n c r res d).
Proof.
  pose proof (@ends__get_node_type_specific_fields Commands n).
  unfold spawn_updater, register_updater.
  repeat first [ solve [auto] | ends_step ].
Qed.

Lemma ends_recover_if_needed n now : ends batched (recover_if_needed n now).
Proof.
  pose proof (ends_can_update n). pose proof (ends__node_resources n).
  unfold recover_if_needed, register_updater, set_last_heartbeat,
    internal_ip.
  repeat first [ assumption | ends_step ].
Qed.

Lemma ends_log_info_string nodes : ends batched (log_info_string nodes).
Proof.
  unfold log_info_string, info_string, _internal_kv_put. repeat ends_step.
Qed.

Lemma ends_internal_ip n : ends batched (internal_ip n).
Proof. unfold internal_ip. ends_step. Qed.

Lemma ends_workers : ends batched workers.
Proof. unfold workers, non_terminated_nodes. ends_step. Qed.

Lemma ends_launch_new_node count ty : ends batched (launch_new_node count ty).
Proof.
  intros s Hs.
  destruct (launch_new_node_queues_batches count ty s Hs)
    as (requests & -> & _). done.
Qed.

Lemma ends_terminate_too_many nodes : ends batched (terminate_too_many nodes).
Proof.
  unfold terminate_too_many.
  apply ends_bind; [apply ends_self|intros s0].
  apply ends_bind; [apply ends_getitem|intros max_workers].
  destruct (terminate_unneeded_fuel (length nodes) max_workers nodes [])
    as [r ->]; [done|]. apply ends_ret.
Qed.

Lemma ends_terminate_idle_or_outdated sorted last_used horizon allowed
    counts acc :
  ends batched
    (terminate_idle_or_outdated sorted last_used horizon allowed counts acc).
Proof.
  revert counts acc. induction sorted as [|n rest IH]; intros counts acc;
    cbn [terminate_idle_or_outdated]; [ends_step|].
  pose proof (ends_launch_config_ok n).
  unfold _keep_min_worker_of_node_type, node_tags, internal_ip.
  repeat first [ assumption | apply IH | ends_step ].
Qed.

Lemma ends_reconcile now : ends batched (reconcile now).
Proof.
  pose proof ends_workers. pose proof ends_log_info_string.
  pose proof ends_internal_ip.
  pose proof ends_terminate_idle_or_outdated.
  pose proof ends_terminate_too_many. pose proof ends_launch_new_node.
  pose proof ends_should_update. pose proof ends__node_resources.
  pose proof ends_spawn_updater. pose proof ends_recover_if_needed.
  unfold reconcile, all_workers, unmanaged_workers, non_terminated_nodes,
    internal_ip, prune_active_ips, _sort_based_on_last_used,
    _get_nodes_allowed_to_terminate, collect_max_node_resources,
    decide_allowed_to_terminate, process_completed_updates, mark_active,
    update_out_of_date_nodes, node_tags.
  repeat first [ solve [auto] | ends_step ].
Qed.

Lemma ends_tick now : ends batched (tick now).
Proof.
  intros s Hs. rewrite tick_eq.
  assert (batched (reset false s).2) as Hs1.
  { unfold batched.
    replace (max_launch_batch (reset false s).2) with (max_launch_batch s);
      [done|]. symmetry.
    apply (inv_reset (fun x => max_launch_batch x = max_launch_batch s));
      frame_solve. }
  revert Hs1. generalize (reset false s).2. clear s Hs. intros s Hs.
  pose proof (ends_reconcile now). unfold _update.
  revert s Hs. change (ends batched (_update now)). unfold _update.
  repeat first [ assumption | ends_step ].
Qed.

(** X20.  With a [max_launch_batch] of at least one, [update] ends: it
    returns or it raises.  The loops of the tick are bounded by the lists
    they walk, step 3 pops a node per round, and [launch_new_node] brings
    its count down by [max_launch_batch] per round. *)
Theorem update_returns_or_raises now s :
  1 <= max_launch_batch s ->
  (update now s).1 <> Diverge
  /\ 1 <= max_launch_batch (update now s).2.
Proof.
  intros Hs. unfold update.
  destruct (ends_tick now s Hs) as [Hnd Hp].
  destruct (tick now s) as [[[]|e|] s1]; cbn [fst snd] in *; [done| |done].
  assert (ends batched (on_tick_exception e)) as He.
  { unfold on_tick_exception, _internal_kv_put. repeat ends_step. }
  by apply He.
Qed.

End update_ends.

Lemma update_returns_or_raises_witness :
  (update 10 Cluster.fresh_cluster).1 <> Diverge
  /\ 1 <= max_launch_batch (update 10 Cluster.fresh_cluster).2.
Proof.
  apply (update_returns_or_raises 10 Cluster.fresh_cluster).
  by vm_compute.
Defined.

(** ** Only workers are terminated *)

Lemma only_workers_terminated_read s0 c (s : StandardAutoscaler) :
  match c with Call_terminate_nodes _ => False | _ => True end ->
  only_workers_terminated s0 s ->
  only_workers_terminated s0 (set_provider (log_call c (provider s)) s).
Proof. intros Hc. by destruct c. Qed.

Lemma only_workers_terminated_terminate s0 ids (s : StandardAutoscaler) :
  Forall (is_worker (provider s0)) ids ->
  only_workers_terminated s0 s ->
  only_workers_terminated s0
    (set_provider (log_call (Call_terminate_nodes ids) (provider s)) s)
  /\ only_workers_terminated s0
       (set_provider
          (forget_nodes ids
             (log_call (Call_terminate_nodes ids) (provider s))) s).
Proof.
  intros Hids (Htags & (since & Hlog & Hsince) & Hrest).
  assert (exists since',
            ids :: terminated (provider s)
            = since' ++ terminated (provider s0)
            /\ Forall (Forall (is_worker (provider s0))) since') as Hlog'.
  { exists (ids :: since). rewrite Hlog. split; [done|]. by constructor. }
  split; [done|]. split; [done|]. split; [done|]. cbn.
  rewrite <-Hrest, list_filter_filter. apply filter_ext_elem_of.
  intros n _. split; [tauto|]. intros Hn. split; [done|].
  intros Hin. destruct Hn.
  by apply (proj1 (Forall_forall _ _) Hids).
Qed.

Lemma inv_read_only {A} (P : StandardAutoscaler -> Prop) c
    (f : Provider -> A) :
  (forall s, P s -> P (set_provider (log_call c (provider s)) s)) ->
  inv P (provider_read c f).
Proof.
  intros Hc s Hs. unfold provider_read.
  destruct (p_faults _ !! _); cbn; by apply Hc.
Qed.

(** The outcome of [m] and the invariant it keeps. *)
Lemma inv_bind_result {A B} (P : StandardAutoscaler -> Prop)
    (Q : A -> Prop) (m : M A) (k : A -> M B) :
  inv P m ->
  (forall s a s', P s -> m s = (Ok a, s') -> Q a) ->
  (forall a, Q a -> inv P (k a)) ->
  inv P (bind m k).
Proof.
  intros Hm HQ Hk s Hs. unfold bind. specialize (Hm s Hs).
  destruct (m s) as [[a|e|] s1] eqn:Hr; cbn in *; try done.
  apply Hk; [|done]. by apply (HQ s a s1).
Qed.

(** One step of the invariance proof, for a method that reads the
    provider and terminates nothing. *)
Ltac reads_step s0 :=
  lazymatch goal with
  | |- inv _ (provider_read _ _) =>
      apply inv_read_only; intros ? ?;
      by apply (only_workers_terminated_read s0)
  | |- inv _ (assign _) => apply inv_assign; intros ? ?; assumption
  | |- _ => inv_step
  end.

Section only_workers.
Context `{Collaborators} (s0 : StandardAutoscaler).

Local Abbreviation J := (only_workers_terminated s0).

Lemma reads_launch_config_ok n : inv J (launch_config_ok n).
Proof. unfold launch_config_ok, node_tags. repeat reads_step s0. Qed.

Lemma reads_can_update n : inv J (can_update n).
Proof.
  pose proof (reads_launch_config_ok n). unfold can_update.
  repeat first [solve [auto] | reads_step s0].
Qed.

Lemma reads__get_node_type_specific_fields {A} n key
    (f : Config -> option A) g :
  inv J (_get_node_type_specific_fields n key f g).
Proof.
  unfold _get_node_type_specific_fields, node_tags. repeat reads_step s0.
Qed.

Lemma reads__node_resources n : inv J (_node_resources n).
Proof. unfold _node_resources, node_tags. repeat reads_step s0. Qed.

Lemma reads_should_update n : inv J (should_update n).
Proof.
  pose proof (reads_can_update n).
  pose proof (@reads__get_node_type_specific_fields Commands n).
  pose proof (@reads__get_node_type_specific_fields Dict n).
  unfold should_update, files_up_to_date, _get_node_specific_docker_config,
    node_tags.
  repeat first [solve [auto] | reads_step s0].
Qed.

Lemma reads_spawn_updater n c r res d : inv J (spawn_updater n c r res d).
Proof.
  pose proof (@reads__get_node_type_specific_fields Commands n).
  unfold spawn_updater, register_updater.
  repeat first [solve [auto] | reads_step s0].
Qed.

Lemma reads_recover_if_needed n now : inv J (recover_if_needed n now).
Proof.
  pose proof (reads_can_update n). pose proof (reads__node_resources n).
  unfold recover_if_needed, register_updater, set_last_heartbeat,
    internal_ip.
  repeat first [solve [auto] | reads_step s0].
Qed.

Lemma reads_log_info_string nodes : inv J (log_info_string nodes).
Proof.
  unfold log_info_string, info_string, _internal_kv_put.
  repeat reads_step s0.
Qed.

Lemma reads_workers : inv J workers.
Proof. unfold workers, non_terminated_nodes. reads_step s0. Qed.

Lemma reads_internal_ip n : inv J (internal_ip n).
Proof. unfold internal_ip. reads_step s0. Qed.

Lemma reads_launch_new_node count ty : inv J (launch_new_node count ty).
Proof. unfold launch_new_node. repeat reads_step s0. Qed.

Lemma reads_terminate_idle_or_outdated sorted last_used horizon allowed
    counts acc :
  inv J
    (terminate_idle_or_outdated sorted last_used horizon allowed counts acc).
Proof.
  revert counts acc. induction sorted as [|n rest IH]; intros counts acc;
    cbn [terminate_idle_or_outdated]; [reads_step s0|].
  pose proof (reads_launch_config_ok n).
  unfold _keep_min_worker_of_node_type, node_tags, internal_ip.
  repeat first [solve [auto] | apply IH | reads_step s0].
Qed.

Lemma reads__sort_based_on_last_used nodes last_used :
  inv J (_sort_based_on_last_used nodes last_used).
Proof.
  unfold _sort_based_on_last_used, internal_ip. repeat reads_step s0.
Qed.

(** The workers the provider lists are workers. *)
Lemma workers_are_workers s nodes s' :
  J s -> workers s = (Ok nodes, s') ->
  Forall (is_worker (provider s0)) nodes.
Proof.
  intros (Htags & _) Hr. unfold workers, non_terminated_nodes in Hr.
  apply provider_read_ok_inv in Hr as [-> _].
  apply Forall_forall. intros n [Hn _]%list_elem_of_filter.
  rewrite matches_filters_singleton in Hn.
  apply bool_decide_unpack in Hn. unfold is_worker. by rewrite <-Htags.
Qed.

(** Terminating workers and listing the workers again. *)
Lemma terminate_and_list nodes nodes_to_terminate :
  Forall (is_worker (provider s0)) nodes ->
  Forall (is_worker (provider s0)) nodes_to_terminate ->
  inv J
    (if nonempty nodes_to_terminate then
       terminate_nodes nodes_to_terminate ;;
       nodes <- workers ;;
       log_info_string nodes ;;
       ret nodes
     else ret nodes)
  /\ forall s a s',
       J s ->
       (if nonempty nodes_to_terminate then
          terminate_nodes nodes_to_terminate ;;
          nodes <- workers ;;
          log_info_string nodes ;;
          ret nodes
        else ret nodes) s = (Ok a, s') ->
       Forall (is_worker (provider s0)) a.
Proof.
  intros Hnodes Hids.
  assert (inv J (terminate_nodes nodes_to_terminate)) as Hterm.
  { intros s Hs. unfold terminate_nodes.
    destruct (only_workers_terminated_terminate s0 _ s Hids Hs).
    by destruct (p_faults _ !! _). }
  pose proof reads_workers. pose proof reads_log_info_string.
  split.
  - destruct (nonempty nodes_to_terminate);
      repeat first [solve [auto] | reads_step s0].
  - intros s a s' Hs Hr.
    destruct (nonempty nodes_to_terminate); [|by injection Hr as <- _].
    apply bind_ok_inv in Hr as ([] & s1 & Ht & Hr).
    assert (J s1) as Hs1.
    { change s1 with (Ok tt, s1).2. rewrite <-Ht. by apply Hterm. }
    apply bind_ok_inv in Hr as (nodes' & s2 & Hw & Hr).
    apply (workers_are_workers s1) in Hw; [|done].
    apply bind_ok_inv in Hr as ([] & s3 & _ & Hr). by injection Hr as <- _.
Qed.

Lemma only_workers_reconcile now : inv J (reconcile now).
Proof.
  pose proof reads_workers. pose proof reads_log_info_string.
  pose proof reads_internal_ip.
  unfold reconcile.
  apply (inv_bind_result J (Forall (is_worker (provider s0))));
    [done | intros s a s'; apply workers_are_workers | intros nodes Hnodes].
  apply inv_bind;
    [unfold all_workers, unmanaged_workers, non_terminated_nodes;
     repeat first [solve [auto] | reads_step s0]|intros active].
  apply inv_bind; [repeat first [solve [auto] | reads_step s0]|intros ips].
  apply inv_bind; [unfold prune_active_ips; reads_step s0|intros _].
  apply inv_bind; [done|intros _].
  apply inv_bind; [reads_step s0|intros s1].
  apply inv_bind; [reads_step s0|intros idle_timeout_minutes].
  apply (inv_bind_result J (Forall (is_worker (provider s0))));
    [apply reads__sort_based_on_last_used | | intros sorted Hsorted].
  { intros s a s' _ Hr.
    apply _sort_based_on_last_used_ok_inv in Hr as (least & _ & -> & _).
    destruct (sorted_reverse_spec
                (last_time_used s (last_used_time_by_ip (load_metrics s1))
                   least) nodes) as (Hp & _).
    by rewrite Hp. }
  apply inv_bind; [reads_step s0|intros s2].
  apply inv_bind.
  { unfold _get_nodes_allowed_to_terminate, collect_max_node_resources,
      decide_allowed_to_terminate, node_tags.
    repeat reads_step s0. }
  intros allowed.
  apply (inv_bind_result J (Forall (is_worker (provider s0))));
    [apply reads_terminate_idle_or_outdated | | intros l Hl].
  { intros s a s' _ Hr.
    destruct (terminate_idle_or_outdated_sublist s _ _ _ _ _ _ _ _ _
                eq_refl Hr) as (added & -> & Hsub).
    apply Forall_forall. intros n Hn.
    apply (proj1 (Forall_forall _ _) Hsorted).
    by apply (elem_of_sublist _ _ _ Hn Hsub). }
  destruct (terminate_and_list nodes l Hnodes Hl) as [Hinv Hres].
  apply (inv_bind_result J (Forall (is_worker (provider s0))));
    [done | done | intros nodes2 Hnodes2].
  apply (inv_bind_result J
           (fun popped : list NodeID * list NodeID =>
              Forall (is_worker (provider s0)) popped.1
              /\ Forall (is_worker (provider s0)) popped.2)).
  { unfold terminate_too_many. repeat reads_step s0. }
  { intros s [kept selected] s' _ Hr. unfold terminate_too_many in Hr.
    apply bind_ok_inv in Hr as (? & ? & [= <- <-] & Hr).
    apply bind_ok_inv in Hr as (max_workers & ? & _ & Hr).
    destruct (terminate_unneeded _ _ _ _) as [[k sel]|] eqn:Hpop; [|done].
    injection Hr as -> -> _.
    destruct (terminate_unneeded_spec _ _ _ _ _ _ Hpop)
      as (popped & Hn & Hsel).
    cbn in Hsel. subst popped. rewrite Hn in Hnodes2.
    apply Forall_app in Hnodes2 as [Hk Hs]. split; [done|].
    apply Forall_forall. intros n Hn'.
    apply (proj1 (Forall_forall _ _) Hs).
    by rewrite list_elem_of_In, <-in_rev, <-list_elem_of_In. }
  intros [kept selected] [Hkept Hselected]. cbn [fst snd] in *.
  destruct (terminate_and_list kept selected Hkept Hselected) as [Hinv2 _].
  pose proof reads_launch_new_node. pose proof reads_should_update.
  pose proof reads__node_resources. pose proof reads_spawn_updater.
  pose proof reads_recover_if_needed.
  apply inv_bind; [done|intros nodes3].
  unfold non_terminated_nodes, process_completed_updates, mark_active,
    update_out_of_date_nodes.
  repeat first [solve [auto] | reads_step s0].
Qed.

End only_workers.

Section only_workers_claim.
Context `{Collaborators}.

(** X21.  [update] terminates workers only: every node list it hands to
    [terminate_nodes] is made of nodes the provider listed as workers,
    whatever the outcome of the tick, so the head node and the unmanaged
    nodes stay. *)
Theorem update_terminates_only_workers now s :
  exists since,
    terminated (provider (update now s).2)
    = since ++ terminated (provider s)
    /\ Forall (Forall (is_worker (provider s))) since
    /\ filter (fun n => ~ is_worker (provider s) n)
         (p_nodes (provider (update now s).2))
       = filter (fun n => ~ is_worker (provider s) n)
           (p_nodes (provider s)).
Proof.
  assert (only_workers_terminated s (update now s).2)
    as (_ & (since & Hlog & Hsince) & Hrest); [|by exists since].
  assert (only_workers_terminated s s) as Hs.
  { split; [done|]. split; [|done]. exists []. by split; [|constructor]. }
  unfold update.
  assert (only_workers_terminated s (tick now s).2) as Ht.
  { rewrite tick_eq.
    assert (only_workers_terminated s (reset false s).2) as Hr.
    { destruct (reset_load_metrics false s) as [_ Hp].
      unfold only_workers_terminated. by rewrite Hp. }
    revert Hr. generalize (reset false s).2. intros s1 Hs1.
    pose proof (only_workers_reconcile s now).
    revert s1 Hs1. change (inv (only_workers_terminated s) (_update now)).
    unfold _update. repeat first [solve [auto] | reads_step s]. }
  destruct (tick now s) as [[[]|e|] s1]; cbn [fst snd] in *; [done| |done].
  revert s1 Ht.
  change (inv (only_workers_terminated s) (on_tick_exception e)).
  unfold on_tick_exception, _internal_kv_put. repeat reads_step s.
Qed.

End only_workers_claim.

(** ** The state changes of a tick, one by one *)

(** One step of an invariance proof through a method unfolded down to its
    state changes; [close] proves that a state change keeps the
    invariant. *)
Ltac keeps_step close :=
  lazymatch goal with
  | |- inv _ (provider_read _ _) =>
      apply inv_read_only; intros ? ?; cbv beta; close
  | |- inv _ (assign _) => apply inv_assign; intros ? ?; cbv beta; close
  | |- _ => inv_step
  end.

Section tick_changes.
Context `{Collaborators} (P : StandardAutoscaler -> Prop).

Hypothesis P_call : forall c s,
  P s -> P (set_provider (log_call c (provider s)) s).
Hypothesis P_terminate : forall ids s,
  P s ->
  P (set_provider
       (forget_nodes ids (log_call (Call_terminate_nodes ids) (provider s))) s).
Hypothesis P_load_metrics : forall lm s, P s -> P (set_load_metrics lm s).
Hypothesis P_status : forall v s,
  P s -> P (set_kv (<[DEBUG_AUTOSCALING_STATUS := v]> (kv s)) s).
Hypothesis P_register : forall n u s,
  P s -> P (set_updaters (PyDict.set n u (updaters s)) s).
Hypothesis P_del : forall n s,
  P s -> P (set_updaters (PyDict.del n (updaters s)) s).
Hypothesis P_successful : forall n s,
  P s ->
  P (set_num_successful_updates
       (<[n := default 0 (num_successful_updates s !! n) + 1]>
          (num_successful_updates s)) s).
Hypothesis P_failed : forall n s,
  P s ->
  P (set_num_failed_updates
       (<[n := default 0 (num_failed_updates s !! n) + 1]>
          (num_failed_updates s)) s).
Hypothesis P_pending : forall ty count s,
  P s ->
  P (set_pending_launches
       (<[ty := default 0 (pending_launches s !! ty) + count]>
          (pending_launches s)) s).
Hypothesis P_queue : forall requests s,
  P s -> P (set_launch_queue (launch_queue s ++ requests) s).
Hypothesis P_last_update_time : forall t s,
  P s -> P (set_last_update_time t s).
Hypothesis P_config : forall c h1 h2 s,
  P s -> P (set_config_and_hashes c h1 h2 s).
Hypothesis P_available_node_types : forall t s,
  P s -> P (set_available_node_types t s).
Hypothesis P_resource_demand_scheduler : forall c s,
  P s -> P (set_resource_demand_scheduler c s).

Local Hint Resolve P_call P_terminate P_load_metrics P_status P_register
  P_del P_successful P_failed P_pending P_queue P_last_update_time P_config
  P_available_node_types P_resource_demand_scheduler : core.

Local Ltac keep := repeat first [solve [auto] | keeps_step ltac:(solve [auto])].

Lemma keeps_terminate_nodes ids : inv P (terminate_nodes ids).
Proof.
  intros s Hs. unfold terminate_nodes. destruct (p_faults _ !! _); cbn; auto.
Qed.

Lemma keeps_launch_config_ok n : inv P (launch_config_ok n).
Proof. unfold launch_config_ok, node_tags. keep. Qed.

Local Hint Resolve keeps_terminate_nodes keeps_launch_config_ok : core.

Lemma keeps_can_update n : inv P (can_update n).
Proof. unfold can_update. keep. Qed.

Lemma keeps__get_node_type_specific_fields {A} n key
    (f : Config -> option A) g :
  inv P (_get_node_type_specific_fields n key f g).
Proof. unfold _get_node_type_specific_fields, node_tags. keep. Qed.

Lemma keeps__node_resources n : inv P (_node_resources n).
Proof. unfold _node_resources, node_tags. keep. Qed.

Local Hint Resolve keeps_can_update keeps__get_node_type_specific_fields
  keeps__node_resources : core.

Lemma keeps_should_update n : inv P (should_update n).
Proof.
  unfold should_update, files_up_to_date, _get_node_specific_docker_config,
    node_tags. keep.
Qed.

Lemma keeps_spawn_updater n c r res d : inv P (spawn_updater n c r res d).
Proof. unfold spawn_updater, register_updater. keep. Qed.

Lemma keeps_recover_if_needed n now : inv P (recover_if_needed n now).
Proof.
  unfold recover_if_needed, register_updater, set_last_heartbeat,
    internal_ip. keep.
Qed.

Lemma keeps_log_info_string nodes : inv P (log_info_string nodes).
Proof. unfold log_info_string, info_string, _internal_kv_put. keep. Qed.

Lemma keeps_workers : inv P workers.
Proof. unfold workers, non_terminated_nodes. keep. Qed.

Lemma keeps_internal_ip n : inv P (internal_ip n).
Proof. unfold internal_ip. keep. Qed.

Lemma keeps_launch_new_node count ty : inv P (launch_new_node count ty).
Proof. unfold launch_new_node. keep. Qed.

Local Hint Resolve keeps_should_update keeps_spawn_updater
  keeps_recover_if_needed keeps_log_info_string keeps_workers
  keeps_internal_ip keeps_launch_new_node : core.

Lemma keeps_terminate_idle_or_outdated sorted last_used horizon allowed
    counts acc :
  inv P
    (terminate_idle_or_outdated sorted last_used horizon allowed counts acc).
Proof.
  revert counts acc. induction sorted as [|n rest IH]; intros counts acc;
    cbn [terminate_idle_or_outdated]; [keep|].
  unfold _keep_min_worker_of_node_type, node_tags, internal_ip.
  repeat first [solve [auto] | apply IH | keeps_step ltac:(solve [auto])].
Qed.

Local Hint Resolve keeps_terminate_idle_or_outdated : core.

Lemma keeps_reconcile now : inv P (reconcile now).
Proof.
  unfold reconcile, all_workers, unmanaged_workers, non_terminated_nodes,
    prune_active_ips, _sort_based_on_last_used,
    _get_nodes_allowed_to_terminate, collect_max_node_resources,
    decide_allowed_to_terminate, terminate_too_many,
    process_completed_updates, mark_active, update_out_of_date_nodes,
    node_tags.
  keep.
Qed.

Lemma keeps_tick now : inv P (tick now).
Proof.
  pose proof (keeps_reconcile now).
  apply inv_bind.
  - intros s Hs. unfold reset.
    assert (inv P (reset_body
                     (truthy_bool
                        (c_file_mounts_sync_continuously (config s))))) as Hb
      by (unfold reset_body; keep).
    specialize (Hb s Hs).
    by destruct (reset_body _ s) as [[[]|e|] s1].
  - intros _. unfold _update. keep.
Qed.

End tick_changes.

(** What the [except] clause of [update] adds to the changes of the
    tick. *)
Lemma keeps_update `{Collaborators} (P : StandardAutoscaler -> Prop) now :
  inv P (tick now) ->
  (forall v s, P s -> P (set_kv (<[DEBUG_AUTOSCALING_ERROR := v]> (kv s)) s)) ->
  (forall s, P s -> P (set_num_failures (num_failures s + 1) s)) ->
  inv P (update now).
Proof.
  intros Ht Herr Hfail s Hs. unfold update. specialize (Ht s Hs).
  destruct (tick now s) as [[[]|e|] s1]; cbn [snd] in *; try done.
  revert s1 Ht. change (inv P (on_tick_exception e)).
  unfold on_tick_exception, _internal_kv_put.
  repeat first [solve [auto] | keeps_step ltac:(solve [auto])].
Qed.

Section counters.
Context `{Collaborators}.

Lemma insert_increment_le (m : gmap NodeID Z) n n' c :
  c <= default 0 (m !! n) ->
  c <= default 0 (<[n' := default 0 (m !! n') + 1]> m !! n).
Proof.
  intros Hc. destruct (decide (n' = n)) as [->|Hne].
  - rewrite lookup_insert_eq. cbn. lia.
  - by rewrite lookup_insert_ne.
Qed.

(** X22.  The update counters only grow: [update] never lowers
    [num_failed_updates] or [num_successful_updates] of a node.  So a
    node one of whose updates has failed stays failed: [can_update] does
    not return [True] for it after any later [update], and
    [should_update] returns only the null sentinel. *)
Theorem failed_update_is_never_retried now s n :
  let s' := (update now s).2 in
  default 0 (num_failed_updates s !! n)
  <= default 0 (num_failed_updates s' !! n)
  /\ default 0 (num_successful_updates s !! n)
     <= default 0 (num_successful_updates s' !! n)
  /\ (0 < default 0 (num_failed_updates s !! n) ->
      0 < default 0 (num_failed_updates s' !! n)
      /\ (can_update n s').1 <> Ok true
      /\ (forall ui, (should_update n s').1 = Ok ui -> ui = no_update)
      /\ updaters (recover_if_needed n now s').2 = updaters s').
Proof.
  cbv zeta.
  assert (default 0 (num_failed_updates s !! n)
          <= default 0 (num_failed_updates (update now s).2 !! n)) as Hf.
  { apply (keeps_update
             (fun x => default 0 (num_failed_updates s !! n)
                       <= default 0 (num_failed_updates x !! n)));
      [|done|done|lia].
    apply keeps_tick; try done.
    intros n' x Hx. by apply insert_increment_le. }
  assert (default 0 (num_successful_updates s !! n)
          <= default 0 (num_successful_updates (update now s).2 !! n)) as Hs.
  { apply (keeps_update
             (fun x => default 0 (num_successful_updates s !! n)
                       <= default 0 (num_successful_updates x !! n)));
      [|done|done|lia].
    apply keeps_tick; try done.
    intros n' x Hx. by apply insert_increment_le. }
  split; [done|]. split; [done|]. intros Hpos.
  assert ((can_update n (update now s).2).1 <> Ok true) as Hcu.
  { intros Ht.
    destruct (can_update n (update now s).2) as [r x] eqn:Hr.
    cbn in Ht. subst r.
    apply can_update_true_inv in Hr as (_ & _ & Hnot). lia. }
  split; [lia|]. split; [done|].
  split; [intros ui; by apply should_update_refuses|].
  by apply recover_if_needed_refuses.
Qed.

(** X23.  The tick writes the debug key-value store under
    [DEBUG_AUTOSCALING_STATUS] only, and [update] under that key and
    [DEBUG_AUTOSCALING_ERROR] only.  An error is recorded when the tick
    raises and the store is initialized; a tick that succeeds leaves the
    error recorded before as it is. *)
Theorem update_writes_two_debug_keys now s :
  (forall key,
     key <> DEBUG_AUTOSCALING_STATUS ->
     kv (tick now s).2 !! key = kv s !! key)
  /\ (forall key,
        key <> DEBUG_AUTOSCALING_STATUS -> key <> DEBUG_AUTOSCALING_ERROR ->
        kv (update now s).2 !! key = kv s !! key)
  /\ ((tick now s).1 = Ok tt ->
      kv (update now s).2 !! DEBUG_AUTOSCALING_ERROR
      = kv s !! DEBUG_AUTOSCALING_ERROR)
  /\ (forall e,
        (tick now s).1 = Raise e -> kv_initialized s = true ->
        kv (update now s).2 !! DEBUG_AUTOSCALING_ERROR = Some (str e)).
Proof.
  assert (forall key,
            key <> DEBUG_AUTOSCALING_STATUS ->
            kv (tick now s).2 !! key = kv s !! key) as Htick.
  { intros key Hkey.
    apply (keeps_tick (fun x => kv x !! key = kv s !! key)); try done.
    intros v x Hx. cbn. by rewrite lookup_insert_ne. }
  split; [done|]. split; [|split].
  - intros key Hstatus Herror.
    apply (keeps_update (fun x => kv x !! key = kv s !! key));
      [|intros v x Hx; cbn; by rewrite lookup_insert_ne|done|done].
    apply keeps_tick; try done.
    intros v x Hx. cbn. by rewrite lookup_insert_ne.
  - intros Hok. unfold update.
    specialize (Htick DEBUG_AUTOSCALING_ERROR ltac:(done)).
    destruct (tick now s) as [r s1]. cbn in Hok. subst r. done.
  - intros e Hraise Hinit.
    assert (kv_initialized (tick now s).2 = true) as Hinit1.
    { rewrite <-Hinit.
      apply (inv_tick (fun x => kv_initialized x = kv_initialized s));
        frame_solve. }
    unfold update. destruct (tick now s) as [r s1]. cbn in Hraise, Hinit1.
    subst r.
    assert (forall x, kv x !! DEBUG_AUTOSCALING_ERROR = Some (str e) ->
              forall m : M unit,
              inv (fun y => kv y !! DEBUG_AUTOSCALING_ERROR = Some (str e)) m ->
              kv (m x).2 !! DEBUG_AUTOSCALING_ERROR = Some (str e)) as Hrest
      by (intros x Hx m Hm; by apply Hm).
    unfold on_tick_exception.
    rewrite (bind_eq self _ _ _ _ eq_refl), Hinit1.
    unfold _internal_kv_put. rewrite (bind_eq (assign _) _ _ _ _ eq_refl).
    apply Hrest; [cbn; apply lookup_insert_eq|].
    repeat first [solve [auto] | keeps_step ltac:(solve [auto])].
Qed.

(** X24.  [update] only appends to the launch queue: the requests queued
    before are still there, in their order, whatever the outcome of the
    tick. *)
Theorem update_only_appends_to_the_launch_queue now s :
  launch_queue s `prefix_of` launch_queue (update now s).2.
Proof.
  apply (keeps_update (fun x => launch_queue s `prefix_of` launch_queue x));
    [|done|done|done].
  apply keeps_tick; try done.
  intros requests x Hx. cbn. by apply prefix_app_r.
Qed.

End counters.

Lemma failed_update_is_never_retried_witness :
  (can_update "n1"
     (update 1200
        (set_num_failed_updates {[ "n1"%string := 1 ]}
           Cluster.stale_runtime)).2).1 <> Ok true.
Proof.
  destruct (failed_update_is_never_retried 1200
              (set_num_failed_updates {[ "n1"%string := 1 ]}
                 Cluster.stale_runtime) "n1"%string)
    as (_ & _ & Hfailed).
  destruct Hfailed as (_ & Hcu & _); [by vm_compute|exact Hcu].
Defined.

Lemma update_writes_two_debug_keys_witness :
  kv (update 10 Cluster.fresh_cluster).2 !! DEBUG_AUTOSCALING_ERROR
  = Some (str (ValueError "min() arg is an empty sequence")).
Proof.
  destruct (update_writes_two_debug_keys 10 Cluster.fresh_cluster)
    as (_ & _ & _ & Herr).
  apply Herr; [by vm_compute|reflexivity].
Defined.

Section constructor_facts.
Context `{Collaborators} `{Environment}.

Lemma forallb_path_exists (fm : Dict) :
  forallb path_exists (map_to_list (expanduser <$> fm)).*2 = true
  <-> forall remote local,
        fm !! remote = Some local -> path_exists (expanduser local) = true.
Proof.
  rewrite forallb_forall. split.
  - intros Hall remote local Hl. apply Hall, list_elem_of_In.
    apply list_elem_of_fmap. exists (remote, expanduser local). split; [done|].
    apply elem_of_map_to_list. by rewrite lookup_fmap, Hl.
  - intros Hall path Hin. apply list_elem_of_In in Hin.
    apply list_elem_of_fmap in Hin as ([remote path'] & -> & Hin).
    apply elem_of_map_to_list in Hin. rewrite lookup_fmap in Hin.
    destruct (fm !! remote) as [local|] eqn:Hl; [|done].
    cbn in Hin. injection Hin as <-. by apply (Hall remote).
Qed.

(** What a constructor that returns has found, and the object it
    returns. *)
Lemma __init___ok_inv cf lm mlb mcl mf ui kvi kvs s k :
  __init__ cf lm mlb mcl mf ui kvi kvs = Ok (s, k) ->
  exists cfg fm csf wsc wsrc pc name p nts mw,
    cf = inr cfg
    /\ hashed_fields cfg = Ok (fm, csf, wsc, wsrc)
    /\ c_provider cfg = Some pc /\ c_cluster_name cfg = Some name
    /\ _get_node_provider pc name = Ok p
    /\ c_available_node_types cfg = Some nts /\ c_max_workers cfg = Some mw
    /\ mlb <> 0
    /\ forallb path_exists (map_to_list (expanduser <$> fm)).*2 = true
    /\ k = Z.to_nat (ceil_div mcl mlb)
    /\ config s = set_file_mounts (expanduser <$> fm) cfg
    /\ (runtime_hash s, file_mounts_contents_hash s)
       = hash_runtime_conf fm csf [wsc; wsrc] false
    /\ provider s = p /\ config_file s = inr cfg
    /\ max_launch_batch s = mlb.
Proof.
  unfold __init__, hashed_fields. intros Hinit.
  destruct cf as [e|cfg]; [done|]. cbn [res_bind] in Hinit.
  destruct (c_file_mounts cfg) as [fm|] eqn:Hfm; [|done].
  destruct (c_cluster_synced_files cfg) as [csf|] eqn:Hcsf; [|done].
  destruct (c_worker_setup_commands cfg) as [wsc|] eqn:Hwsc; [|done].
  destruct (c_worker_start_ray_commands cfg) as [wsrc|] eqn:Hwsrc; [|done].
  destruct (c_provider cfg) as [pc|] eqn:Hpc; [|done].
  destruct (c_cluster_name cfg) as [name|] eqn:Hname; [|done].
  cbn [item res_bind] in Hinit.
  destruct (_get_node_provider pc name) as [p|e|] eqn:Hp; [|done|done].
  destruct (c_available_node_types cfg) as [nts|] eqn:Hnts; [|done].
  destruct (c_max_workers cfg) as [mw|] eqn:Hmw; [|done].
  cbn [item res_bind] in Hinit.
  case_bool_decide as Hmlb; [done|]. cbn [res_bind] in Hinit.
  destruct (forallb _ _) eqn:Hfiles; [|done].
  injection Hinit as <- <-.
  exists cfg, fm, csf, wsc, wsrc, pc, name, p, nts, mw. cbn.
  rewrite Hfm, Hcsf, Hwsc, Hwsrc. repeat split; try done.
  by destruct (hash_runtime_conf fm csf [wsc; wsrc] false).
Qed.

(** The constructor up to its node launchers, when its [reset] goes
    through. *)
Lemma __init___after_reset cfg fm lm mlb mcl mf ui kvi kvs :
  first_reset_ok cfg fm ->
  exists s,
    __init__ (inr cfg) lm mlb mcl mf ui kvi kvs
    = if bool_decide (mlb = 0)
      then Raise (OtherException "float division by zero")
      else if forallb path_exists (map_to_list (expanduser <$> fm)).*2
           then Ok (s, Z.to_nat (ceil_div mcl mlb))
           else Raise (OtherException "").
Proof.
  intros (Hfm & [csf Hcsf] & [wsc Hwsc] & [wsrc Hwsrc]
          & (pc & name & p & Hpc & Hname & Hp) & [nts Hnts] & [mw Hmw]).
  eexists. unfold __init__. cbn [res_bind].
  rewrite Hfm, Hcsf, Hwsc, Hwsrc, Hpc, Hname. cbn [item res_bind].
  rewrite Hp, Hnts, Hmw. cbn [item res_bind].
  case_bool_decide; [done|]. cbn [res_bind]. reflexivity.
Qed.

(** X25.  The constructor returns an object exactly when the config file
    loads, its [reset] goes through, [max_launch_batch] is not 0 and
    every local path of [file_mounts] exists once [~] is expanded.
    Otherwise it raises: the error of reading the file is fatal, a
    [max_launch_batch] of 0 is a division by zero, which is met before
    the paths are looked at, and a path that does not exist fails the
    assertion. *)
Theorem constructor_succeeds_iff cf lm mlb mcl mf ui kvi kvs :
  ((exists s k, __init__ cf lm mlb mcl mf ui kvi kvs = Ok (s, k))
   <-> exists cfg fm,
         cf = inr cfg
         /\ first_reset_ok cfg fm
         /\ mlb <> 0
         /\ (forall remote local,
               fm !! remote = Some local ->
               path_exists (expanduser local) = true))
  /\ (forall e, cf = inl e ->
        __init__ cf lm mlb mcl mf ui kvi kvs = Raise e)
  /\ (forall cfg fm,
        cf = inr cfg -> first_reset_ok cfg fm -> mlb = 0 ->
        __init__ cf lm mlb mcl mf ui kvi kvs
        = Raise (OtherException "float division by zero"))
  /\ (forall cfg fm remote local,
        cf = inr cfg -> first_reset_ok cfg fm -> mlb <> 0 ->
        fm !! remote = Some local ->
        path_exists (expanduser local) = false ->
        __init__ cf lm mlb mcl mf ui kvi kvs = Raise (OtherException "")).
Proof.
  split; [split|split; [|split]].
  - intros (s & k & Hinit).
    apply __init___ok_inv in Hinit
      as (cfg & fm & csf & wsc & wsrc & pc & name & p & nts & mw & -> & Hh
          & Hpc & Hname & Hp & Hnts & Hmw & Hmlb & Hfiles & _).
    unfold hashed_fields in Hh.
    destruct (c_file_mounts cfg) as [fm'|] eqn:Hfm; [|done].
    destruct (c_cluster_synced_files cfg) as [csf'|] eqn:Hcsf; [|done].
    destruct (c_worker_setup_commands cfg) as [wsc'|] eqn:Hwsc; [|done].
    destruct (c_worker_start_ray_commands cfg) as [wsrc'|] eqn:Hwsrc;
      [|done].
    cbn in Hh. injection Hh as -> -> -> ->.
    exists cfg, fm. split; [done|]. split; [|split; [done|]].
    + unfold first_reset_ok. rewrite Hfm, Hcsf, Hwsc, Hwsrc, Hnts, Hmw.
      repeat split; try done. by exists pc, name, p.
    + by apply forallb_path_exists.
  - intros (cfg & fm & -> & Hreset & Hmlb & Hfiles).
    apply forallb_path_exists in Hfiles.
    destruct (__init___after_reset cfg fm lm mlb mcl mf ui kvi kvs Hreset)
      as [s ->].
    rewrite bool_decide_eq_false_2, Hfiles by done. by eexists _, _.
  - by intros e ->.
  - intros cfg fm -> Hreset ->.
    destruct (__init___after_reset cfg fm lm 0 mcl mf ui kvi kvs Hreset)
      as [s ->].
    done.
  - intros cfg fm remote local -> Hreset Hmlb Hl Hmissing.
    destruct (__init___after_reset cfg fm lm mlb mcl mf ui kvi kvs Hreset)
      as [s ->].
    rewrite bool_decide_eq_false_2 by done.
    destruct (forallb _ _) eqn:Hfiles; [|done].
    rewrite (proj1 (forallb_path_exists fm) Hfiles remote local Hl)
      in Hmissing.
    done.
Qed.

(** X26.  A constructor that returns has started
    [ceil(max_concurrent_launches / max_launch_batch)] launchers, or none
    when that number is not positive.  For a positive batch size this is
    the least number of launchers that together take
    [max_concurrent_launches] nodes in batches of [max_launch_batch], and
    none when [max_concurrent_launches] is not positive.  For a negative
    batch size it is none when [max_concurrent_launches] is 0 or more;
    when both are negative the launchers are started that their absolute
    values ask for. *)
Theorem constructor_starts_the_launchers cf lm mlb mcl mf ui kvi kvs s k :
  __init__ cf lm mlb mcl mf ui kvi kvs = Ok (s, k) ->
  max_launch_batch s = mlb
  /\ (0 < mlb -> 0 < mcl ->
      (Z.of_nat k - 1) * mlb < mcl <= Z.of_nat k * mlb)
  /\ (0 < mlb -> mcl <= 0 -> k = 0%nat)
  /\ (mlb < 0 -> 0 <= mcl -> k = 0%nat)
  /\ (mlb < 0 -> mcl < 0 ->
      (Z.of_nat k - 1) * - mlb < - mcl <= Z.of_nat k * - mlb).
Proof.
  intros Hinit.
  apply __init___ok_inv in Hinit
    as (cfg & fm & csf & wsc & wsrc & pc & name & p & nts & mw & _ & _ & _
        & _ & _ & _ & _ & Hmlb & _ & -> & _ & _ & _ & _ & Hb).
  split; [done|]. unfold ceil_div. split; [|split; [|split]].
  - intros Hpos Hmcl.
    pose proof (Z.div_mod (- mcl) mlb ltac:(lia)) as Hdm.
    pose proof (Z.mod_pos_bound (- mcl) mlb Hpos) as Hm.
    set (q := - mcl / mlb) in *. clearbody q.
    set (r := - mcl `mod` mlb) in *. clearbody r.
    rewrite Z2Nat.id by nia. nia.
  - intros Hpos Hmcl.
    pose proof (Z.div_pos (- mcl) mlb ltac:(lia) Hpos). lia.
  - intros Hneg Hmcl.
    pose proof (Z.div_mod (- mcl) mlb ltac:(lia)) as Hdm.
    pose proof (Z.mod_neg_bound (- mcl) mlb Hneg) as Hm.
    set (q := - mcl / mlb) in *. clearbody q.
    set (r := - mcl `mod` mlb) in *. clearbody r.
    assert (0 <= q) by nia. lia.
  - intros Hneg Hmcl.
    pose proof (Z.div_mod (- mcl) mlb ltac:(lia)) as Hdm.
    pose proof (Z.mod_neg_bound (- mcl) mlb Hneg) as Hm.
    set (q := - mcl / mlb) in *. clearbody q.
    set (r := - mcl `mod` mlb) in *. clearbody r.
    assert (q < 0) by nia.
    rewrite Z2Nat.id by lia. nia.
Qed.

(** X27.  The constructor expands [~] in the local paths of
    [config["file_mounts"]], after the runtime hash has been taken of the
    paths as the file gives them.  The expansion does not last: the
    [reset] that opens every [update] installs the config of the file
    again, so from the first [update] on [config["file_mounts"]] holds
    the paths as written. *)
Theorem constructor_expansion_is_undone_by_reset
    cf lm mlb mcl mf ui kvi kvs s k cfg fm :
  __init__ cf lm mlb mcl mf ui kvi kvs = Ok (s, k) ->
  cf = inr cfg ->
  c_file_mounts cfg = Some fm ->
  c_file_mounts (config s) = Some (expanduser <$> fm)
  /\ (forall csf wsc wsrc,
        c_cluster_synced_files cfg = Some csf ->
        c_worker_setup_commands cfg = Some wsc ->
        c_worker_start_ray_commands cfg = Some wsrc ->
        (runtime_hash s, file_mounts_contents_hash s)
        = hash_runtime_conf fm csf [wsc; wsrc] false)
  /\ (forall errors_fatal,
        (reset errors_fatal s).1 = Ok tt
        /\ config (reset errors_fatal s).2 = cfg)
  /\ (forall now, config (update now s).2 = cfg).
Proof.
  intros Hinit -> Hfm.
  apply __init___ok_inv in Hinit
    as (cfg' & fm' & csf & wsc & wsrc & pc & name & p & nts & mw & Hcf & Hh
        & Hpc & Hname & Hp & Hnts & Hmw & Hmlb & Hfiles & _ & Hcfg & Hhash
        & _ & Hfile & _).
  injection Hcf as <-.
  assert (fm' = fm /\ c_cluster_synced_files cfg = Some csf
          /\ c_worker_setup_commands cfg = Some wsc
          /\ c_worker_start_ray_commands cfg = Some wsrc)
    as (-> & Hcsf & Hwsc & Hwsrc).
  { unfold hashed_fields in Hh. rewrite Hfm in Hh.
    destruct (c_cluster_synced_files cfg); [|done].
    destruct (c_worker_setup_commands cfg); [|done].
    destruct (c_worker_start_ray_commands cfg); [|done].
    cbn in Hh. by injection Hh as -> -> -> ->. }
  assert (forall errors_fatal,
            (reset errors_fatal s).1 = Ok tt
            /\ config (reset errors_fatal s).2 = cfg) as Hreset.
  { intros b. unfold reset.
    rewrite (reset_body_hashed _ s cfg fm csf wsc wsrc Hfile Hh).
    cbv zeta. by rewrite Hnts, Hmw. }
  split; [by rewrite Hcfg|]. split.
  { intros csf' wsc' wsrc' Hcsf' Hwsc' Hwsrc'.
    rewrite Hcsf in Hcsf'. rewrite Hwsc in Hwsc'. rewrite Hwsrc in Hwsrc'.
    injection Hcsf' as <-. injection Hwsc' as <-. by injection Hwsrc' as <-. }
  split; [done|]. intros now.
  destruct (Hreset false) as [_ <-]. unfold update.
  pose proof (tick_eq now s) as Ht.
  pose proof (_update_config now (reset false s).2) as Hc.
  rewrite <-Ht in Hc. destruct (tick now s) as [[[]|e|] s1]; try done.
  cbn [snd] in Hc. rewrite <-Hc.
  apply (inv_on_tick_exception (fun x => config x = config s1));
    frame_solve.
Qed.

End constructor_facts.

Lemma constructor_succeeds_iff_witness :
  __init__ (inr Cluster.config_with_mounts) (Cluster.metrics ∅ ∅)
    0 10 5 5 true ∅
  = Raise (OtherException "float division by zero").
Proof.
  destruct (constructor_succeeds_iff (inr Cluster.config_with_mounts)
              (Cluster.metrics ∅ ∅) 0 10 5 5 true ∅)
    as (_ & _ & Hzero & _).
  apply (Hzero Cluster.config_with_mounts
           {[ "/remote/app"%string := "~/app"%string ]});
    [reflexivity| |reflexivity].
  repeat split; try (by eexists). by eexists _, _, _.
Defined.

Lemma constructor_starts_the_launchers_witness :
  (3 - 1) * 4 < 10 <= 3 * 4.
Proof.
  destruct (constructor_starts_the_launchers
              (inr Cluster.config_with_mounts) (Cluster.metrics ∅ ∅)
              4 10 5 5 true ∅ Cluster.constructed 3%nat)
    as (_ & Hk & _); [by vm_compute|].
  apply Hk; lia.
Defined.

Lemma constructor_expansion_is_undone_by_reset_witness :
  c_file_mounts (config Cluster.constructed)
  = Some {[ "/remote/app"%string := "/home/ubuntu/app"%string ]}
  /\ c_file_mounts (config (update 10 Cluster.constructed).2)
     = Some {[ "/remote/app"%string := "~/app"%string ]}.
Proof.
  destruct (constructor_expansion_is_undone_by_reset
              (inr Cluster.config_with_mounts) (Cluster.metrics ∅ ∅)
              4 10 5 5 true ∅ Cluster.constructed 3%nat
              Cluster.config_with_mounts
              {[ "/remote/app"%string := "~/app"%string ]})
    as (Hexpanded & _ & _ & Hupdate);
    [by vm_compute|reflexivity|reflexivity|].
  split; [by rewrite Hexpanded|by rewrite Hupdate].
Defined.

(** ** Step 3 within the tick *)

(** A step of an invariance proof, for an invariant that the calls that
    read the provider keep. *)
Ltac only_reads_close P_read P_load_metrics P_other :=
  first
    [ assumption
    | apply P_read; [done|assumption]
    | apply P_load_metrics; assumption
    | eapply P_other; [| | |eassumption]; reflexivity ].

(** The methods that read the provider and do not terminate a node: an
    invariant of the reading calls, which does not look at the rest of
    the state, is an invariant of these methods. *)
Section only_reads.
Context `{Collaborators} (P : StandardAutoscaler -> Prop).

Hypothesis P_read : forall c s,
  (forall ids, c <> Call_terminate_nodes ids) ->
  P s -> P (set_provider (log_call c (provider s)) s).
Hypothesis P_load_metrics : forall lm s, P s -> P (set_load_metrics lm s).
Hypothesis P_other : forall s s',
  provider s' = provider s -> config s' = config s ->
  load_metrics s' = load_metrics s -> P s -> P s'.

Local Ltac close := only_reads_close P_read P_load_metrics P_other.
Local Ltac keep := repeat first [solve [auto] | keeps_step close].

Lemma only_reads_launch_config_ok n : inv P (launch_config_ok n).
Proof. unfold launch_config_ok, node_tags. keep. Qed.

Local Hint Resolve only_reads_launch_config_ok : core.

Lemma only_reads_can_update n : inv P (can_update n).
Proof. unfold can_update. keep. Qed.

Lemma only_reads__get_node_type_specific_fields {A} n key
    (f : Config -> option A) g :
  inv P (_get_node_type_specific_fields n key f g).
Proof. unfold _get_node_type_specific_fields, node_tags. keep. Qed.

Lemma only_reads__node_resources n : inv P (_node_resources n).
Proof. unfold _node_resources, node_tags. keep. Qed.

Local Hint Resolve only_reads_can_update
  only_reads__get_node_type_specific_fields only_reads__node_resources
  : core.

Lemma only_reads_should_update n : inv P (should_update n).
Proof.
  unfold should_update, files_up_to_date, _get_node_specific_docker_config,
    node_tags. keep.
Qed.

Lemma only_reads_spawn_updater n c r res d :
  inv P (spawn_updater n c r res d).
Proof. unfold spawn_updater, register_updater. keep. Qed.

Lemma only_reads_recover_if_needed n now : inv P (recover_if_needed n now).
Proof.
  unfold recover_if_needed, register_updater, set_last_heartbeat,
    internal_ip. keep.
Qed.

Lemma only_reads_log_info_string nodes : inv P (log_info_string nodes).
Proof. unfold log_info_string, info_string, _internal_kv_put. keep. Qed.

Lemma only_reads_non_terminated_nodes f : inv P (non_terminated_nodes f).
Proof. unfold non_terminated_nodes. keep. Qed.

Lemma only_reads_workers : inv P workers.
Proof. unfold workers, non_terminated_nodes. keep. Qed.

Lemma only_reads_all_workers : inv P all_workers.
Proof.
  unfold all_workers, workers, unmanaged_workers, non_terminated_nodes.
  keep.
Qed.

Lemma only_reads_internal_ip n : inv P (internal_ip n).
Proof. unfold internal_ip. keep. Qed.

Lemma only_reads_launch_new_node count ty : inv P (launch_new_node count ty).
Proof. unfold launch_new_node. keep. Qed.

Local Hint Resolve only_reads_should_update only_reads_spawn_updater
  only_reads_recover_if_needed only_reads_log_info_string
  only_reads_workers only_reads_internal_ip only_reads_launch_new_node
  only_reads_non_terminated_nodes only_reads_all_workers : core.

Lemma only_reads__sort_based_on_last_used nodes last_used :
  inv P (_sort_based_on_last_used nodes last_used).
Proof. unfold _sort_based_on_last_used. keep. Qed.

Lemma only_reads__get_nodes_allowed_to_terminate sorted :
  inv P (_get_nodes_allowed_to_terminate sorted).
Proof.
  unfold _get_nodes_allowed_to_terminate, collect_max_node_resources,
    decide_allowed_to_terminate, node_tags. keep.
Qed.

Lemma only_reads_terminate_idle_or_outdated sorted last_used horizon allowed
    counts acc :
  inv P
    (terminate_idle_or_outdated sorted last_used horizon allowed counts acc).
Proof.
  revert counts acc. induction sorted as [|n rest IH]; intros counts acc;
    cbn [terminate_idle_or_outdated]; [keep|].
  unfold _keep_min_worker_of_node_type, node_tags, internal_ip.
  repeat first [solve [auto] | apply IH | keeps_step close].
Qed.

Lemma only_reads_process_completed_updates now nodes :
  inv P (process_completed_updates now nodes).
Proof. unfold process_completed_updates, mark_active. keep. Qed.

Lemma only_reads_update_out_of_date_nodes nodes :
  inv P (update_out_of_date_nodes nodes).
Proof. unfold update_out_of_date_nodes. keep. Qed.

End only_reads.

Section excess.
Context `{Collaborators}.

(** The walk of step 2 selects a node for one of two reasons. *)
Lemma terminate_idle_or_outdated_reason e0 last_used horizon allowed sorted :
  forall counts acc s l s',
  erase s = erase e0 ->
  terminate_idle_or_outdated sorted last_used horizon allowed counts acc s
  = (Ok l, s') ->
  exists added,
    l = acc ++ added
    /\ Forall (fun n =>
         (exists t,
            last_used !! p_ip (provider e0) n = Some t /\ t < horizon)
         \/ launch_hash_matches (config e0) (p_tags (provider e0) n)
            = Ok false) added
    /\ erase s' = erase e0.
Proof.
  induction sorted as [|n0 rest IH]; intros counts acc s l s' He Hr.
  { injection Hr as <- <-. exists []. by rewrite app_nil_r. }
  cbn [terminate_idle_or_outdated] in Hr.
  apply bind_ok_inv in Hr as ([keep_min counts'] & s1 & Hkeep & Hr).
  apply _keep_min_worker_of_node_type_ok_inv in Hkeep as [He1 _].
  rewrite He in He1.
  apply bind_ok_inv in Hr as (skip & s2 & Hskip & Hr).
  assert (erase s2 = erase e0) as He2.
  { destruct (keep_min || negb (default true (allowed !! n0))).
    - apply launch_config_ok_ok_inv in Hskip as [_ He2].
      by rewrite He1 in He2.
    - by injection Hskip as <- <-. }
  clear Hskip. destruct skip; [by apply (IH _ _ _ _ _ He2 Hr)|].
  apply bind_ok_inv in Hr as (ip & s3 & Hip & Hr).
  apply internal_ip_ok_inv in Hip as [-> He3]. rewrite He2 in He3.
  rewrite (erase_p_ip _ _ He2) in Hr.
  assert (forall s4,
            erase s4 = erase e0 ->
            (exists t,
               last_used !! p_ip (provider e0) n0 = Some t /\ t < horizon)
            \/ launch_hash_matches (config e0) (p_tags (provider e0) n0)
               = Ok false ->
            terminate_idle_or_outdated rest last_used horizon allowed
              counts' (acc ++ [n0]) s4 = (Ok l, s') ->
            exists added,
              l = acc ++ added
              /\ Forall (fun n =>
                   (exists t,
                      last_used !! p_ip (provider e0) n = Some t
                      /\ t < horizon)
                   \/ launch_hash_matches (config e0)
                        (p_tags (provider e0) n) = Ok false) added
              /\ erase s' = erase e0) as Hadd.
  { intros s4 He4 Hwhy Hrun.
    destruct (IH _ _ _ _ _ He4 Hrun) as (added & -> & Hall & He').
    exists (n0 :: added). rewrite <-app_assoc. split; [done|].
    split; [by apply Forall_cons|done]. }
  destruct (last_used !! p_ip (provider e0) n0) as [t|] eqn:Hused.
  - destruct (t <? horizon) eqn:Hlt.
    + apply (Hadd _ He3); [|done]. left. exists t. split; [done|].
      by apply Z.ltb_lt.
    + apply bind_ok_inv in Hr as (ok & s4 & Hok & Hr).
      apply launch_config_ok_ok_inv in Hok as [Hm He4].
      rewrite (erase_config _ _ He3), (erase_p_tags _ _ He3) in Hm.
      rewrite He3 in He4.
      destruct ok; cbn [negb] in Hr; [by apply (IH _ _ _ _ _ He4 Hr)|].
      apply (Hadd _ He4); [by right|done].
  - apply bind_ok_inv in Hr as (ok & s4 & Hok & Hr).
    apply launch_config_ok_ok_inv in Hok as [Hm He4].
    rewrite (erase_config _ _ He3), (erase_p_tags _ _ He3) in Hm.
    rewrite He3 in He4.
    destruct ok; cbn [negb] in Hr; [by apply (IH _ _ _ _ _ He4 Hr)|].
    apply (Hadd _ He4); [by right|done].
Qed.

Lemma provider_read_ok_state {A} c (f : Provider -> A) s a s' :
  provider_read c f s = (Ok a, s') ->
  a = f (provider s) /\ s' = set_provider (log_call c (provider s)) s.
Proof.
  unfold provider_read. destruct (p_faults _ !! _); by intros [= <- <-].
Qed.

Lemma workers_ok_inv s nodes s' :
  workers s = (Ok nodes, s') ->
  nodes = worker_nodes (provider s)
  /\ s' = set_provider
            (log_call
               (Call_non_terminated_nodes
                  {[TAG_RAY_NODE_KIND := NODE_KIND_WORKER]})
               (provider s)) s.
Proof.
  unfold workers, non_terminated_nodes. intros Hr.
  apply provider_read_ok_state in Hr as [-> ->]. split; [|done].
  unfold worker_nodes. apply list_filter_iff. intros n.
  rewrite matches_filters_singleton. apply bool_decide_spec.
Qed.

Lemma forget_no_nodes p : p_nodes (forget_nodes [] p) = p_nodes p.
Proof.
  cbn. apply filter_all. intros n _. apply not_elem_of_nil.
Qed.

(** A termination, and the workers the provider lists after it: the
    blocks that end step 2 and step 3. *)
Lemma terminate_and_list_ok_inv nodes ids s a s' :
  (if nonempty ids then
     terminate_nodes ids ;;
     nodes <- workers ;;
     log_info_string nodes ;;
     ret nodes
   else ret nodes) s = (Ok a, s') ->
  p_nodes (provider s') = p_nodes (forget_nodes ids (provider s))
  /\ p_tags (provider s') = p_tags (provider s)
  /\ terminated (provider s')
     = (if nonempty ids then [ids] else []) ++ terminated (provider s)
  /\ config s' = config s
  /\ (nodes = worker_nodes (provider s) ->
      a = worker_nodes (forget_nodes ids (provider s))).
Proof.
  destruct ids as [|i ids]; cbn [nonempty].
  { intros [= <- <-]. rewrite forget_no_nodes. split; [done|].
    split; [done|]. split; [done|]. split; [done|]. intros ->.
    unfold worker_nodes. by rewrite forget_no_nodes. }
  intros Hr.
  apply bind_ok_inv in Hr as ([] & s1 & Hterm & Hr).
  apply bind_ok_inv in Hr as (listed & s2 & Hlist & Hr).
  apply bind_ok_inv in Hr as ([] & s3 & Hlog & Hr).
  injection Hr as <- <-.
  assert (s1 = set_provider
                 (forget_nodes (i :: ids)
                    (log_call (Call_terminate_nodes (i :: ids)) (provider s)))
                 s) as ->.
  { unfold terminate_nodes in Hterm.
    destruct (p_faults (provider s) !! length (p_calls (provider s)));
      [discriminate|].
    by injection Hterm as <-. }
  apply workers_ok_inv in Hlist as [Hlisted Hs2].
  pose proof (inv_log_info_string
                (fun x => provider x = provider s2 /\ config x = config s2)
                ltac:(done) listed s2 ltac:(done)) as [Hp3 Hc3].
  rewrite Hlog in Hp3, Hc3. cbn [snd] in Hp3, Hc3.
  rewrite Hp3, Hc3. subst s2 listed. done.
Qed.

End excess.

(** C6, amended.  In a tick that returns, step 3 takes the excess workers
    from the tail of the provider's listing of the workers
    ([self.workers()], as the provider lists them once the nodes that
    step 2 selected are gone), whatever their last-used times.  The tick
    asks the provider to terminate the idle or outdated workers that step
    2 selected, when there are any, and then that tail, when it is not
    empty, and nothing else; the provider is left with its nodes less
    these.  The loop of step 3 pops from the tail of the list it is given,
    and selects at least one node when there are more than [max_workers]
    (and [max_workers] is not negative).  In scenario 2 (5 idle workers of
    a type with [min_workers = 2], at most 5 workers) step 3 selects
    nothing: step 2 terminates the 3 least recently used workers, and the
    2 most recently used remain. *)
Theorem excess_is_taken_from_the_provider_listing :
  (forall (collaborators : Collaborators) now s max_workers
          idle_timeout_minutes,
     update_interval_s s <= now - last_update_time s ->
     c_max_workers (config s) = Some max_workers ->
     c_idle_timeout_minutes (config s) = Some idle_timeout_minutes ->
     (_update now s).1 = Ok tt ->
     exists idle kept excess,
       Forall (idle_or_outdated s (now - 60 * idle_timeout_minutes)) idle
       /\ worker_nodes (forget_nodes idle (provider s)) = kept ++ rev excess
       /\ taken_from_tail_of excess
            (worker_nodes (forget_nodes idle (provider s)))
       /\ (0 <= max_workers
           < Z.of_nat
               (length (worker_nodes (forget_nodes idle (provider s)))) ->
           excess <> [])
       /\ terminated (provider (_update now s).2)
          = (if nonempty excess then [excess] else [])
            ++ (if nonempty idle then [idle] else [])
            ++ terminated (provider s)
       /\ p_nodes (provider (_update now s).2)
          = p_nodes (forget_nodes excess (forget_nodes idle (provider s))))
  /\ (forall s nodes max_workers,
        c_max_workers (config s) = Some max_workers ->
        exists kept selected,
          terminate_too_many nodes s = (Ok (kept, selected), s)
          /\ nodes = kept ++ rev selected
          /\ taken_from_tail_of selected nodes
          /\ (0 <= max_workers < Z.of_nat (length nodes) ->
              selected <> []))
  /\ ((_sort_based_on_last_used ["n1"; "n2"; "n3"; "n4"; "n5"]%string
         (last_used_time_by_ip (load_metrics Cluster.scenario_2))
         Cluster.scenario_2).1
      = Ok ["n2"; "n4"; "n1"; "n3"; "n5"]%string
      /\ (update 1200 Cluster.scenario_2).1 = Ok tt
      /\ terminated (provider (update 1200 Cluster.scenario_2).2)
         = [["n1"; "n3"; "n5"]%string]
      /\ p_nodes (provider (update 1200 Cluster.scenario_2).2)
         = ["n2"; "n4"]%string).
Proof.
  split; [|split; [|by vm_compute]].
  - intros collaborators now.
    assert (forall s max_workers idle_timeout_minutes s',
        c_max_workers (config s) = Some max_workers ->
        c_idle_timeout_minutes (config s) = Some idle_timeout_minutes ->
        reconcile now s = (Ok tt, s') ->
        exists idle kept excess,
          Forall (idle_or_outdated s (now - 60 * idle_timeout_minutes)) idle
          /\ worker_nodes (forget_nodes idle (provider s))
             = kept ++ rev excess
          /\ (0 <= max_workers
              < Z.of_nat
                  (length (worker_nodes (forget_nodes idle (provider s)))) ->
              excess <> [])
          /\ terminated (provider s')
             = (if nonempty excess then [excess] else [])
               ++ (if nonempty idle then [idle] else [])
               ++ terminated (provider s)
          /\ p_nodes (provider s')
             = p_nodes (forget_nodes excess (forget_nodes idle (provider s))))
      as Hbody.
    { intros s max_workers idle_timeout_minutes s' Hmax Hidle Hr.
      unfold reconcile in Hr.
      set (Q := fun x : StandardAutoscaler =>
                  p_nodes (provider x) = p_nodes (provider s)
                  /\ p_tags (provider x) = p_tags (provider s)
                  /\ p_ip (provider x) = p_ip (provider s)
                  /\ terminated (provider x) = terminated (provider s)
                  /\ config x = config s
                  /\ forall ip t,
                       last_used_time_by_ip (load_metrics x) !! ip = Some t ->
                       last_used_time_by_ip (load_metrics s) !! ip = Some t).
      assert (forall c x,
                (forall ids, c <> Call_terminate_nodes ids) ->
                Q x -> Q (set_provider (log_call c (provider x)) x))
        as Qread.
      { intros c x Hc HQ. destruct c; try exact HQ. exfalso. by eapply Hc. }
      assert (forall x x',
                provider x' = provider x -> config x' = config x ->
                load_metrics x' = load_metrics x -> Q x -> Q x') as Qother.
      { intros x x' Hp Hc Hl HQ. unfold Q. by rewrite Hp, Hc, Hl. }
      assert (Q s) as Q0 by done.
      apply bind_ok_inv in Hr as (nodes & s1 & Hnodes & Hr).
      pose proof (only_reads_workers Q Qread s Q0) as Q1.
      rewrite Hnodes in Q1. cbn [snd] in Q1.
      apply workers_ok_inv in Hnodes as [Hnodes _].
      apply bind_ok_inv in Hr as (active & s2 & Hactive & Hr).
      pose proof (only_reads_all_workers Q Qread s1 Q1) as Q2.
      rewrite Hactive in Q2. cbn [snd] in Q2. clear Hactive.
      apply bind_ok_inv in Hr as (ips & s3 & Hips & Hr).
      pose proof (@inv_for_list Q _ _ active internal_ip
                    (only_reads_internal_ip Q Qread) s2 Q2) as Q3.
      rewrite Hips in Q3. cbn [snd] in Q3. clear Hips.
      apply bind_ok_inv in Hr as ([] & s4 & Hprune & Hr).
      assert (Q s4) as Q4.
      { unfold prune_active_ips, assign in Hprune. injection Hprune as <-.
        destruct Q3 as (? & ? & ? & ? & ? & Hused).
        repeat split; try done. cbn. intros ip t Hl. apply Hused.
        unfold keep_ips in Hl.
        by apply map_lookup_filter_Some in Hl as [? _]. }
      clear Hprune.
      apply bind_ok_inv in Hr as ([] & s5 & Hlog & Hr).
      pose proof (only_reads_log_info_string Q Qother nodes s4 Q4) as Q5.
      rewrite Hlog in Q5. cbn [snd] in Q5. clear Hlog.
      apply bind_ok_inv in Hr as (x & ? & [= <- <-] & Hr).
      apply bind_ok_inv in Hr as (i & ? & Hi & Hr).
      apply getitem_ok_inv in Hi as [Hi ->].
      assert (i = idle_timeout_minutes) as ->.
      { destruct Q5 as (_ & _ & _ & _ & Hc & _). rewrite Hc, Hidle in Hi.
        by injection Hi. }
      clear Hi.
      apply bind_ok_inv in Hr as (sorted & s6 & Hsort & Hr).
      pose proof (only_reads__sort_based_on_last_used Q Qread nodes
                    (last_used_time_by_ip (load_metrics s5)) s5 Q5) as Q6.
      rewrite Hsort in Q6. cbn [snd] in Q6. clear Hsort.
      apply bind_ok_inv in Hr as (y & ? & [= <- <-] & Hr).
      apply bind_ok_inv in Hr as (allowed & s7 & Hallowed & Hr).
      assert (Q s7) as Q7.
      { destruct (nonempty (resource_demand_vector s6)).
        - pose proof (only_reads__get_nodes_allowed_to_terminate Q Qread
                        sorted s6 Q6) as Q7.
          by rewrite Hallowed in Q7.
        - by injection Hallowed as <- <-. }
      clear Hallowed.
      apply bind_ok_inv in Hr as (idle & s8 & Hwalk & Hr).
      pose proof (only_reads_terminate_idle_or_outdated Q Qread sorted
                    (last_used_time_by_ip (load_metrics s5))
                    (now - 60 * idle_timeout_minutes) allowed ∅ [] s7 Q7)
        as Q8.
      rewrite Hwalk in Q8. cbn [snd] in Q8.
      apply (terminate_idle_or_outdated_reason s7) in Hwalk
        as (added & -> & Hwhy & _); [|done].
      cbn [app] in Hr.
      assert (Forall (idle_or_outdated s (now - 60 * idle_timeout_minutes))
                added) as Hreason.
      { destruct Q7 as (_ & Ht & Hip & _ & Hc & _).
        destruct Q5 as (_ & _ & _ & _ & _ & Hused).
        eapply Forall_impl; [exact Hwhy|]. intros n Hn. cbv beta in Hn.
        rewrite Ht, Hip, Hc in Hn. unfold idle_or_outdated.
        destruct Hn as [(t & Hl & Hlt)|Hm]; [left|by right].
        exists t. split; [by apply Hused|done]. }
      clear Hwhy.
      apply bind_ok_inv in Hr as (listed & s9 & Hblock & Hr).
      apply terminate_and_list_ok_inv in Hblock
        as (Hn9 & Ht9 & Hcalls9 & Hc9 & Hlisted).
      destruct Q8 as (Hn8 & Ht8 & _ & Hcalls8 & Hc8 & _).
      assert (listed = worker_nodes (forget_nodes added (provider s)))
        as ->.
      { rewrite Hlisted by (rewrite Hnodes; unfold worker_nodes;
                             by rewrite Hn8, Ht8).
        unfold worker_nodes. cbn. by rewrite Hn8, Ht8. }
      clear Hlisted Hnodes.
      apply bind_ok_inv in Hr as ([kept excess] & s10 & Hpop & Hr).
      unfold terminate_too_many in Hpop.
      apply bind_ok_inv in Hpop as (z & ? & [= <- <-] & Hpop).
      apply bind_ok_inv in Hpop as (m & ? & Hm & Hpop).
      apply getitem_ok_inv in Hm as [Hm ->].
      rewrite Hc9, Hc8, Hmax in Hm. injection Hm as <-.
      destruct (terminate_unneeded _ _ _ _) as [[kept' excess']|] eqn:Hloop;
        [|done].
      injection Hpop as -> -> <-.
      destruct (terminate_unneeded_spec _ _ _ _ _ _ Hloop)
        as (popped & Hsplit & Hsel).
      cbn [app] in Hsel. subst popped.
      apply bind_ok_inv in Hr as (listed & s11 & Hblock & Hr).
      apply terminate_and_list_ok_inv in Hblock
        as (Hn11 & _ & Hcalls11 & _ & _).
      exists added, kept, excess. split; [done|]. split; [done|].
      split; [by apply (terminate_unneeded_selects _ _ _ _ _ Hloop)|].
      set (P := fun x : StandardAutoscaler =>
                  terminated (provider x) = terminated (provider s11)
                  /\ p_nodes (provider x) = p_nodes (provider s11)).
      assert (forall c x,
                (forall ids, c <> Call_terminate_nodes ids) ->
                P x -> P (set_provider (log_call c (provider x)) x))
        as Pread.
      { intros c x Hc HP. destruct c; try exact HP. exfalso. by eapply Hc. }
      assert (forall lm x, P x -> P (set_load_metrics lm x)) as Pmetrics
        by done.
      assert (forall x x',
                provider x' = provider x -> config x' = config x ->
                load_metrics x' = load_metrics x -> P x -> P x') as Pother.
      { intros x x' Hp _ _ HP. unfold P. by rewrite Hp. }
      lazymatch type of Hr with
      | ?m s11 = _ => assert (inv P m) as Hinv
      end.
      { repeat first
          [ inv_step
          | by apply only_reads_non_terminated_nodes
          | by apply only_reads_workers
          | by apply only_reads_launch_new_node
          | by apply only_reads_process_completed_updates
          | by apply only_reads_update_out_of_date_nodes
          | by apply only_reads_recover_if_needed ]. }
      destruct (Hinv s11 (conj eq_refl eq_refl)) as [Hcalls Hnodes'].
      rewrite Hr in Hcalls, Hnodes'. cbn [snd] in Hcalls, Hnodes'.
      split.
      - by rewrite Hcalls, Hcalls11, Hcalls9, Hcalls8.
      - rewrite Hnodes', Hn11. cbn. rewrite Hn9. cbn. by rewrite Hn8. }
    intros s max_workers idle_timeout_minutes Hdue Hmax Hidle Hok.
    rewrite (_update_eq now s Hdue) in Hok |- *.
    destruct (reconcile now (set_last_update_time now s)) as [r s'] eqn:Hr.
    cbn [fst snd] in *. subst r.
    destruct (Hbody (set_last_update_time now s) max_workers
                idle_timeout_minutes s' Hmax Hidle Hr)
      as (idle & kept & excess & Hwhy & Hsplit & Hsel & Hcalls & Hleft).
    exists idle, kept, excess. split; [done|]. split; [done|].
    split; [by exists kept|done].
  - intros s nodes max_workers Hmax.
    unfold terminate_too_many, bind, self. cbn. rewrite Hmax. cbn.
    destruct (terminate_unneeded_fuel (length nodes) max_workers nodes [])
      as [[kept selected] Hr]; [done|].
    rewrite Hr. exists kept, selected. split; [done|].
    destruct (terminate_unneeded_spec _ _ _ _ _ _ Hr) as (popped & Hn & Hs).
    cbn in Hs. subst popped.
    split; [done|]. split; [by exists kept|].
    by apply (terminate_unneeded_selects _ _ _ _ _ Hr).
Qed.

(** On [Cluster.over_capacity] no worker is idle or outdated, the provider
    lists [n1; n2] and there is room for one worker: step 3 terminates
    [n2], the more recently used of the two. *)
Lemma excess_is_taken_from_the_provider_listing_witness :
  terminated (provider (_update 1200 Cluster.over_capacity).2)
  = [["n2"%string]]
  /\ exists idle kept excess,
       Forall (idle_or_outdated Cluster.over_capacity (1200 - 60 * 5)) idle
       /\ worker_nodes (forget_nodes idle (provider Cluster.over_capacity))
          = kept ++ rev excess
       /\ taken_from_tail_of excess
            (worker_nodes
               (forget_nodes idle (provider Cluster.over_capacity)))
       /\ (0 <= 1
           < Z.of_nat
               (length
                  (worker_nodes
                     (forget_nodes idle (provider Cluster.over_capacity)))) ->
           excess <> [])
       /\ terminated (provider (_update 1200 Cluster.over_capacity).2)
          = (if nonempty excess then [excess] else [])
            ++ (if nonempty idle then [idle] else [])
            ++ terminated (provider Cluster.over_capacity)
       /\ p_nodes (provider (_update 1200 Cluster.over_capacity).2)
          = p_nodes
              (forget_nodes excess
                 (forget_nodes idle (provider Cluster.over_capacity))).
Proof.
  split; [by vm_compute|].
  apply (proj1 excess_is_taken_from_the_provider_listing
           Cluster.collaborators 1200 Cluster.over_capacity 1 5);
    [by vm_compute|reflexivity|reflexivity|by vm_compute].
Defined.
